(** * Spicy plugin for Zeek: analyzer registry and module loading

    A shallow embedding of [plugin.cc] (class [plugin::Zeek_Spicy::Plugin]):
    the three descriptor tables indexed by the host-assigned analyzer type,
    the two registration phases, the toggle entry points, and the loading
    and discovery of precompiled modules.

    Conventions of the embedding:
    - a [std::vector] is a [list]; [v.resize(n)] is stdpp's [resize n d v]
      with [d] the value-initialised element, [v[i] = x] is [<[i:=x]> v];
      reading [v[i]] with [i] out of range has no defined result in C++ and
      is [Undefined] here;
    - a [::zeek::...::Tag] is its numeric type ([tag.Type()]), a natural
      number (the width of [Tag::type_t] is fixed outside [plugin.cc]); the
      empty tag [Tag()] has type 0 and converts to [false];
    - a [const spicy::rt::Parser*] is an [option Parser], [nullptr] is [None];
    - [hilti::rt::fmt] is string concatenation;
    - code that may end the process runs in the monad [M], whose result is
      [Done], [Fatal] (the process is terminated) or [Undefined]. *)

From stdpp Require Import gmap strings list fin_maps pretty.

(** ** Values of the Spicy runtime *)

(** [hilti::rt::Protocol]. *)
Inductive Protocol := Undef | TCP | UDP | ICMP.

(** [spicy::rt::Direction]. *)
Inductive Direction := Originator | Responder | Both | DirectionUndef.

(** [hilti::rt::Port]: [port()] and [protocol()]. *)
Record Port := { port : nat; protocol : Protocol }.

(** [spicy::rt::ParserPort]. *)
Record ParserPort := { pp_port : Port; pp_direction : Direction }.

(** [spicy::rt::Parser], the fields [plugin.cc] reads. *)
Record Parser := {
  parser_name : string;
  parser_ports : list ParserPort;
  parser_mime_types : list string
}.

(** Numeric analyzer type of a tag ([Tag::type_t]); 0 is the empty tag. *)
Abbreviation Tag := nat (only parsing).

Global Instance Protocol_eq_dec : EqDecision Protocol.
Proof. solve_decision. Defined.

Global Instance Direction_eq_dec : EqDecision Direction.
Proof. solve_decision. Defined.

(** ** Analyzer descriptors

    The three structs are declared in [plugin.h]; the fields are the ones
    [plugin.cc] reads and writes.  A value-initialised descriptor has
    [type = 0], an empty [replaces] tag and null parsers. *)

Module ProtocolAnalyzerInfo.
(** Modelled from the spec: [ProtocolAnalyzerInfo] of [plugin.h], the
    descriptor of a protocol analyzer, unset when its [type] is 0. *)
Record t := Build {
  name_analyzer : string;
  name_parser_orig : string;
  name_parser_resp : string;
  name_replaces : string;
  name_zeekygen : string;
  protocol : Protocol;
  ports : list Port;
  type : Tag;
  replaces : Tag;
  parser_orig : option Parser;
  parser_resp : option Parser
}.
Definition default : t := Build "" "" "" "" "" Undef [] 0 0 None None.
Definition set_replaces (r : Tag) (i : t) : t :=
  Build (name_analyzer i) (name_parser_orig i) (name_parser_resp i) (name_replaces i)
        (name_zeekygen i) (protocol i) (ports i) (type i) r (parser_orig i) (parser_resp i).
Definition set_type (ty : Tag) (i : t) : t :=
  Build (name_analyzer i) (name_parser_orig i) (name_parser_resp i) (name_replaces i)
        (name_zeekygen i) (protocol i) (ports i) ty (replaces i) (parser_orig i) (parser_resp i).
Definition set_parsers (po pr : option Parser) (i : t) : t :=
  Build (name_analyzer i) (name_parser_orig i) (name_parser_resp i) (name_replaces i)
        (name_zeekygen i) (protocol i) (ports i) (type i) (replaces i) po pr.
End ProtocolAnalyzerInfo.

Module FileAnalyzerInfo.
(** Modelled from the spec: [FileAnalyzerInfo] of [plugin.h], the descriptor
    of a file analyzer, unset when its [type] is 0. *)
Record t := Build {
  name_analyzer : string;
  name_parser : string;
  name_replaces : string;
  name_zeekygen : string;
  mime_types : list string;
  type : Tag;
  replaces : Tag;
  parser : option Parser
}.
Definition default : t := Build "" "" "" "" [] 0 0 None.
Definition set_replaces (r : Tag) (i : t) : t :=
  Build (name_analyzer i) (name_parser i) (name_replaces i) (name_zeekygen i)
        (mime_types i) (type i) r (parser i).
Definition set_type (ty : Tag) (i : t) : t :=
  Build (name_analyzer i) (name_parser i) (name_replaces i) (name_zeekygen i)
        (mime_types i) ty (replaces i) (parser i).
Definition set_parser (p : option Parser) (i : t) : t :=
  Build (name_analyzer i) (name_parser i) (name_replaces i) (name_zeekygen i)
        (mime_types i) (type i) (replaces i) p.
End FileAnalyzerInfo.

Module PacketAnalyzerInfo.
(** Modelled from the spec: [PacketAnalyzerInfo] of [plugin.h], the descriptor
    of a packet analyzer, unset when its [type] is 0; it has no [replaces]. *)
Record t := Build {
  name_analyzer : string;
  name_parser : string;
  name_zeekygen : string;
  type : Tag;
  parser : option Parser
}.
Definition default : t := Build "" "" "" 0 None.
Definition set_type (ty : Tag) (i : t) : t :=
  Build (name_analyzer i) (name_parser i) (name_zeekygen i) ty (parser i).
Definition set_parser (p : option Parser) (i : t) : t :=
  Build (name_analyzer i) (name_parser i) (name_zeekygen i) (type i) p.
End PacketAnalyzerInfo.

(** ** The host engine *)

(** [::TransportProto]. *)
Inductive TransportProto :=
  TRANSPORT_TCP | TRANSPORT_UDP | TRANSPORT_ICMP | TRANSPORT_UNKNOWN.

(** Modelled from the spec: the host's analyzer components are not part of
    this repository.  A component has a name, the tag the host gave it and
    an enabled flag; a new component starts enabled. *)
Record Component := { c_name : string; c_tag : Tag; c_enabled : bool }.

(** Modelled from the spec: the host services the plugin calls (component
    registration, tag lookup by name, enable and disable by tag, port
    registration, the event queue, Zeekygen and the current location). One
    component list per manager: [analyzer_mgr], [file_mgr], [packet_mgr]. *)
Record Host := {
  analyzer_mgr : list Component;
  file_mgr : list Component;
  packet_mgr : list Component;
  zeekygen_scripts : list string;
  location : string;
  registered_ports : list (Tag * TransportProto * nat);
  event_queue : list (string * Tag * string)
}.

Definition set_analyzer_mgr (f : list Component → list Component) (h : Host) : Host :=
  {| analyzer_mgr := f (analyzer_mgr h); file_mgr := file_mgr h; packet_mgr := packet_mgr h;
     zeekygen_scripts := zeekygen_scripts h; location := location h;
     registered_ports := registered_ports h; event_queue := event_queue h |}.

Definition set_file_mgr (f : list Component → list Component) (h : Host) : Host :=
  {| analyzer_mgr := analyzer_mgr h; file_mgr := f (file_mgr h); packet_mgr := packet_mgr h;
     zeekygen_scripts := zeekygen_scripts h; location := location h;
     registered_ports := registered_ports h; event_queue := event_queue h |}.

Definition set_packet_mgr (f : list Component → list Component) (h : Host) : Host :=
  {| analyzer_mgr := analyzer_mgr h; file_mgr := file_mgr h; packet_mgr := f (packet_mgr h);
     zeekygen_scripts := zeekygen_scripts h; location := location h;
     registered_ports := registered_ports h; event_queue := event_queue h |}.

(** Modelled from the spec: the location workaround,
    [zeekygen_mgr->Script(name)] followed by [set_location(Location(name))]. *)
Definition zeekygen_location (fname : string) (h : Host) : Host :=
  {| analyzer_mgr := analyzer_mgr h; file_mgr := file_mgr h; packet_mgr := packet_mgr h;
     zeekygen_scripts := zeekygen_scripts h ++ [fname]; location := fname;
     registered_ports := registered_ports h; event_queue := event_queue h |}.

(** Modelled from the spec: port registration,
    [analyzer_mgr->RegisterAnalyzerForPort(tag, proto, port)]. *)
Definition RegisterAnalyzerForPort (tag : Tag) (tp : TransportProto) (p : nat) (h : Host) : Host :=
  {| analyzer_mgr := analyzer_mgr h; file_mgr := file_mgr h; packet_mgr := packet_mgr h;
     zeekygen_scripts := zeekygen_scripts h; location := location h;
     registered_ports := registered_ports h ++ [(tag, tp, p)]; event_queue := event_queue h |}.

(** Modelled from the spec: the event queue of the host,
    [event_mgr.Enqueue(handler, tag, mime_type)]; the host handles the event
    later. *)
Definition event_mgr_Enqueue (handler : string) (tag : Tag) (mt : string) (h : Host) : Host :=
  {| analyzer_mgr := analyzer_mgr h; file_mgr := file_mgr h; packet_mgr := packet_mgr h;
     zeekygen_scripts := zeekygen_scripts h; location := location h;
     registered_ports := registered_ports h; event_queue := event_queue h ++ [(handler, tag, mt)] |}.

(** Modelled from the spec: lookup of a component by name, [mgr->Lookup(name)]. *)
Definition Lookup_name (n : string) (cs : list Component) : option Component :=
  List.find (λ c, bool_decide (c_name c = n)) cs.

(** Modelled from the spec: lookup of a component by tag, [mgr->Lookup(tag)]. *)
Definition Lookup_tag (tag : Tag) (cs : list Component) : option Component :=
  List.find (λ c, bool_decide (c_tag c = tag)) cs.

(** Modelled from the spec: tag lookup by name, [mgr->GetAnalyzerTag(name)] /
    [GetComponentTag(name)]; the empty tag when the name is unknown. *)
Definition GetComponentTag (n : string) (cs : list Component) : Tag :=
  match Lookup_name n cs with
  | Some c => c_tag c
  | None => 0
  end.

(** Modelled from the spec: enable and disable by tag,
    [component->SetEnabled(b)] on the component [Lookup(tag)] returns; no
    effect when there is none. *)
Fixpoint SetEnabled (tag : Tag) (b : bool) (cs : list Component) : list Component :=
  match cs with
  | [] => []
  | c :: cs' =>
      if bool_decide (c_tag c = tag)
      then {| c_name := c_name c; c_tag := c_tag c; c_enabled := b |} :: cs'
      else c :: SetEnabled tag b cs'
  end.

(** Modelled from the spec: [analyzer_mgr->EnableAnalyzer(tag)] and
    [analyzer_mgr->DisableAnalyzer(tag)]. *)
Definition EnableAnalyzer (tag : Tag) : Host → Host := set_analyzer_mgr (SetEnabled tag true).
Definition DisableAnalyzer (tag : Tag) : Host → Host := set_analyzer_mgr (SetEnabled tag false).

(** The enabled state the host holds for a tag. *)
Definition enabled (tag : Tag) (cs : list Component) : option bool :=
  c_enabled <$> Lookup_tag tag cs.

(** Modelled from the spec: component registration, [AddComponent(c)] and
    [c->Initialize()]: the component is handed to its manager, which assigns
    its tag; [ty] is the numeric type the host chose.
    The registration functions apply it where the source calls
    [c->Initialize()], after the Zeekygen and location calls. *)
Definition new_component (n : string) (ty : Tag) (cs : list Component) : list Component :=
  cs ++ [{| c_name := n; c_tag := ty; c_enabled := true |}].

(** ** Plugin state *)

(** [hilti::rt::Library]: an opened-module handle, with the module file and
    whether [open()] succeeded. *)
Record Library := { lib_path : string; lib_open : bool }.

Record Plugin := {
  _protocol_analyzers_by_type : list ProtocolAnalyzerInfo.t;
  _file_analyzers_by_type : list FileAnalyzerInfo.t;
  _packet_analyzers_by_type : list PacketAnalyzerInfo.t;
  _libraries : gmap string Library;
  _locations : gset string
}.

Definition set_protocol_analyzers (v : list ProtocolAnalyzerInfo.t) (p : Plugin) : Plugin :=
  {| _protocol_analyzers_by_type := v; _file_analyzers_by_type := _file_analyzers_by_type p;
     _packet_analyzers_by_type := _packet_analyzers_by_type p;
     _libraries := _libraries p; _locations := _locations p |}.

Definition set_file_analyzers (v : list FileAnalyzerInfo.t) (p : Plugin) : Plugin :=
  {| _protocol_analyzers_by_type := _protocol_analyzers_by_type p; _file_analyzers_by_type := v;
     _packet_analyzers_by_type := _packet_analyzers_by_type p;
     _libraries := _libraries p; _locations := _locations p |}.

Definition set_packet_analyzers (v : list PacketAnalyzerInfo.t) (p : Plugin) : Plugin :=
  {| _protocol_analyzers_by_type := _protocol_analyzers_by_type p;
     _file_analyzers_by_type := _file_analyzers_by_type p;
     _packet_analyzers_by_type := v;
     _libraries := _libraries p; _locations := _locations p |}.

Definition set_libraries (m : gmap string Library) (p : Plugin) : Plugin :=
  {| _protocol_analyzers_by_type := _protocol_analyzers_by_type p;
     _file_analyzers_by_type := _file_analyzers_by_type p;
     _packet_analyzers_by_type := _packet_analyzers_by_type p;
     _libraries := m; _locations := _locations p |}.

(** [makeLocation(fname)]: remembers the file name. *)
Definition makeLocation (fname : string) (p : Plugin) : Plugin :=
  {| _protocol_analyzers_by_type := _protocol_analyzers_by_type p;
     _file_analyzers_by_type := _file_analyzers_by_type p;
     _packet_analyzers_by_type := _packet_analyzers_by_type p;
     _libraries := _libraries p; _locations := {[fname]} ∪ _locations p |}.

Definition empty_plugin : Plugin :=
  {| _protocol_analyzers_by_type := []; _file_analyzers_by_type := [];
     _packet_analyzers_by_type := []; _libraries := ∅; _locations := ∅ |}.

(** ** The world: plugin, host, log and the modules opened so far *)

(** What the plugin reports. *)
Inductive LogEntry :=
  | Debug (msg : string)
  | Error (msg : string).

Record World := {
  plugin : Plugin;
  host : Host;
  log : list LogEntry;
  opened : list string        (* every successful [Library::open()], in order *)
}.

Definition with_plugin (f : Plugin → Plugin) (w : World) : World :=
  {| plugin := f (plugin w); host := host w; log := log w; opened := opened w |}.

Definition with_host (f : Host → Host) (w : World) : World :=
  {| plugin := plugin w; host := f (host w); log := log w; opened := opened w |}.

Definition with_log (e : LogEntry) (w : World) : World :=
  {| plugin := plugin w; host := host w; log := log w ++ [e]; opened := opened w |}.

Definition with_opened (p : string) (w : World) : World :=
  {| plugin := plugin w; host := host w; log := log w; opened := opened w ++ [p] |}.

(** Modelled from the spec: the macro [ZEEK_DEBUG], defined in a header of
    the plugin, logs a message (through [debug::do_log]). *)
Definition ZEEK_DEBUG (msg : string) : World → World := with_log (Debug msg).

(** Modelled from the spec: [reporter::error] of [zeek-reporter.h] reports a
    non-fatal error; the caller goes on. *)
Definition reporter_error (msg : string) : World → World := with_log (Error msg).

(** ** Sequences of registrations

    What the initialisers of a module do when the module is opened: a
    sequence of calls of the three registration functions, each with the
    type the host gives the new component. *)
Inductive Registration :=
  | RegisterProtocol (name : string) (proto : Protocol) (ports : list Port)
                     (parser_orig parser_resp replaces : string) (ty : Tag)
  | RegisterFile (name : string) (mime_types : list string) (parser replaces : string) (ty : Tag)
  | RegisterPacket (name parser : string) (ty : Tag).

(** ** Build configuration and environment

    What [plugin.cc] takes from its build ([ZEEK_VERSION_NUMBER],
    [HAVE_PACKET_ANALYZERS], [configuration::PluginModuleDirectory]), from the
    host ([zeek_plugin_path()]), from the process environment, from the Spicy
    runtime ([spicy::rt::parsers()], the outcome of [init()]) and from the
    file system. *)

(** An entry of a [recursive_directory_iterator]. *)
Record DirEntry := { entry_path : string; is_regular_file : bool }.

Record Env := {
  ZEEK_VERSION_NUMBER : Z;
  HAVE_PACKET_ANALYZERS : bool;
  PluginModuleDirectory : string;
  zeek_plugin_path : string;
  getenv : string → option string;
  parsers : list Parser;
  (* the exception [hilti::rt::init()] / [spicy::rt::init()] throws, if any *)
  runtime_init : option string;
  (* [filesystem::canonical]; [None] when it throws, which ends the process *)
  canonical : string → option string;
  is_directory : string → bool;
  recursive_directory_iterator : string → list DirEntry;
  (* [path.extension()] *)
  extension : string → string;
  (* [Library::open()]: the error it reports, if any *)
  Library_open : string → option string;
  (* what the initialisers of a module file do when [Library::open()] maps
     it: the calls of the registration functions, in order *)
  Library_init : string → list Registration
}.

(** ** Phase 1: registration *)

Section Registration.

Variable E : Env.

(** The [switch] on the protocol: which analyzer class is instantiated. *)
Inductive factory_callback := TCP_Analyzer | UDP_Analyzer | File_Analyzer | Packet_Analyzer.

Definition protocol_factory (proto : Protocol) : option factory_callback :=
  match proto with
  | TCP => Some TCP_Analyzer
  | UDP => Some UDP_Analyzer
  | _ => None
  end.

(** [registerProtocolAnalyzer]; [ty] is what [c->Tag().Type()] returns for the
    new component. *)
Definition registerProtocolAnalyzer (name : string) (proto : Protocol) (ports : list Port)
    (parser_orig parser_resp replaces : string) (ty : Tag) (w : World) : World :=
  let w := ZEEK_DEBUG ("Have Spicy protocol analyzer " +:+ name) w in
  let info :=
    ProtocolAnalyzerInfo.Build name parser_orig parser_resp replaces
      ("<Spicy-" +:+ name +:+ ">") proto ports 0 0 None None in
  let '(info, w) :=
    if bool_decide (String.length replaces ≠ 0) then
      let tag := GetComponentTag replaces (analyzer_mgr (host w)) in
      if bool_decide (tag ≠ 0) then
        let w := ZEEK_DEBUG ("  Replaces existing protocol analyzer " +:+ replaces) w in
        (ProtocolAnalyzerInfo.set_replaces tag info, with_host (DisableAnalyzer tag) w)
      else
        (info, ZEEK_DEBUG (name +:+ " i supposed to replace " +:+ replaces
                                +:+ ", but that does not exist") w)
    else (info, w) in
  match protocol_factory proto with
  | None => reporter_error "unsupported protocol in analyzer" w
  | Some _ =>
      let w := with_plugin (makeLocation (ProtocolAnalyzerInfo.name_zeekygen info)) w in
      let w := with_host (zeekygen_location (ProtocolAnalyzerInfo.name_zeekygen info)) w in
      let w := with_host (set_analyzer_mgr
                            (new_component (ProtocolAnalyzerInfo.name_analyzer info) ty)) w in
      let info := ProtocolAnalyzerInfo.set_type ty info in
      with_plugin (λ p, set_protocol_analyzers
        (<[ProtocolAnalyzerInfo.type info := info]>
           (resize (ProtocolAnalyzerInfo.type info + 1) ProtocolAnalyzerInfo.default
                   (_protocol_analyzers_by_type p))) p) w
  end.

(** [registerFileAnalyzer]; the [replaces] block is compiled in only for
    [ZEEK_VERSION_NUMBER >= 40100]. *)
Definition registerFileAnalyzer (name : string) (mime_types : list string)
    (parser replaces : string) (ty : Tag) (w : World) : World :=
  let w := ZEEK_DEBUG ("Have Spicy file analyzer " +:+ name) w in
  let info :=
    FileAnalyzerInfo.Build name parser replaces ("<Spicy-" +:+ name +:+ ">") mime_types
      0 0 None in
  let '(info, w) :=
    if bool_decide (40100 ≤ ZEEK_VERSION_NUMBER E)%Z then
      if bool_decide (String.length replaces ≠ 0) then
        match Lookup_name replaces (file_mgr (host w)) with
        | Some component =>
            let w := ZEEK_DEBUG ("  Replaces existing file analyzer " +:+ replaces) w in
            (FileAnalyzerInfo.set_replaces (c_tag component) info,
             with_host (set_file_mgr (SetEnabled (c_tag component) false)) w)
        | None =>
            (info, ZEEK_DEBUG (name +:+ " i supposed to replace " +:+ replaces
                                    +:+ ", but that does not exist") w)
        end
      else (info, w)
    else (info, w) in
  let w := with_plugin (makeLocation (FileAnalyzerInfo.name_zeekygen info)) w in
  let w := with_host (zeekygen_location (FileAnalyzerInfo.name_zeekygen info)) w in
  let w := with_host (set_file_mgr (new_component (FileAnalyzerInfo.name_analyzer info) ty)) w in
  let info := FileAnalyzerInfo.set_type ty info in
  with_plugin (λ p, set_file_analyzers
    (<[FileAnalyzerInfo.type info := info]>
       (resize (FileAnalyzerInfo.type info + 1) FileAnalyzerInfo.default
               (_file_analyzers_by_type p))) p) w.

(** [registerPacketAnalyzer] (no [replaces] for this kind). *)
Definition registerPacketAnalyzer (name parser : string) (ty : Tag) (w : World) : World :=
  let w := ZEEK_DEBUG ("Have Spicy packet analyzer " +:+ name) w in
  let info := PacketAnalyzerInfo.Build name parser ("<Spicy-" +:+ name +:+ ">") 0 None in
  let w := with_plugin (makeLocation (PacketAnalyzerInfo.name_zeekygen info)) w in
  let w := with_host (zeekygen_location (PacketAnalyzerInfo.name_zeekygen info)) w in
  let w := with_host (set_packet_mgr
                        (new_component (PacketAnalyzerInfo.name_analyzer info) ty)) w in
  let info := PacketAnalyzerInfo.set_type ty info in
  with_plugin (λ p, set_packet_analyzers
    (<[PacketAnalyzerInfo.type info := info]>
       (resize (PacketAnalyzerInfo.type info + 1) PacketAnalyzerInfo.default
               (_packet_analyzers_by_type p))) p) w.

End Registration.

(** A module's registrations, run in order. *)
Definition register (E : Env) (r : Registration) (w : World) : World :=
  match r with
  | RegisterProtocol name proto ports parser_orig parser_resp replaces ty =>
      registerProtocolAnalyzer name proto ports parser_orig parser_resp replaces ty w
  | RegisterFile name mime_types parser replaces ty =>
      registerFileAnalyzer E name mime_types parser replaces ty w
  | RegisterPacket name parser ty =>
      registerPacketAnalyzer name parser ty w
  end.

Definition phase1 (E : Env) (rs : list Registration) (w : World) : World :=
  foldl (λ w r, register E r w) w rs.


(** ** Code that can end the process *)

Inductive Result (A : Type) :=
  | Done (a : A) (w : World)     (* returned [a], leaving the world [w] *)
  | Fatal (msg : string)         (* the process was terminated *)
  | Undefined.                   (* no defined behaviour *)

Arguments Done {A} a w.
Arguments Fatal {A} msg.
Arguments Undefined {A}.

Definition M (A : Type) : Type := World → Result A.

Global Instance M_ret : MRet M := λ A a w, Done a w.

Global Instance M_bind : MBind M := λ A B k m w,
  match m w with
  | Done a w' => k a w'
  | Fatal msg => Fatal msg
  | Undefined => Undefined
  end.

Definition gets {A} (f : World → A) : M A := λ w, Done (f w) w.
Definition lift (f : World → World) : M unit := λ w, Done () (f w).
Definition debug (msg : string) : M unit := lift (ZEEK_DEBUG msg).
Definition undefined {A} : M A := λ _, Undefined.

(** Modelled from the spec: [reporter::internalError] and
    [reporter::fatalError] of [zeek-reporter.h], like [hilti::rt::fatalError]
    and [exit(1)], end the process and do not return. *)
Definition internalError {A} (msg : string) : M A := λ _, Fatal msg.
Definition fatalError {A} (msg : string) : M A := λ _, Fatal msg.

(** [v[i]] on a vector. *)
Definition at_index {A} (v : list A) (i : nat) : M A :=
  match v !! i with
  | Some x => mret x
  | None => undefined
  end.

(** [for (auto x : l) body(x)]. *)
Fixpoint for_each {A} (body : A → M unit) (l : list A) : M unit :=
  match l with
  | [] => mret ()
  | x :: l' => body x;; for_each body l'
  end.

(** [for (auto& p : v) { ... p.field = ...; }]: the body updates the element
    it visits. *)
Fixpoint for_each_ref {A} (body : A → M A) (v : list A) : M (list A) :=
  match v with
  | [] => mret []
  | p :: v' => p' ← body p; v'' ← for_each_ref body v'; mret (p' :: v'')
  end.

(** ** Lookups by tag *)

(** [parserForProtocolAnalyzer], [parserForFileAnalyzer] and
    [parserForPacketAnalyzer] read the slot of [tag.Type()] unchecked. *)
Definition parserForProtocolAnalyzer (tag : Tag) (is_orig : bool) : M (option Parser) :=
  v ← gets (λ w, _protocol_analyzers_by_type (plugin w));
  if is_orig
  then info ← at_index v tag; mret (ProtocolAnalyzerInfo.parser_orig info)
  else info ← at_index v tag; mret (ProtocolAnalyzerInfo.parser_resp info).

Definition parserForFileAnalyzer (tag : Tag) : M (option Parser) :=
  v ← gets (λ w, _file_analyzers_by_type (plugin w));
  info ← at_index v tag; mret (FileAnalyzerInfo.parser info).

Definition parserForPacketAnalyzer (tag : Tag) : M (option Parser) :=
  v ← gets (λ w, _packet_analyzers_by_type (plugin w));
  info ← at_index v tag; mret (PacketAnalyzerInfo.parser info).

(** ** The toggle controller *)

Section Runtime.

Variable E : Env.

(** [toggleAnalyzer(const ::zeek::analyzer::Tag&, bool)]. *)
Definition toggleAnalyzer_protocol (tag : Tag) (enable : bool) : M bool :=
  let type := tag in
  v ← gets (λ w, _protocol_analyzers_by_type (plugin w));
  if bool_decide (length v ≤ type) then mret false else
  analyzer ← at_index v type;
  if bool_decide (ProtocolAnalyzerInfo.type analyzer = 0) then mret false else
  (if enable then
     debug ("Enabling Spicy protocol analyzer "
              +:+ ProtocolAnalyzerInfo.name_analyzer analyzer);;
     lift (with_host (EnableAnalyzer tag));;
     if bool_decide (ProtocolAnalyzerInfo.replaces analyzer ≠ 0) then
       debug ("Disabling standard protocol analyzer "
                +:+ ProtocolAnalyzerInfo.name_analyzer analyzer);;
       lift (with_host (DisableAnalyzer (ProtocolAnalyzerInfo.replaces analyzer)))
     else mret ()
   else
     debug ("Disabling Spicy protocol analyzer "
              +:+ ProtocolAnalyzerInfo.name_analyzer analyzer);;
     lift (with_host (DisableAnalyzer tag));;
     if bool_decide (ProtocolAnalyzerInfo.replaces analyzer ≠ 0) then
       debug ("Re-enabling standard protocol analyzer "
                +:+ ProtocolAnalyzerInfo.name_analyzer analyzer);;
       lift (with_host (EnableAnalyzer (ProtocolAnalyzerInfo.replaces analyzer)))
     else mret ());;
  mret true.

(** [toggleAnalyzer(const ::zeek::file_analysis::Tag&, bool)]. *)
Definition toggleAnalyzer_file (tag : Tag) (enable : bool) : M bool :=
  let type := tag in
  v ← gets (λ w, _file_analyzers_by_type (plugin w));
  if bool_decide (length v ≤ type) then mret false else
  analyzer ← at_index v type;
  if bool_decide (FileAnalyzerInfo.type analyzer = 0) then mret false else
  if bool_decide (40100 ≤ ZEEK_VERSION_NUMBER E)%Z then
    component ← gets (λ w, Lookup_tag tag (file_mgr (host w)));
    component_replaces ← gets (λ w,
      if bool_decide (FileAnalyzerInfo.replaces analyzer ≠ 0)
      then Lookup_tag (FileAnalyzerInfo.replaces analyzer) (file_mgr (host w))
      else None);
    match component with
    | None => internalError "failed to lookup file analyzer component"
    | Some component =>
        (if enable then
           debug ("Enabling Spicy file analyzer "
                    +:+ FileAnalyzerInfo.name_analyzer analyzer);;
           lift (with_host (set_file_mgr (SetEnabled (c_tag component) true)));;
           match component_replaces with
           | Some component_replaces =>
               debug ("Disabling standard file analyzer "
                        +:+ FileAnalyzerInfo.name_analyzer analyzer);;
               lift (with_host (set_file_mgr (SetEnabled (c_tag component_replaces) false)))
           | None => mret ()
           end
         else
           debug ("Disabling Spicy file analyzer "
                    +:+ FileAnalyzerInfo.name_analyzer analyzer);;
           lift (with_host (set_file_mgr (SetEnabled (c_tag component) false)));;
           match component_replaces with
           | Some component_replaces =>
               debug ("Enabling standard file analyzer "
                        +:+ FileAnalyzerInfo.name_analyzer analyzer);;
               lift (with_host (set_file_mgr (SetEnabled (c_tag component_replaces) true)))
           | None => mret ()
           end);;
        mret true
    end
  else
    debug ("supposed to toggle file analyzer " +:+ FileAnalyzerInfo.name_analyzer analyzer
             +:+ ", but that is not supported by Zeek version");;
    mret false.

(** [toggleAnalyzer(const ::zeek::packet_analysis::Tag&, bool)]: the bound is
    that of [_packet_analyzers_by_type], the slot read is that of
    [_protocol_analyzers_by_type]. *)
Definition toggleAnalyzer_packet (tag : Tag) (enable : bool) : M bool :=
  let type := tag in
  n ← gets (λ w, length (_packet_analyzers_by_type (plugin w)));
  if bool_decide (n ≤ type) then mret false else
  v ← gets (λ w, _protocol_analyzers_by_type (plugin w));
  analyzer ← at_index v type;
  if bool_decide (ProtocolAnalyzerInfo.type analyzer = 0) then mret false else
  debug ("supposed to toggle packet analyzer " +:+ ProtocolAnalyzerInfo.name_analyzer analyzer
           +:+ ", but that is not supported by Zeek");;
  mret false.

(** ** Phase 2: [InitPostScript] *)

(** How [hilti::rt::fmt] prints a protocol and a port. *)
Definition fmt_protocol (p : Protocol) : string :=
  match p with
  | TCP => "TCP"
  | UDP => "UDP"
  | ICMP => "ICMP"
  | Undef => "<unknown>"
  end.

Definition fmt_port (p : Port) : string :=
  pretty (port p) +:+ "/" +:+ fmt_protocol (protocol p).

(** [transport_protocol]: a port's Zeek-side transport protocol. *)
Definition transport_protocol (p : Port) : M TransportProto :=
  match protocol p with
  | TCP => mret TRANSPORT_TCP
  | UDP => mret TRANSPORT_UDP
  | ICMP => mret TRANSPORT_ICMP
  | _ => internalError ("unsupported transport protocol in port '" +:+ fmt_port p
                          +:+ "' for Zeek conversion")
  end.

(** The lambda [find_parser] of [InitPostScript]. *)
Definition find_parser (analyzer parser : string) : M (option Parser) :=
  if bool_decide (parser = "") then mret None else
  match List.find (λ p, bool_decide (parser_name p = parser)) (parsers E) with
  | Some p => mret (Some p)
  | None => internalError ("Unknown Spicy parser '" +:+ parser
                             +:+ "' requested by analyzer '" +:+ analyzer +:+ "'")
  end.

(** Body of the loop over [_protocol_analyzers_by_type]. *)
Definition init_protocol_analyzer (p : ProtocolAnalyzerInfo.t) : M ProtocolAnalyzerInfo.t :=
  if bool_decide (ProtocolAnalyzerInfo.type p = 0) then mret p else
  debug ("Registering " +:+ fmt_protocol (ProtocolAnalyzerInfo.protocol p)
           +:+ " protocol analyzer " +:+ ProtocolAnalyzerInfo.name_analyzer p +:+ " with Zeek");;
  parser_orig ← find_parser (ProtocolAnalyzerInfo.name_analyzer p)
                            (ProtocolAnalyzerInfo.name_parser_orig p);
  parser_resp ← find_parser (ProtocolAnalyzerInfo.name_analyzer p)
                            (ProtocolAnalyzerInfo.name_parser_resp p);
  tag ← gets (λ w, GetComponentTag (ProtocolAnalyzerInfo.name_analyzer p)
                                   (analyzer_mgr (host w)));
  (if bool_decide (tag = 0)
   then internalError ("cannot get analyzer tag for '"
                         +:+ ProtocolAnalyzerInfo.name_analyzer p +:+ "'")
   else mret ());;
  for_each (λ port_,
      debug ("  Scheduling analyzer for port " +:+ fmt_port port_);;
      tp ← transport_protocol port_;
      lift (with_host (RegisterAnalyzerForPort tag tp (port port_))))
    (ProtocolAnalyzerInfo.ports p);;
  match parser_resp with
  | Some r =>
      for_each (λ pp,
          if bool_decide (pp_direction pp ≠ Both ∧ pp_direction pp ≠ Responder) then mret () else
          debug ("  Scheduling analyzer for port " +:+ fmt_port (pp_port pp));;
          tp ← transport_protocol (pp_port pp);
          lift (with_host (RegisterAnalyzerForPort tag tp (port (pp_port pp)))))
        (parser_ports r)
  | None => mret ()
  end;;
  mret (ProtocolAnalyzerInfo.set_parsers parser_orig parser_resp p).

(** The lambda [register_analyzer_for_mime_type]. *)
Definition register_analyzer_for_mime_type (tag : Tag) (mt : string) : M unit :=
  debug ("  Scheduling analyzer for MIME type " +:+ mt);;
  lift (with_host (event_mgr_Enqueue "spicy_analyzer_for_mime_type" tag mt)).

(** Body of the loop over [_file_analyzers_by_type]. *)
Definition init_file_analyzer (p : FileAnalyzerInfo.t) : M FileAnalyzerInfo.t :=
  if bool_decide (FileAnalyzerInfo.type p = 0) then mret p else
  debug ("Registering file analyzer " +:+ FileAnalyzerInfo.name_analyzer p +:+ " with Zeek");;
  parser ← find_parser (FileAnalyzerInfo.name_analyzer p) (FileAnalyzerInfo.name_parser p);
  tag ← gets (λ w, GetComponentTag (FileAnalyzerInfo.name_analyzer p) (file_mgr (host w)));
  (if bool_decide (tag = 0)
   then internalError ("cannot get analyzer tag for '"
                         +:+ FileAnalyzerInfo.name_analyzer p +:+ "'")
   else mret ());;
  for_each (register_analyzer_for_mime_type tag) (FileAnalyzerInfo.mime_types p);;
  match parser with
  | Some r => for_each (register_analyzer_for_mime_type tag) (parser_mime_types r)
  | None => mret ()
  end;;
  mret (FileAnalyzerInfo.set_parser parser p).

(** Body of the loop over [_packet_analyzers_by_type]. *)
Definition init_packet_analyzer (p : PacketAnalyzerInfo.t) : M PacketAnalyzerInfo.t :=
  if bool_decide (PacketAnalyzerInfo.type p = 0) then mret p else
  debug ("Registering packet analyzer " +:+ PacketAnalyzerInfo.name_analyzer p +:+ " with Zeek");;
  parser ← find_parser (PacketAnalyzerInfo.name_analyzer p) (PacketAnalyzerInfo.name_parser p);
  mret (PacketAnalyzerInfo.set_parser parser p).

(** [InitPostScript], from the start of the Spicy runtime on.  The steps
    before it (the host's own [InitPostScript], the toolchain driver, the
    dummy types of [_events], the runtime configuration) do not touch the
    descriptor tables. *)
Definition InitPostScript : M unit :=
  debug "Beginning post-script initialization";;
  debug "Initializing Spicy runtime";;
  match runtime_init E with
  | Some what => fatalError ("uncaught exception during initialization: " +:+ what)
  | None => mret ()
  end;;
  v ← gets (λ w, _protocol_analyzers_by_type (plugin w));
  v ← for_each_ref init_protocol_analyzer v;
  lift (with_plugin (set_protocol_analyzers v));;
  v ← gets (λ w, _file_analyzers_by_type (plugin w));
  v ← for_each_ref init_file_analyzer v;
  lift (with_plugin (set_file_analyzers v));;
  (if HAVE_PACKET_ANALYZERS E then
     v ← gets (λ w, _packet_analyzers_by_type (plugin w));
     v ← for_each_ref init_packet_analyzer v;
     lift (with_plugin (set_packet_analyzers v))
   else mret ());;
  debug "Done with post-script initialization".

(** ** Module loading and discovery *)

(** [loadModule].  [_libraries.insert] leaves an existing entry alone and
    reports whether it inserted.
    Modelled from the spec: [Library::open()] is not part of this
    repository; opening a valid module runs the module's initialisers, which
    call back into the registration functions for every analyzer the module
    provides ([Library_init]). *)
Definition loadModule (path : string) : M unit :=
  match canonical E path with
  | None => fatalError ("cannot canonicalize " +:+ path)
  | Some canonical_path =>
      libraries ← gets (λ w, _libraries (plugin w));
      match libraries !! canonical_path with
      | None =>
          lift (with_plugin (set_libraries
                  (<[canonical_path := {| lib_path := canonical_path; lib_open := false |}]>
                     libraries)));;
          debug ("Loading " +:+ canonical_path);;
          match Library_open E canonical_path with
          | None =>
              lift (phase1 E (Library_init E canonical_path));;
              lift (with_plugin (λ p, set_libraries
                      (<[canonical_path := {| lib_path := canonical_path; lib_open := true |}]>
                         (_libraries p)) p));;
              lift (with_opened canonical_path)
          | Some err =>
              fatalError ("could not open library path " +:+ canonical_path +:+ ": " +:+ err)
          end
      | Some _ =>
          debug ("Ignoring duplicate loading request for " +:+ canonical_path)
      end
  end.

(** [hilti::rt::split(paths, ":")]. *)
Fixpoint split (s : string) (delim : Ascii.ascii) : list string :=
  match s with
  | EmptyString => [EmptyString]
  | String c s' =>
      if decide (c = delim) then EmptyString :: split s' delim
      else match split s' delim with
           | piece :: pieces => String c piece :: pieces
           | [] => [String c EmptyString]
           end
  end.

(** [hilti::rt::trim]: white space removed at both ends. *)
Fixpoint ltrim (s : string) : string :=
  match s with
  | EmptyString => EmptyString
  | String c s' => if Ascii.is_space c then ltrim s' else s
  end.

Definition trim (s : string) : string := String.rev (ltrim (String.rev (ltrim s))).

(** Body of the loop of [searchModules] over the directories of the list. *)
Definition search_directory (dir : string) : M unit :=
  let trimmed_dir := trim dir in
  if bool_decide (trimmed_dir = "") then mret () else
  if negb (is_directory E trimmed_dir) then
    debug ("Module directory " +:+ trimmed_dir +:+ " does not exist, skipping")
  else
    debug ("Searching " +:+ trimmed_dir +:+ " for *.hlto");;
    for_each (λ e,
        if is_regular_file e && bool_decide (extension E (entry_path e) = ".hlto")
        then loadModule (entry_path e)
        else mret ())
      (recursive_directory_iterator E trimmed_dir).

(** [searchModules]; the delimiter is the colon, character 58. *)
Definition searchModules (paths : string) : M unit :=
  for_each search_directory (split paths (Ascii.ascii_of_nat 58)).

(** [autoDiscoverModules]. *)
Definition autoDiscoverModules : M unit :=
  match getenv E "SPICY_MODULE_PATH" with
  | Some search_paths =>
      if bool_decide (search_paths ≠ "")
      then (* this overrides all other paths *)
        searchModules search_paths
      else
        (searchModules (PluginModuleDirectory E);; searchModules (zeek_plugin_path E))
  | None =>
      (searchModules (PluginModuleDirectory E);; searchModules (zeek_plugin_path E))
  end.

End Runtime.

(** ** Concrete configurations used to run the model *)

Definition no_host : Host :=
  {| analyzer_mgr := []; file_mgr := []; packet_mgr := []; zeekygen_scripts := [];
     location := ""; registered_ports := []; event_queue := [] |}.

Definition initial_world (h : Host) : World :=
  {| plugin := empty_plugin; host := h; log := []; opened := [] |}.

(** A build for Zeek [version] with packet analyzers, the parsers [ps] and a
    file system without directories in which every path is canonical. *)
Definition plain_env (version : Z) (ps : list Parser) : Env :=
  {| ZEEK_VERSION_NUMBER := version; HAVE_PACKET_ANALYZERS := true;
     PluginModuleDirectory := "/usr/lib/zeek-spicy/modules";
     zeek_plugin_path := "/usr/lib/zeek/plugins";
     getenv := λ _, None; parsers := ps; runtime_init := None;
     canonical := λ p, Some p; is_directory := λ _, false;
     recursive_directory_iterator := λ _, []; extension := λ _, "";
     Library_open := λ _, None; Library_init := λ _, [] |}.

(** ** What a registration leaves in a descriptor table

    [stored d x t old new]: [new] has [t + 1] slots, [x] sits in slot [t],
    the slots below [t] that [old] had are unchanged and the slots below [t]
    that [old] did not have hold the value-initialised descriptor [d]. *)
Definition stored {A} (d x : A) (t : nat) (old new : list A) : Prop :=
  length new = t + 1 ∧
  new !! t = Some x ∧
  (∀ i, i < t → i < length old → new !! i = old !! i) ∧
  (∀ i, length old ≤ i → i < t → new !! i = Some d).

(** The types handed out to the registrations of each kind. *)
Definition protocol_types (rs : list Registration) : list Tag :=
  omap (λ r, match r with RegisterProtocol _ _ _ _ _ _ ty => Some ty | _ => None end) rs.

Definition file_types (rs : list Registration) : list Tag :=
  omap (λ r, match r with RegisterFile _ _ _ _ ty => Some ty | _ => None end) rs.

Definition packet_types (rs : list Registration) : list Tag :=
  omap (λ r, match r with RegisterPacket _ _ ty => Some ty | _ => None end) rs.

(** [in_order E rs w]: run from [w], every registration of [rs] is given a
    type that is not below the last slot of its table, as when the host
    hands out increasing types. *)
Definition table_allows (r : Registration) (w : World) : Prop :=
  match r with
  | RegisterProtocol _ _ _ _ _ _ ty =>
      length (_protocol_analyzers_by_type (plugin w)) ≤ ty + 1
  | RegisterFile _ _ _ _ ty =>
      length (_file_analyzers_by_type (plugin w)) ≤ ty + 1
  | RegisterPacket _ _ ty =>
      length (_packet_analyzers_by_type (plugin w)) ≤ ty + 1
  end.

Fixpoint in_order (E : Env) (rs : list Registration) (w : World) : Prop :=
  match rs with
  | [] => True
  | r :: rs' => table_allows r w ∧ in_order E rs' (register E r w)
  end.

(** The environment [E] with other defaults for the module search. *)
Definition with_defaults (E : Env) (module_directory plugin_path : string) : Env :=
  {| ZEEK_VERSION_NUMBER := ZEEK_VERSION_NUMBER E;
     HAVE_PACKET_ANALYZERS := HAVE_PACKET_ANALYZERS E;
     PluginModuleDirectory := module_directory;
     zeek_plugin_path := plugin_path;
     getenv := getenv E; parsers := parsers E; runtime_init := runtime_init E;
     canonical := canonical E; is_directory := is_directory E;
     recursive_directory_iterator := recursive_directory_iterator E;
     extension := extension E; Library_open := Library_open E;
     Library_init := Library_init E |}.

(** A host that has the built-in analyzer [OLD] with tag 1, as a protocol
    analyzer and as a file analyzer. *)
Definition host_with_OLD : Host :=
  set_file_mgr (new_component "OLD" 1) (set_analyzer_mgr (new_component "OLD" 1) no_host).

(** A file system in which [./a.hlto] and [/modules/a.hlto] are the same
    file of the directory [/modules], and [SPICY_MODULE_PATH] names it.  The
    module provides the protocol analyzer [FOO], which replaces [OLD]. *)
Definition modules_env : Env :=
  {| ZEEK_VERSION_NUMBER := 40100; HAVE_PACKET_ANALYZERS := true;
     PluginModuleDirectory := "/usr/lib/zeek-spicy/modules";
     zeek_plugin_path := "/usr/lib/zeek/plugins";
     getenv := λ v, if bool_decide (v = "SPICY_MODULE_PATH") then Some "/modules" else None;
     parsers := []; runtime_init := None;
     canonical := λ p, if bool_decide (p = "./a.hlto") then Some "/modules/a.hlto"
                       else if bool_decide (p = "/modules/a.hlto") then Some "/modules/a.hlto"
                       else None;
     is_directory := λ d, bool_decide (d = "/modules");
     recursive_directory_iterator := λ d,
       if bool_decide (d = "/modules")
       then [{| entry_path := "/modules/a.hlto"; is_regular_file := true |};
             {| entry_path := "/modules/README"; is_regular_file := true |}]
       else [];
     extension := λ p, if bool_decide (p = "/modules/README") then "" else ".hlto";
     Library_open := λ _, None;
     Library_init := λ p,
       if bool_decide (p = "/modules/a.hlto")
       then [RegisterProtocol "FOO" TCP [{| port := 443; protocol := TCP |}]
                              "" "foo::Parser" "OLD" 2]
       else [] |}.

(** ** What phase 2 establishes

    [resolved E n r]: [r] is the parser that the declared name [n] resolves
    to: none for the empty name, otherwise a parser of the runtime with
    exactly that name. *)
Definition resolved (E : Env) (n : string) (r : option Parser) : Prop :=
  if decide (n = "") then r = None
  else ∃ p, r = Some p ∧ parser_name p = n ∧ p ∈ parsers E.

(** What the three loop bodies of [InitPostScript] make of a descriptor: an
    unset one is left alone, a set one gets its parsers resolved. *)
Definition protocol_resolved (E : Env) (p p' : ProtocolAnalyzerInfo.t) : Prop :=
  (ProtocolAnalyzerInfo.type p = 0 ∧ p' = p) ∨
  (ProtocolAnalyzerInfo.type p ≠ 0 ∧
   ∃ po pr, p' = ProtocolAnalyzerInfo.set_parsers po pr p ∧
            resolved E (ProtocolAnalyzerInfo.name_parser_orig p) po ∧
            resolved E (ProtocolAnalyzerInfo.name_parser_resp p) pr).

Definition file_resolved (E : Env) (p p' : FileAnalyzerInfo.t) : Prop :=
  (FileAnalyzerInfo.type p = 0 ∧ p' = p) ∨
  (FileAnalyzerInfo.type p ≠ 0 ∧
   ∃ r, p' = FileAnalyzerInfo.set_parser r p ∧ resolved E (FileAnalyzerInfo.name_parser p) r).

Definition packet_resolved (E : Env) (p p' : PacketAnalyzerInfo.t) : Prop :=
  (PacketAnalyzerInfo.type p = 0 ∧ p' = p) ∨
  (PacketAnalyzerInfo.type p ≠ 0 ∧
   ∃ r, p' = PacketAnalyzerInfo.set_parser r p ∧
        resolved E (PacketAnalyzerInfo.name_parser p) r).

(** Computations without undefined behaviour. *)
Definition defined {A} (m : M A) : Prop := ∀ w, m w ≠ Undefined.

(** A declared name that no parser of the runtime has. *)
Definition unknown_parser (E : Env) (n : string) : Prop :=
  n ≠ "" ∧ ∀ q, q ∈ parsers E → parser_name q ≠ n.

(** No descriptor of the plugin has a resolved parser. *)
Definition unresolved (p : Plugin) : Prop :=
  Forall (λ a, ProtocolAnalyzerInfo.parser_orig a = None ∧
               ProtocolAnalyzerInfo.parser_resp a = None)
         (_protocol_analyzers_by_type p) ∧
  Forall (λ a, FileAnalyzerInfo.parser a = None) (_file_analyzers_by_type p) ∧
  Forall (λ a, PacketAnalyzerInfo.parser a = None) (_packet_analyzers_by_type p).

(** A runtime with the two parsers of the examples. *)
Definition foo_parser : Parser :=
  {| parser_name := "foo::Parser";
     parser_ports := [{| pp_port := {| port := 80; protocol := TCP |};
                         pp_direction := Responder |}];
     parser_mime_types := [] |}.

Definition bar_parser : Parser :=
  {| parser_name := "bar::Parser"; parser_ports := [];
     parser_mime_types := ["text/x-bar"] |}.

(** ** What a search considers

    [module_files E paths]: the files a search of the list [paths] hands to
    [loadModule]: the regular files with extension [.hlto] found under the
    trimmed, non-empty entries of the list that are directories. *)
Definition module_files (E : Env) (paths : string) : list string :=
  mjoin ((λ dir,
      let trimmed_dir := trim dir in
      if bool_decide (trimmed_dir = "") then []
      else if negb (is_directory E trimmed_dir) then []
      else entry_path <$>
             filter (λ e, is_regular_file e = true ∧ extension E (entry_path e) = ".hlto")
                    (recursive_directory_iterator E trimmed_dir))
    <$> split paths (Ascii.ascii_of_nat 58)).

(** [loaded_from E files w w']: every module opened in [w'] was already opened
    in [w] or is the canonical path of one of [files]. *)
Definition loaded_from (E : Env) (files : list string) (w w' : World) : Prop :=
  ∀ m, m ∈ opened w' → m ∈ opened w ∨ ∃ f, f ∈ files ∧ canonical E f = Some m.

(** ** Further entry points of the plugin *)

(** [tagForProtocolAnalyzer] and [tagForFileAnalyzer]: the tag of the
    analyzer that the one of [tag] replaces, if any, else [tag] itself; the
    slot is read unchecked. *)
Definition tagForProtocolAnalyzer (tag : Tag) : M Tag :=
  v ← gets (λ w, _protocol_analyzers_by_type (plugin w));
  info ← at_index v tag;
  if bool_decide (ProtocolAnalyzerInfo.replaces info ≠ 0)
  then mret (ProtocolAnalyzerInfo.replaces info)
  else mret tag.

Definition tagForFileAnalyzer (tag : Tag) : M Tag :=
  v ← gets (λ w, _file_analyzers_by_type (plugin w));
  info ← at_index v tag;
  if bool_decide (FileAnalyzerInfo.replaces info ≠ 0)
  then mret (FileAnalyzerInfo.replaces info)
  else mret tag.

(** [tagForPacketAnalyzer]: there is no replacement mechanism for packet
    analyzers. *)
Definition tagForPacketAnalyzer (tag : Tag) : M Tag := mret tag.

(** The enum type of a tag value, as the [toggleAnalyzer] for [EnumVal] pointers tells
    them apart: the tag type of [analyzer_mgr], of [file_mgr], of
    [packet_mgr], or another type. *)
Inductive EnumType := AnalyzerTagType | FileTagType | PacketTagType | OtherEnumType.

Global Instance EnumType_eq_dec : EqDecision EnumType.
Proof. solve_decision. Defined.

(** A [::zeek::EnumVal]: its type and its value; a manager's [Lookup] on it
    finds the component whose tag has this value. *)
Record EnumVal := { GetType : EnumType; enum_value : nat }.

(** [toggleAnalyzer] for a [::zeek::EnumVal] pointer.  In each branch the component
    found is handed, by its tag, to the overload for that component's tag
    class; the third branch looks the value up in [file_mgr], as the second
    one does. *)
Definition toggleAnalyzer (E : Env) (tag : EnumVal) (enable : bool) : M bool :=
  if bool_decide (GetType tag = AnalyzerTagType) then
    analyzer ← gets (λ w, Lookup_tag (enum_value tag) (analyzer_mgr (host w)));
    match analyzer with
    | Some analyzer => toggleAnalyzer_protocol (c_tag analyzer) enable
    | None => mret false
    end
  else if bool_decide (GetType tag = FileTagType) then
    analyzer ← gets (λ w, Lookup_tag (enum_value tag) (file_mgr (host w)));
    match analyzer with
    | Some analyzer => toggleAnalyzer_file E (c_tag analyzer) enable
    | None => mret false
    end
  else if HAVE_PACKET_ANALYZERS E && bool_decide (GetType tag = PacketTagType) then
    analyzer ← gets (λ w, Lookup_tag (enum_value tag) (file_mgr (host w)));
    match analyzer with
    | Some analyzer => toggleAnalyzer_file E (c_tag analyzer) enable
    | None => mret false
    end
  else mret false.

(** [HookLoadFile].  [driver] is the hook of the toolchain driver in a build
    with [SPICY_HAVE_TOOLCHAIN] (the driver is not part of [plugin.cc]) and
    [None] in a build without.  The variable [rc] is initialised with the
    result of the comparison [>= 0], so it is 1 when it is returned. *)
Definition HookLoadFile (E : Env) (driver : option (M Z)) (file : string) : M Z :=
  handled ← match driver with
            | Some hook => r ← hook; mret (bool_decide (0 ≤ r)%Z)
            | None => mret false
            end;
  if (handled : bool) then mret 1%Z else
  let ext := extension E file in
  if bool_decide (ext = ".hlto") then
    loadModule E file;;
    mret 1%Z
  else
    (if bool_decide (ext = ".spicy" ∨ ext = ".evt" ∨ ext = ".hlt")
     then fatalError ("cannot load '" +:+ file
                        +:+ "', Spicy plugin was not compiled with JIT support")
     else mret ());;
    mret (-1)%Z.

(** ** Invariants and relations used by the further properties *)

(** [indexed_by_type p]: in each table a slot is unset or holds a descriptor
    whose [type] is the index of the slot. *)
Definition indexed_by_type (p : Plugin) : Prop :=
  (∀ i a, _protocol_analyzers_by_type p !! i = Some a →
          ProtocolAnalyzerInfo.type a = 0 ∨ ProtocolAnalyzerInfo.type a = i) ∧
  (∀ i a, _file_analyzers_by_type p !! i = Some a →
          FileAnalyzerInfo.type a = 0 ∨ FileAnalyzerInfo.type a = i) ∧
  (∀ i a, _packet_analyzers_by_type p !! i = Some a →
          PacketAnalyzerInfo.type a = 0 ∨ PacketAnalyzerInfo.type a = i).

(** [add_bindings ps es h]: the host [h] after the port registrations [ps]
    and the events [es], everything else as in [h]. *)
Definition add_bindings (ps : list (Tag * TransportProto * nat))
    (es : list (string * Tag * string)) (h : Host) : Host :=
  {| analyzer_mgr := analyzer_mgr h; file_mgr := file_mgr h; packet_mgr := packet_mgr h;
     zeekygen_scripts := zeekygen_scripts h; location := location h;
     registered_ports := registered_ports h ++ ps; event_queue := event_queue h ++ es |}.

(** [bound ps es w w']: from [w] to [w'] nothing changed but the log, the
    port registrations [ps] and the events [es] handed to the host. *)
Definition bound (ps : list (Tag * TransportProto * nat))
    (es : list (string * Tag * string)) (w w' : World) : Prop :=
  plugin w' = plugin w ∧ opened w' = opened w ∧ host w' = add_bindings ps es (host w).

(** The parser a declared name stands for: none for the empty name, else the
    first parser of the runtime with that name, if there is one. *)
Definition lookup_parser (E : Env) (n : string) : option Parser :=
  if decide (n = "") then None
  else List.find (λ p, bool_decide (parser_name p = n)) (parsers E).

Definition known_parser (E : Env) (n : string) : Prop :=
  n = "" ∨ is_Some (lookup_parser E n).

(** Ports the host can take, and the host's protocol for them. *)
Definition supported (p : Port) : Prop := protocol p ≠ Undef.

Definition TransportProto_of (p : Protocol) : TransportProto :=
  match p with
  | TCP => TRANSPORT_TCP
  | UDP => TRANSPORT_UDP
  | ICMP => TRANSPORT_ICMP
  | Undef => TRANSPORT_UNKNOWN
  end.

Definition port_binding (tag : Tag) (p : Port) : Tag * TransportProto * nat :=
  (tag, TransportProto_of (protocol p), port p).

Definition mime_binding (tag : Tag) (mt : string) : string * Tag * string :=
  ("spicy_analyzer_for_mime_type", tag, mt).

(** The ports of a responder-side parser that count: those of direction
    [Both] or [Responder]. *)
Definition responder_ports (r : option Parser) : list Port :=
  match r with
  | Some q => pp_port <$> filter (λ pp, pp_direction pp = Both ∨ pp_direction pp = Responder)
                                 (parser_ports q)
  | None => []
  end.

Definition parser_mimes (r : option Parser) : list string :=
  match r with
  | Some q => parser_mime_types q
  | None => []
  end.

(** The ports of a protocol descriptor and the MIME types of a file
    descriptor that phase 2 is to bind: the declared ones followed by those
    of the parser; none for an unset descriptor. *)
Definition protocol_ports (E : Env) (p : ProtocolAnalyzerInfo.t) : list Port :=
  if decide (ProtocolAnalyzerInfo.type p = 0) then []
  else ProtocolAnalyzerInfo.ports p
         ++ responder_ports (lookup_parser E (ProtocolAnalyzerInfo.name_parser_resp p)).

Definition file_mimes (E : Env) (p : FileAnalyzerInfo.t) : list string :=
  if decide (FileAnalyzerInfo.type p = 0) then []
  else FileAnalyzerInfo.mime_types p
         ++ parser_mimes (lookup_parser E (FileAnalyzerInfo.name_parser p)).

Definition protocol_bindings (E : Env) (cs : list Component) (p : ProtocolAnalyzerInfo.t) :
    list (Tag * TransportProto * nat) :=
  port_binding (GetComponentTag (ProtocolAnalyzerInfo.name_analyzer p) cs) <$> protocol_ports E p.

Definition file_bindings (E : Env) (cs : list Component) (p : FileAnalyzerInfo.t) :
    list (string * Tag * string) :=
  mime_binding (GetComponentTag (FileAnalyzerInfo.name_analyzer p) cs) <$> file_mimes E p.

(** The descriptors phase 2 leaves in the tables. *)
Definition protocol_initialized (E : Env) (p : ProtocolAnalyzerInfo.t) : ProtocolAnalyzerInfo.t :=
  if decide (ProtocolAnalyzerInfo.type p = 0) then p
  else ProtocolAnalyzerInfo.set_parsers
         (lookup_parser E (ProtocolAnalyzerInfo.name_parser_orig p))
         (lookup_parser E (ProtocolAnalyzerInfo.name_parser_resp p)) p.

Definition file_initialized (E : Env) (p : FileAnalyzerInfo.t) : FileAnalyzerInfo.t :=
  if decide (FileAnalyzerInfo.type p = 0) then p
  else FileAnalyzerInfo.set_parser (lookup_parser E (FileAnalyzerInfo.name_parser p)) p.

Definition packet_initialized (E : Env) (p : PacketAnalyzerInfo.t) : PacketAnalyzerInfo.t :=
  if decide (PacketAnalyzerInfo.type p = 0) then p
  else PacketAnalyzerInfo.set_parser (lookup_parser E (PacketAnalyzerInfo.name_parser p)) p.

(** What phase 2 needs of a descriptor to get past it: an unset descriptor
    needs nothing; a set one needs its parser names known, for a protocol or
    file analyzer a tag of the host for its name, and for a protocol
    analyzer a supported protocol in every port to bind. *)
Definition protocol_ready (E : Env) (cs : list Component) (p : ProtocolAnalyzerInfo.t) : Prop :=
  ProtocolAnalyzerInfo.type p = 0 ∨
  (known_parser E (ProtocolAnalyzerInfo.name_parser_orig p) ∧
   known_parser E (ProtocolAnalyzerInfo.name_parser_resp p) ∧
   GetComponentTag (ProtocolAnalyzerInfo.name_analyzer p) cs ≠ 0 ∧
   Forall supported (protocol_ports E p)).

Definition file_ready (E : Env) (cs : list Component) (p : FileAnalyzerInfo.t) : Prop :=
  FileAnalyzerInfo.type p = 0 ∨
  (known_parser E (FileAnalyzerInfo.name_parser p) ∧
   GetComponentTag (FileAnalyzerInfo.name_analyzer p) cs ≠ 0).

Definition packet_ready (E : Env) (p : PacketAnalyzerInfo.t) : Prop :=
  PacketAnalyzerInfo.type p = 0 ∨ known_parser E (PacketAnalyzerInfo.name_parser p).

Definition phase2_ready (E : Env) (w : World) : Prop :=
  runtime_init E = None ∧
  Forall (protocol_ready E (analyzer_mgr (host w))) (_protocol_analyzers_by_type (plugin w)) ∧
  Forall (file_ready E (file_mgr (host w))) (_file_analyzers_by_type (plugin w)) ∧
  (HAVE_PACKET_ANALYZERS E = true →
   Forall (packet_ready E) (_packet_analyzers_by_type (plugin w))).

(** [registry_ok w]: no module was opened twice, and every opened module has
    an open entry in the registry. *)
Definition registry_ok (w : World) : Prop :=
  NoDup (opened w) ∧
  ∀ m, m ∈ opened w → _libraries (plugin w) !! m = Some {| lib_path := m; lib_open := true |}.

(** [same_analyzers w w']: the worlds [w] and [w'] have the same descriptor
    tables, the same recorded locations and the same host. *)
Definition same_analyzers (w w' : World) : Prop :=
  _protocol_analyzers_by_type (plugin w') = _protocol_analyzers_by_type (plugin w) ∧
  _file_analyzers_by_type (plugin w') = _file_analyzers_by_type (plugin w) ∧
  _packet_analyzers_by_type (plugin w') = _packet_analyzers_by_type (plugin w) ∧
  _locations (plugin w') = _locations (plugin w) ∧
  host w' = host w.

(** [only_modules E w w']: from [w] to [w'] the registry kept its keys, the
    list of opened modules was extended by some modules [ms], and the
    descriptor tables, the recorded locations and the host are what the
    initialisers of [ms], run in this order from [w], leave. *)
Definition only_modules (E : Env) (w w' : World) : Prop :=
  (∀ m, is_Some (_libraries (plugin w) !! m) → is_Some (_libraries (plugin w') !! m)) ∧
  ∃ ms, opened w' = opened w ++ ms ∧
        same_analyzers (phase1 E (mjoin (Library_init E <$> ms)) w) w'.


(** What [toggleAnalyzer(tag, enable)] makes of the components of a manager,
    for a descriptor that records the replaced tag [r] (0 for none). *)
Definition toggled (tag r : nat) (enable : bool) (cs : list Component) : list Component :=
  if bool_decide (r ≠ 0)
  then SetEnabled r (negb enable) (SetEnabled tag enable cs)
  else SetEnabled tag enable cs.

(** * Properties *)

(** ** Vectors: [v.resize(t + 1); v[t] = x] *)

Section Vector.

Context {A : Type} (d x : A) (t : nat) (v : list A).

Lemma resize_store_length : length (<[t := x]> (resize (t + 1) d v)) = t + 1.
Proof. by rewrite length_insert, length_resize. Qed.

Lemma resize_store_eq : <[t := x]> (resize (t + 1) d v) !! t = Some x.
Proof. apply list_lookup_insert_eq. rewrite length_resize. lia. Qed.

Lemma resize_store_below i :
  i < t → i < length v → <[t := x]> (resize (t + 1) d v) !! i = v !! i.
Proof.
  intros Hit Hiv. rewrite list_lookup_insert_ne by lia.
  apply lookup_resize; lia.
Qed.

Lemma resize_store_fresh i :
  length v ≤ i → i < t → <[t := x]> (resize (t + 1) d v) !! i = Some d.
Proof.
  intros Hvi Hit. rewrite list_lookup_insert_ne by lia.
  apply lookup_resize_new; lia.
Qed.

Lemma resize_store_above i : t < i → <[t := x]> (resize (t + 1) d v) !! i = None.
Proof.
  intros Hti. apply lookup_ge_None. rewrite resize_store_length. lia.
Qed.

Lemma resize_store_stored : stored d x t v (<[t := x]> (resize (t + 1) d v)).
Proof.
  repeat split.
  - apply resize_store_length.
  - apply resize_store_eq.
  - apply resize_store_below.
  - apply resize_store_fresh.
Qed.

Lemma resize_store_other i :
  length v ≤ t + 1 → i ≠ t → i < length v →
  <[t := x]> (resize (t + 1) d v) !! i = v !! i.
Proof. intros Hlen Hne Hi. apply resize_store_below; lia. Qed.

End Vector.

(** ** Phase 1 *)

Section Phase1.

Variable E : Env.

(** The table a registration leaves, up to the [replaces] tag it recorded. *)
Lemma registerProtocolAnalyzer_table name proto ports po pr replaces ty w :
  proto = TCP ∨ proto = UDP →
  ∃ r, _protocol_analyzers_by_type
         (plugin (registerProtocolAnalyzer name proto ports po pr replaces ty w))
       = <[ty := ProtocolAnalyzerInfo.Build name po pr replaces ("<Spicy-" +:+ name +:+ ">")
                   proto ports ty r None None]>
           (resize (ty + 1) ProtocolAnalyzerInfo.default
                   (_protocol_analyzers_by_type (plugin w))).
Proof.
  intros Hproto. unfold registerProtocolAnalyzer.
  repeat case_bool_decide; destruct Hproto as [-> | ->]; simpl; eauto.
Qed.

Lemma registerFileAnalyzer_table name mts parser replaces ty w :
  ∃ r, _file_analyzers_by_type (plugin (registerFileAnalyzer E name mts parser replaces ty w))
       = <[ty := FileAnalyzerInfo.Build name parser replaces ("<Spicy-" +:+ name +:+ ">")
                   mts ty r None]>
           (resize (ty + 1) FileAnalyzerInfo.default (_file_analyzers_by_type (plugin w))).
Proof.
  unfold registerFileAnalyzer.
  repeat case_bool_decide; try destruct (Lookup_name _ _); simpl; eauto.
Qed.

Lemma registerPacketAnalyzer_table name parser ty w :
  _packet_analyzers_by_type (plugin (registerPacketAnalyzer name parser ty w))
  = <[ty := PacketAnalyzerInfo.Build name parser ("<Spicy-" +:+ name +:+ ">") ty None]>
      (resize (ty + 1) PacketAnalyzerInfo.default (_packet_analyzers_by_type (plugin w))).
Proof. reflexivity. Qed.

(** The same with the [replaces] tag spelled out. *)
Lemma length_zero_empty (s : string) : String.length s ≠ 0 ↔ s ≠ "".
Proof. destruct s; simpl; split; intros H; first [done|lia|congruence]. Qed.

Lemma registerProtocolAnalyzer_stores name proto ports po pr replaces ty w :
  proto = TCP ∨ proto = UDP →
  _protocol_analyzers_by_type
    (plugin (registerProtocolAnalyzer name proto ports po pr replaces ty w))
  = <[ty := ProtocolAnalyzerInfo.Build name po pr replaces ("<Spicy-" +:+ name +:+ ">")
              proto ports ty
              (if bool_decide (replaces ≠ "")
               then GetComponentTag replaces (analyzer_mgr (host w)) else 0)
              None None]>
      (resize (ty + 1) ProtocolAnalyzerInfo.default (_protocol_analyzers_by_type (plugin w))).
Proof.
  intros Hproto. unfold registerProtocolAnalyzer.
  rewrite (bool_decide_ext _ _ (length_zero_empty replaces)).
  change (host (ZEEK_DEBUG _ w)) with (host w).
  destruct (bool_decide (replaces ≠ "")).
  - destruct (bool_decide (GetComponentTag replaces (analyzer_mgr (host w)) ≠ 0)) eqn:Htag;
      destruct Hproto as [-> | ->]; cbn; try done.
    all: apply bool_decide_eq_false in Htag; apply dec_stable in Htag; by rewrite Htag.
  - by destruct Hproto as [-> | ->].
Qed.

Lemma registerFileAnalyzer_stores name mts parser replaces ty w :
  _file_analyzers_by_type (plugin (registerFileAnalyzer E name mts parser replaces ty w))
  = <[ty := FileAnalyzerInfo.Build name parser replaces ("<Spicy-" +:+ name +:+ ">") mts ty
              (if bool_decide ((40100 ≤ ZEEK_VERSION_NUMBER E)%Z ∧ replaces ≠ "")
               then GetComponentTag replaces (file_mgr (host w)) else 0)
              None]>
      (resize (ty + 1) FileAnalyzerInfo.default (_file_analyzers_by_type (plugin w))).
Proof.
  unfold registerFileAnalyzer, GetComponentTag.
  rewrite (bool_decide_ext _ _ (length_zero_empty replaces)).
  change (host (ZEEK_DEBUG _ w)) with (host w).
  destruct (bool_decide (40100 ≤ ZEEK_VERSION_NUMBER E)%Z) eqn:Hv.
  - apply bool_decide_eq_true in Hv.
    destruct (bool_decide (replaces ≠ "")) eqn:Hr.
    + apply bool_decide_eq_true in Hr. rewrite bool_decide_eq_true_2 by done.
      by destruct (Lookup_name replaces (file_mgr (host w))).
    + apply bool_decide_eq_false in Hr. by rewrite bool_decide_eq_false_2 by tauto.
  - apply bool_decide_eq_false in Hv. by rewrite bool_decide_eq_false_2 by tauto.
Qed.

End Phase1.

(** ** Sequences of registrations with increasing types *)

Section InOrder.

Variable E : Env.

(** One registration in order keeps every descriptor it does not overwrite. *)
Lemma register_in_order_preserves r w :
  table_allows r w →
  (∀ i d, _protocol_analyzers_by_type (plugin w) !! i = Some d → i ∉ protocol_types [r] →
          _protocol_analyzers_by_type (plugin (register E r w)) !! i = Some d) ∧
  (∀ i d, _file_analyzers_by_type (plugin w) !! i = Some d → i ∉ file_types [r] →
          _file_analyzers_by_type (plugin (register E r w)) !! i = Some d) ∧
  (∀ i d, _packet_analyzers_by_type (plugin w) !! i = Some d → i ∉ packet_types [r] →
          _packet_analyzers_by_type (plugin (register E r w)) !! i = Some d).
Proof.
  unfold protocol_types, file_types, packet_types.
  destruct r as [name proto ports po pr replaces ty|name mts parser replaces ty|name parser ty];
    cbn [register table_allows omap list_omap]; intros Hlen.
  - split_and!; intros i d Hi Hne.
    + apply not_elem_of_cons in Hne as [Hne _].
      destruct (decide (proto = TCP ∨ proto = UDP)) as [Hproto|Hproto].
      * destruct (registerProtocolAnalyzer_table name proto ports po pr replaces ty w Hproto)
          as [r ->].
        rewrite resize_store_other; [done|done|done|by eapply lookup_lt_Some].
      * unfold registerProtocolAnalyzer.
        destruct proto; try (destruct Hproto; by auto);
          by repeat case_bool_decide.
    + unfold registerProtocolAnalyzer. destruct proto; by repeat case_bool_decide.
    + unfold registerProtocolAnalyzer. destruct proto; by repeat case_bool_decide.
  - split_and!; intros i d Hi Hne.
    + unfold registerFileAnalyzer.
      by repeat case_bool_decide; try destruct (Lookup_name _ _).
    + apply not_elem_of_cons in Hne as [Hne _].
      destruct (registerFileAnalyzer_table E name mts parser replaces ty w) as [r ->].
      rewrite resize_store_other; [done|done|done|by eapply lookup_lt_Some].
    + unfold registerFileAnalyzer.
      by repeat case_bool_decide; try destruct (Lookup_name _ _).
  - split_and!; intros i d Hi Hne; [done|done|].
    apply not_elem_of_cons in Hne as [Hne _].
    rewrite registerPacketAnalyzer_table.
    rewrite resize_store_other; [done|done|done|by eapply lookup_lt_Some].
Qed.

(** For every sequence of registrations in order, a descriptor that is in a
    table before the sequence is still there after it, unless a registration
    of the sequence was given the same type. *)
Lemma phase1_in_order_preserves rs w :
  in_order E rs w →
  (∀ i d, _protocol_analyzers_by_type (plugin w) !! i = Some d → i ∉ protocol_types rs →
          _protocol_analyzers_by_type (plugin (phase1 E rs w)) !! i = Some d) ∧
  (∀ i d, _file_analyzers_by_type (plugin w) !! i = Some d → i ∉ file_types rs →
          _file_analyzers_by_type (plugin (phase1 E rs w)) !! i = Some d) ∧
  (∀ i d, _packet_analyzers_by_type (plugin w) !! i = Some d → i ∉ packet_types rs →
          _packet_analyzers_by_type (plugin (phase1 E rs w)) !! i = Some d).
Proof.
  unfold phase1. revert w. induction rs as [|r rs IH]; intros w; [done|].
  cbn [foldl in_order]. intros [Hr Hrs].
  destruct (register_in_order_preserves r w Hr) as (Hp & Hf & Hk).
  destruct (IH _ Hrs) as (IHp & IHf & IHk).
  assert (∀ (f : Registration → option nat) i,
            i ∉ omap f (r :: rs) → (i ∉ omap f [r]) ∧ (i ∉ omap f rs)) as Hsplit.
  { intros f i Hi. simpl in *. destruct (f r); [|by split; [apply not_elem_of_nil|]].
    apply not_elem_of_cons in Hi as [? ?].
    split; [|done]. apply not_elem_of_cons. split; [done|apply not_elem_of_nil]. }
  unfold protocol_types, file_types, packet_types in *.
  split_and!; intros i d Hi Hne; apply Hsplit in Hne as [Hne1 Hne2]; eauto.
Qed.

End InOrder.

(** ** C1: what a registration does to its table *)

(** C1, the claim as stated, fails: a registration does not leave every
    descriptor stored at another index unchanged.  [resize] also shrinks:
    after a file analyzer was given type 5, registering one that is given
    type 3 cuts the table down to four slots and the descriptor at index 5
    is gone. *)
Lemma C1_other_indices_not_preserved :
  ¬ (∀ (name : string) (mts : list string) (parser replaces : string) (ty : Tag)
       (w : World) (i : nat),
       i ≠ ty → i < length (_file_analyzers_by_type (plugin w)) →
       _file_analyzers_by_type
         (plugin (registerFileAnalyzer (plain_env 40100 []) name mts parser replaces ty w)) !! i
       = _file_analyzers_by_type (plugin w) !! i).
Proof.
  intros H.
  specialize (H "B" [] "b::Parser" "" 3
                (registerFileAnalyzer (plain_env 40100 []) "A" [] "a::Parser" "" 5
                                      (initial_world no_host)) 5).
  vm_compute in H. discriminate H; lia.
Qed.

(** C1 (amended): after a registration that was given type [ty], the table has
    exactly [ty + 1] slots, the descriptor of the registration is in slot
    [ty]: the names, ports or MIME types that were passed, [type = ty], the
    tag of the replaced analyzer (empty when there is none) and no parser
    yet; every slot below [ty] that existed is unchanged, every slot below
    [ty] that did not exist holds the value-initialised descriptor, whose
    [type] is 0; and when the table had at most [ty + 1] slots (types handed
    out in increasing order) every other slot that existed is unchanged.  For
    a protocol analyzer this is for the protocols TCP and UDP.  For every
    sequence of registrations that are given types in this order, a
    descriptor that is in a table before the sequence is still in its slot
    after it, unless the sequence gave out its type again. *)
Theorem C1_registration_stores_descriptor
    (E : Env) (w : World) (ty : Tag) (name : string)
    (proto : Protocol) (ports : list Port) (parser_orig parser_resp replaces : string)
    (mts : list string) (parser : string) (rs : list Registration) :
  proto = TCP ∨ proto = UDP →
  (let old := _protocol_analyzers_by_type (plugin w) in
   let new := _protocol_analyzers_by_type
                (plugin (registerProtocolAnalyzer name proto ports parser_orig parser_resp
                                                  replaces ty w)) in
   let info := ProtocolAnalyzerInfo.Build name parser_orig parser_resp replaces
                 ("<Spicy-" +:+ name +:+ ">") proto ports ty
                 (if bool_decide (replaces ≠ "")
                  then GetComponentTag replaces (analyzer_mgr (host w)) else 0)
                 None None in
   stored ProtocolAnalyzerInfo.default info ty old new ∧
   (length old ≤ ty + 1 → ∀ i, i ≠ ty → i < length old → new !! i = old !! i)) ∧
  (let old := _file_analyzers_by_type (plugin w) in
   let new := _file_analyzers_by_type
                (plugin (registerFileAnalyzer E name mts parser replaces ty w)) in
   let info := FileAnalyzerInfo.Build name parser replaces ("<Spicy-" +:+ name +:+ ">")
                 mts ty
                 (if bool_decide ((40100 ≤ ZEEK_VERSION_NUMBER E)%Z ∧ replaces ≠ "")
                  then GetComponentTag replaces (file_mgr (host w)) else 0)
                 None in
   stored FileAnalyzerInfo.default info ty old new ∧
   (length old ≤ ty + 1 → ∀ i, i ≠ ty → i < length old → new !! i = old !! i)) ∧
  (let old := _packet_analyzers_by_type (plugin w) in
   let new := _packet_analyzers_by_type (plugin (registerPacketAnalyzer name parser ty w)) in
   let info := PacketAnalyzerInfo.Build name parser ("<Spicy-" +:+ name +:+ ">") ty None in
   stored PacketAnalyzerInfo.default info ty old new ∧
   (length old ≤ ty + 1 → ∀ i, i ≠ ty → i < length old → new !! i = old !! i)) ∧
  (ProtocolAnalyzerInfo.type ProtocolAnalyzerInfo.default = 0 ∧
   FileAnalyzerInfo.type FileAnalyzerInfo.default = 0 ∧
   PacketAnalyzerInfo.type PacketAnalyzerInfo.default = 0) ∧
  (in_order E rs w →
   (∀ i d, _protocol_analyzers_by_type (plugin w) !! i = Some d → i ∉ protocol_types rs →
           _protocol_analyzers_by_type (plugin (phase1 E rs w)) !! i = Some d) ∧
   (∀ i d, _file_analyzers_by_type (plugin w) !! i = Some d → i ∉ file_types rs →
           _file_analyzers_by_type (plugin (phase1 E rs w)) !! i = Some d) ∧
   (∀ i d, _packet_analyzers_by_type (plugin w) !! i = Some d → i ∉ packet_types rs →
           _packet_analyzers_by_type (plugin (phase1 E rs w)) !! i = Some d)).
Proof.
  intros Hproto. split; [|split; [|split; [|split]]]; cbv zeta;
    [| | | |apply phase1_in_order_preserves].
  - rewrite (registerProtocolAnalyzer_stores name proto ports parser_orig parser_resp
               replaces ty w Hproto).
    split; [apply resize_store_stored|]. intros. by apply resize_store_other.
  - rewrite (registerFileAnalyzer_stores E name mts parser replaces ty w).
    split; [apply resize_store_stored|]. intros. by apply resize_store_other.
  - rewrite registerPacketAnalyzer_table.
    split; [apply resize_store_stored|]. intros. by apply resize_store_other.
  - done.
Qed.

Lemma C1_registration_stores_descriptor_witness :
  let E := plain_env 40100 [] in
  let w := registerFileAnalyzer E "A" [] "a::Parser" "" 1 (initial_world host_with_OLD) in
  let new := _file_analyzers_by_type
               (plugin (registerFileAnalyzer E "B" ["text/plain"] "b::Parser" "OLD" 3 w)) in
  let rs := [RegisterFile "B" ["text/plain"] "b::Parser" "OLD" 3;
             RegisterProtocol "C" TCP [] "c::Parser" "" "" 2;
             RegisterFile "D" [] "d::Parser" "" 4] in
  length new = 4 ∧
  new !! 3 = Some (FileAnalyzerInfo.Build "B" "b::Parser" "OLD" "<Spicy-B>" ["text/plain"]
                     3 1 None) ∧
  new !! 1 = _file_analyzers_by_type (plugin w) !! 1 ∧
  new !! 2 = Some FileAnalyzerInfo.default ∧
  _file_analyzers_by_type (plugin (phase1 E rs w)) !! 1
    = Some (FileAnalyzerInfo.Build "A" "a::Parser" "" "<Spicy-A>" [] 1 0 None).
Proof.
  intros E w new rs.
  destruct (C1_registration_stores_descriptor E w 3 "B" TCP [] "" "" "OLD"
              ["text/plain"] "b::Parser" rs (or_introl eq_refl))
    as (_ & ((Hlen & Hstored & Hold & Hnew) & _) & _ & _ & Hrs).
  split_and!.
  - exact Hlen.
  - exact Hstored.
  - apply Hold; vm_compute; lia.
  - apply Hnew; vm_compute; lia.
  - destruct Hrs as (_ & Hfile & _).
    + repeat split; vm_compute; lia.
    + apply Hfile; [reflexivity|].
      intros Hin. repeat (apply elem_of_cons in Hin as [Hin|Hin]; [discriminate|]).
      by apply elem_of_nil in Hin.
Defined.

(** ** The host's component lists *)

Section HostComponents.

Implicit Types (cs : list Component) (tag : Tag) (b : bool).

Lemma Lookup_tag_Some tag cs c : Lookup_tag tag cs = Some c → c_tag c = tag.
Proof.
  unfold Lookup_tag. intros H. apply find_some in H as [_ H].
  by apply bool_decide_eq_true in H.
Qed.

Lemma Lookup_name_known n cs c :
  Lookup_name n cs = Some c → is_Some (Lookup_tag (c_tag c) cs).
Proof.
  unfold Lookup_name, Lookup_tag. induction cs as [|c' cs IH]; simpl; [done|].
  case_bool_decide as Hn.
  - intros [= ->]. by rewrite bool_decide_eq_true_2.
  - intros H. case_bool_decide; eauto.
Qed.

Lemma GetComponentTag_known n cs :
  GetComponentTag n cs ≠ 0 → is_Some (Lookup_tag (GetComponentTag n cs) cs).
Proof.
  unfold GetComponentTag. destruct (Lookup_name n cs) as [c|] eqn:Hc; [|done].
  intros _. by eapply Lookup_name_known.
Qed.

Lemma enabled_SetEnabled_eq tag b cs :
  is_Some (Lookup_tag tag cs) → enabled tag (SetEnabled tag b cs) = Some b.
Proof.
  unfold enabled, Lookup_tag. induction cs as [|c cs IH]; simpl.
  - by intros [? ?].
  - case_bool_decide as Hc; simpl.
    + intros _. by rewrite bool_decide_eq_true_2.
    + intros H. rewrite bool_decide_eq_false_2 by done. auto.
Qed.

Lemma enabled_SetEnabled_ne tag tag' b cs :
  tag ≠ tag' → enabled tag' (SetEnabled tag b cs) = enabled tag' cs.
Proof.
  intros Hne. unfold enabled, Lookup_tag. induction cs as [|c cs IH]; simpl; [done|].
  case_bool_decide as Hc; simpl.
  - rewrite !bool_decide_eq_false_2 by congruence. done.
  - case_bool_decide; [done|]. apply IH.
Qed.

Lemma Lookup_tag_SetEnabled tag tag' b cs :
  is_Some (Lookup_tag tag' (SetEnabled tag b cs)) ↔ is_Some (Lookup_tag tag' cs).
Proof.
  unfold Lookup_tag. induction cs as [|c cs IH]; simpl; [done|].
  case_bool_decide as Hc; simpl.
  - case_bool_decide; [|done]. split; eauto.
  - case_bool_decide; [|done]. split; eauto.
Qed.

Lemma enabled_new_component tag n ty cs :
  is_Some (Lookup_tag tag cs) → enabled tag (new_component n ty cs) = enabled tag cs.
Proof.
  unfold enabled, new_component, Lookup_tag. induction cs as [|c cs IH]; simpl.
  - by intros [? ?].
  - case_bool_decide; [done|]. apply IH.
Qed.

Lemma enabled_new_component_fresh n ty cs :
  Lookup_tag ty cs = None → enabled ty (new_component n ty cs) = Some true.
Proof.
  unfold enabled, new_component, Lookup_tag. induction cs as [|c cs IH]; simpl.
  - intros _. by rewrite bool_decide_eq_true_2.
  - case_bool_decide; [done|]. apply IH.
Qed.

(** Enabling or disabling neither adds nor removes a component. *)
Lemma SetEnabled_components tag b cs :
  (λ c, (c_name c, c_tag c)) <$> SetEnabled tag b cs = (λ c, (c_name c, c_tag c)) <$> cs.
Proof.
  induction cs as [|c cs IH]; simpl; [done|].
  case_bool_decide; simpl; [done|]. f_equal. apply IH.
Qed.

End HostComponents.

(** ** C6 and C7: the protocol switch and the [replaces] name *)

Section Replaces.

Variable E : Env.

Lemma length_nonempty (s : string) : s ≠ "" → String.length s ≠ 0.
Proof. by destruct s. Qed.

(** C6: a protocol analyzer whose protocol is neither TCP nor UDP is not
    registered: [reporter::error] is the last thing logged, the plugin state
    (all three tables) is unchanged, the host has the same components as
    before, and the registrations that follow run as usual. *)
Theorem C6_unsupported_protocol_skips_registration
    (name : string) (proto : Protocol) (ports : list Port)
    (parser_orig parser_resp replaces : string) (ty : Tag) (w : World)
    (rs : list Registration) :
  proto ≠ TCP → proto ≠ UDP →
  let w' := registerProtocolAnalyzer name proto ports parser_orig parser_resp replaces ty w in
  plugin w' = plugin w ∧
  (λ c, (c_name c, c_tag c)) <$> analyzer_mgr (host w')
    = (λ c, (c_name c, c_tag c)) <$> analyzer_mgr (host w) ∧
  file_mgr (host w') = file_mgr (host w) ∧
  packet_mgr (host w') = packet_mgr (host w) ∧
  last (log w') = Some (Error "unsupported protocol in analyzer") ∧
  phase1 E (RegisterProtocol name proto ports parser_orig parser_resp replaces ty :: rs) w
    = phase1 E rs w'.
Proof.
  intros Htcp Hudp w'. subst w'.
  split_and!; [..|reflexivity];
    unfold registerProtocolAnalyzer; destruct proto; try done;
    repeat case_bool_decide; simpl; rewrite ?last_snoc, ?SetEnabled_components; done.
Qed.

(** C7, the claim as stated, fails for a file analyzer on a host older than
    Zeek 4.1: the host knows [OLD], yet no replacement is recorded and [OLD]
    stays enabled. *)
Lemma C7_old_host_ignores_replaces :
  let w := initial_world host_with_OLD in
  let w' := registerFileAnalyzer (plain_env 40000 []) "FOO" [] "foo::Parser" "OLD" 2 w in
  is_Some (Lookup_name "OLD" (file_mgr (host w))) ∧
  FileAnalyzerInfo.replaces <$> _file_analyzers_by_type (plugin w') !! 2 = Some 0 ∧
  enabled 1 (file_mgr (host w')) = Some true.
Proof. vm_compute. eauto. Qed.

(** C7 (amended): registration with a non-empty [replaces] name.  For a
    protocol analyzer over TCP or UDP, and for a file analyzer when the build
    is for Zeek 4.1 or later: if the host knows an analyzer of that name, the
    stored descriptor records its tag, and the host's components are the old
    ones with that analyzer disabled, followed by the new component; if it
    does not, the stored descriptor has the empty tag, the host's components
    are the old ones followed by the new one, and the diagnostic is logged.
    A file analyzer built for an older Zeek ignores the name. *)
Theorem C7_replaces_at_registration
    (name : string) (proto : Protocol) (ports : list Port)
    (parser_orig parser_resp parser replaces : string) (mts : list string)
    (ty : Tag) (w : World) :
  replaces ≠ "" →
  proto = TCP ∨ proto = UDP →
  let diagnostic :=
    Debug (name +:+ " i supposed to replace " +:+ replaces +:+ ", but that does not exist") in
  (let w' := registerProtocolAnalyzer name proto ports parser_orig parser_resp replaces ty w in
   let tag := GetComponentTag replaces (analyzer_mgr (host w)) in
   _protocol_analyzers_by_type (plugin w') !! ty
     = Some (ProtocolAnalyzerInfo.Build name parser_orig parser_resp replaces
               ("<Spicy-" +:+ name +:+ ">") proto ports ty tag None None) ∧
   (tag ≠ 0 →
      analyzer_mgr (host w')
        = new_component name ty (SetEnabled tag false (analyzer_mgr (host w))) ∧
      enabled tag (SetEnabled tag false (analyzer_mgr (host w))) = Some false) ∧
   (tag = 0 →
      analyzer_mgr (host w') = new_component name ty (analyzer_mgr (host w)) ∧
      last (log w') = Some diagnostic)) ∧
  (let w' := registerFileAnalyzer E name mts parser replaces ty w in
   ((40100 ≤ ZEEK_VERSION_NUMBER E)%Z →
    match Lookup_name replaces (file_mgr (host w)) with
    | Some component =>
        _file_analyzers_by_type (plugin w') !! ty
          = Some (FileAnalyzerInfo.Build name parser replaces ("<Spicy-" +:+ name +:+ ">")
                    mts ty (c_tag component) None) ∧
        file_mgr (host w')
          = new_component name ty (SetEnabled (c_tag component) false (file_mgr (host w))) ∧
        enabled (c_tag component) (SetEnabled (c_tag component) false (file_mgr (host w)))
          = Some false
    | None =>
        _file_analyzers_by_type (plugin w') !! ty
          = Some (FileAnalyzerInfo.Build name parser replaces ("<Spicy-" +:+ name +:+ ">")
                    mts ty 0 None) ∧
        file_mgr (host w') = new_component name ty (file_mgr (host w)) ∧
        last (log w') = Some diagnostic
    end) ∧
   ((ZEEK_VERSION_NUMBER E < 40100)%Z →
    _file_analyzers_by_type (plugin w') !! ty
      = Some (FileAnalyzerInfo.Build name parser replaces ("<Spicy-" +:+ name +:+ ">")
                mts ty 0 None) ∧
    file_mgr (host w') = new_component name ty (file_mgr (host w)))).
Proof.
  intros Hrep%length_nonempty Hproto diagnostic. split.
  - cbv zeta. unfold registerProtocolAnalyzer.
    rewrite (bool_decide_eq_true_2 _ Hrep).
    change (host (ZEEK_DEBUG ("Have Spicy protocol analyzer " +:+ name) w)) with (host w).
    case_bool_decide as Htag.
    + destruct Hproto as [-> | ->]; simpl;
        (split; [apply resize_store_eq|split; [|done]]);
        intros _; (split; [done|]);
        apply enabled_SetEnabled_eq, GetComponentTag_known, Htag.
    + rewrite Htag.
      destruct Hproto as [-> | ->]; simpl;
        (split; [apply resize_store_eq|split; [done|]]);
        intros _; (split; [done|]); apply last_snoc.
  - cbv zeta. unfold registerFileAnalyzer. split.
    + intros Hver. rewrite (bool_decide_eq_true_2 _ Hver), (bool_decide_eq_true_2 _ Hrep).
      change (host (ZEEK_DEBUG ("Have Spicy file analyzer " +:+ name) w)) with (host w).
      destruct (Lookup_name replaces (file_mgr (host w))) as [c|] eqn:Hc; simpl.
      * split; [apply resize_store_eq|split; [done|]].
        eapply enabled_SetEnabled_eq, Lookup_name_known, Hc.
      * split; [apply resize_store_eq|split; [done|]]. apply last_snoc.
    + intros Hver. rewrite bool_decide_eq_false_2 by lia. simpl.
      split; [apply resize_store_eq|done].
Qed.

End Replaces.

Lemma C6_unsupported_protocol_skips_registration_witness :
  let w' := registerProtocolAnalyzer "PING" ICMP [] "ping::Packet" "" "OLD" 2
              (initial_world host_with_OLD) in
  plugin w' = plugin (initial_world host_with_OLD) ∧
  last (log w') = Some (Error "unsupported protocol in analyzer").
Proof.
  intros w'.
  destruct (C6_unsupported_protocol_skips_registration (plain_env 40100 []) "PING" ICMP [] "ping::Packet" "" "OLD" 2
              (initial_world host_with_OLD) [])
    as (Hplugin & _ & _ & _ & Hlog & _); [discriminate|discriminate|].
  split; [exact Hplugin|exact Hlog].
Defined.

Lemma C7_replaces_at_registration_witness :
  let w := initial_world host_with_OLD in
  let w' := registerProtocolAnalyzer "FOO" TCP [] "foo::Parser" "" "OLD" 2 w in
  _protocol_analyzers_by_type (plugin w') !! 2
    = Some (ProtocolAnalyzerInfo.Build "FOO" "foo::Parser" "" "OLD" "<Spicy-FOO>" TCP [] 2 1
                                       None None) ∧
  analyzer_mgr (host w')
    = [{| c_name := "OLD"; c_tag := 1; c_enabled := false |};
       {| c_name := "FOO"; c_tag := 2; c_enabled := true |}].
Proof.
  intros w w'.
  destruct (C7_replaces_at_registration (plain_env 40100 []) "FOO" TCP [] "foo::Parser" "" "" "OLD" [] 2 w)
    as ((Hinfo & Hknown & _) & _); [discriminate|by left|].
  split; [exact Hinfo|].
  apply Hknown. vm_compute. discriminate.
Defined.

(** ** The toggle controller *)

(** Runs the monad's operations. *)
Ltac run :=
  cbv [mbind M_bind mret M_ret gets lift debug at_index undefined internalError fatalError];
  cbv beta iota.

Section Toggle.

Variable E : Env.

Lemma toggleAnalyzer_protocol_out_of_range tag enable w :
  length (_protocol_analyzers_by_type (plugin w)) ≤ tag →
  toggleAnalyzer_protocol tag enable w = Done false w.
Proof.
  intros Hlen. unfold toggleAnalyzer_protocol. run.
  by rewrite bool_decide_eq_true_2.
Qed.

Lemma toggleAnalyzer_protocol_unset tag enable w :
  ProtocolAnalyzerInfo.type <$> _protocol_analyzers_by_type (plugin w) !! tag = Some 0 →
  toggleAnalyzer_protocol tag enable w = Done false w.
Proof.
  intros Hty. unfold toggleAnalyzer_protocol. run.
  case_bool_decide; [done|].
  destruct (_protocol_analyzers_by_type (plugin w) !! tag) as [a|]; [|done].
  injection Hty as Hty. by rewrite bool_decide_eq_true_2.
Qed.

Lemma toggleAnalyzer_file_out_of_range tag enable w :
  length (_file_analyzers_by_type (plugin w)) ≤ tag →
  toggleAnalyzer_file E tag enable w = Done false w.
Proof.
  intros Hlen. unfold toggleAnalyzer_file. run.
  by rewrite bool_decide_eq_true_2.
Qed.

Lemma toggleAnalyzer_file_unset tag enable w :
  FileAnalyzerInfo.type <$> _file_analyzers_by_type (plugin w) !! tag = Some 0 →
  toggleAnalyzer_file E tag enable w = Done false w.
Proof.
  intros Hty. unfold toggleAnalyzer_file. run.
  case_bool_decide; [done|].
  destruct (_file_analyzers_by_type (plugin w) !! tag) as [a|]; [|done].
  injection Hty as Hty. by rewrite bool_decide_eq_true_2.
Qed.

Lemma toggleAnalyzer_packet_out_of_range tag enable w :
  length (_packet_analyzers_by_type (plugin w)) ≤ tag →
  toggleAnalyzer_packet tag enable w = Done false w.
Proof.
  intros Hlen. unfold toggleAnalyzer_packet. run.
  by rewrite bool_decide_eq_true_2.
Qed.

(** Whatever it reads, the packet overload returns [false] and leaves the
    plugin tables and the host alone. *)
Lemma toggleAnalyzer_packet_Done tag enable w r w' :
  toggleAnalyzer_packet tag enable w = Done r w' →
  r = false ∧ plugin w' = plugin w ∧ host w' = host w.
Proof.
  unfold toggleAnalyzer_packet. run.
  case_bool_decide; [by intros [= <- <-]|].
  destruct (_protocol_analyzers_by_type (plugin w) !! tag) as [a|]; [|done].
  case_bool_decide; by intros [= <- <-].
Qed.

Lemma toggleAnalyzer_packet_not_Fatal tag enable w msg :
  toggleAnalyzer_packet tag enable w ≠ Fatal msg.
Proof.
  unfold toggleAnalyzer_packet. run.
  case_bool_decide; [done|].
  destruct (_protocol_analyzers_by_type (plugin w) !! tag) as [a|]; [|done].
  by case_bool_decide.
Qed.

(** X18: an unknown tag is not ours.  For the protocol and the file
    overload, a toggle request for a tag whose type is at or beyond the size
    of the descriptor table, or whose slot has [type = 0], returns [false]
    and leaves the world (host, tables and log) as it was; it is neither
    fatal nor undefined.  The packet overload does so when the type is at or
    beyond the size of its table, and it never returns [true], never changes
    the host and is never fatal. *)
Theorem X18_unknown_tag_is_not_ours (w : World) (tag : Tag) (enable : bool) :
  (length (_protocol_analyzers_by_type (plugin w)) ≤ tag ∨
   ProtocolAnalyzerInfo.type <$> _protocol_analyzers_by_type (plugin w) !! tag = Some 0 →
   toggleAnalyzer_protocol tag enable w = Done false w) ∧
  (length (_file_analyzers_by_type (plugin w)) ≤ tag ∨
   FileAnalyzerInfo.type <$> _file_analyzers_by_type (plugin w) !! tag = Some 0 →
   toggleAnalyzer_file E tag enable w = Done false w) ∧
  (length (_packet_analyzers_by_type (plugin w)) ≤ tag →
   toggleAnalyzer_packet tag enable w = Done false w) ∧
  (∀ r w', toggleAnalyzer_packet tag enable w = Done r w' →
           r = false ∧ plugin w' = plugin w ∧ host w' = host w) ∧
  (∀ msg, toggleAnalyzer_packet tag enable w ≠ Fatal msg).
Proof.
  split_and!.
  - intros [?|?]; auto using toggleAnalyzer_protocol_out_of_range,
                             toggleAnalyzer_protocol_unset.
  - intros [?|?]; auto using toggleAnalyzer_file_out_of_range, toggleAnalyzer_file_unset.
  - apply toggleAnalyzer_packet_out_of_range.
  - apply toggleAnalyzer_packet_Done.
  - apply toggleAnalyzer_packet_not_Fatal.
Qed.

End Toggle.

Lemma X18_unknown_tag_is_not_ours_witness :
  let E := plain_env 40100 [] in
  let w := phase1 E [RegisterProtocol "FOO" TCP [] "foo::Parser" "" "OLD" 3;
                     RegisterFile "BAR" [] "bar::Parser" "" 3]
                  (initial_world host_with_OLD) in
  toggleAnalyzer_protocol 7 true w = Done false w ∧
  toggleAnalyzer_protocol 1 false w = Done false w ∧
  toggleAnalyzer_file E 7 false w = Done false w ∧
  toggleAnalyzer_file E 2 true w = Done false w.
Proof.
  intros E w.
  split_and!.
  - apply (proj1 (X18_unknown_tag_is_not_ours E w 7 true)). left. vm_compute. lia.
  - apply (proj1 (X18_unknown_tag_is_not_ours E w 1 false)). right. reflexivity.
  - apply (proj1 (proj2 (X18_unknown_tag_is_not_ours E w 7 false))). left. vm_compute. lia.
  - apply (proj1 (proj2 (X18_unknown_tag_is_not_ours E w 2 true))). right. reflexivity.
Defined.

(** C3: the claim is for every tag.  For a packet tag it fails: with a
    packet analyzer of type 2 and no protocol analyzer, slot 1 of the packet
    table is unset, and the packet overload, which checks the bound of
    [_packet_analyzers_by_type] and then reads [_protocol_analyzers_by_type],
    reads the empty protocol table out of range instead of returning
    [false].  And with an empty packet table and a file analyzer of type 2,
    the entry point for enum values, which looks a value of the packet tag
    type up in the file manager, disables the file analyzer and returns
    [true] for the packet-typed value 2. *)
Theorem C3_unset_packet_slot_is_not_safe :
  let E := plain_env 40100 [] in
  let w0 := phase1 E [RegisterPacket "PKT" "pkt::Parser" 2] (initial_world no_host) in
  let w1 := phase1 E [RegisterFile "BAR" [] "bar::Parser" "" 2] (initial_world no_host) in
  (PacketAnalyzerInfo.type <$> _packet_analyzers_by_type (plugin w0) !! 1 = Some 0 ∧
   toggleAnalyzer_packet 1 true w0 = Undefined) ∧
  (_packet_analyzers_by_type (plugin w1) = [] ∧
   enabled 2 (file_mgr (host w1)) = Some true ∧
   ∃ w', toggleAnalyzer E {| GetType := PacketTagType; enum_value := 2 |} false w1
         = Done true w' ∧
         enabled 2 (file_mgr (host w')) = Some false).
Proof.
  cbv zeta. split; [by vm_compute|]. split; [reflexivity|]. split; [reflexivity|].
  eexists. split; [vm_compute; reflexivity|reflexivity].
Qed.

(** ** C4: toggling an analyzer that replaces another one *)

Section ToggleReplaced.

Variable E : Env.

(** One toggle of a protocol analyzer that replaces [r]. *)
Lemma toggleAnalyzer_protocol_replaced tag r enable a w :
  _protocol_analyzers_by_type (plugin w) !! tag = Some a →
  ProtocolAnalyzerInfo.type a ≠ 0 →
  ProtocolAnalyzerInfo.replaces a = r → r ≠ 0 → r ≠ tag →
  is_Some (Lookup_tag tag (analyzer_mgr (host w))) →
  is_Some (Lookup_tag r (analyzer_mgr (host w))) →
  ∃ w', toggleAnalyzer_protocol tag enable w = Done true w' ∧
        plugin w' = plugin w ∧
        is_Some (Lookup_tag tag (analyzer_mgr (host w'))) ∧
        is_Some (Lookup_tag r (analyzer_mgr (host w'))) ∧
        enabled tag (analyzer_mgr (host w')) = Some enable ∧
        enabled r (analyzer_mgr (host w')) = Some (negb enable).
Proof.
  intros Ha Hty Hr Hr0 Hne Htag Hrep.
  unfold toggleAnalyzer_protocol. run.
  rewrite bool_decide_eq_false_2 by (apply lookup_lt_Some in Ha; lia).
  rewrite Ha. rewrite bool_decide_eq_false_2 by done.
  rewrite Hr, (bool_decide_eq_true_2 _ Hr0).
  destruct enable; (eexists; split; [reflexivity|]); simpl;
    rewrite !Lookup_tag_SetEnabled;
    (split_and!; [done|done|done| |]).
  - rewrite enabled_SetEnabled_ne by done. by apply enabled_SetEnabled_eq.
  - apply enabled_SetEnabled_eq. by rewrite Lookup_tag_SetEnabled.
  - rewrite enabled_SetEnabled_ne by done. by apply enabled_SetEnabled_eq.
  - apply enabled_SetEnabled_eq. by rewrite Lookup_tag_SetEnabled.
Qed.

(** One toggle of a file analyzer that replaces [r], on Zeek 4.1 or later. *)
Lemma toggleAnalyzer_file_replaced tag r enable a w :
  (40100 ≤ ZEEK_VERSION_NUMBER E)%Z →
  _file_analyzers_by_type (plugin w) !! tag = Some a →
  FileAnalyzerInfo.type a ≠ 0 →
  FileAnalyzerInfo.replaces a = r → r ≠ 0 → r ≠ tag →
  is_Some (Lookup_tag tag (file_mgr (host w))) →
  is_Some (Lookup_tag r (file_mgr (host w))) →
  ∃ w', toggleAnalyzer_file E tag enable w = Done true w' ∧
        plugin w' = plugin w ∧
        is_Some (Lookup_tag tag (file_mgr (host w'))) ∧
        is_Some (Lookup_tag r (file_mgr (host w'))) ∧
        enabled tag (file_mgr (host w')) = Some enable ∧
        enabled r (file_mgr (host w')) = Some (negb enable).
Proof.
  intros Hver Ha Hty Hr Hr0 Hne [c Hc] [cr Hcr].
  unfold toggleAnalyzer_file. run.
  rewrite bool_decide_eq_false_2 by (apply lookup_lt_Some in Ha; lia).
  rewrite Ha. rewrite bool_decide_eq_false_2 by done.
  rewrite (bool_decide_eq_true_2 _ Hver).
  rewrite Hr, (bool_decide_eq_true_2 _ Hr0), Hc, Hcr.
  rewrite (Lookup_tag_Some _ _ _ Hc), (Lookup_tag_Some _ _ _ Hcr).
  destruct enable; (eexists; split; [reflexivity|]); simpl;
    rewrite !Lookup_tag_SetEnabled, Hc, Hcr;
    (split_and!; [done|done|done| |]).
  - rewrite enabled_SetEnabled_ne by done. apply enabled_SetEnabled_eq. by rewrite Hc.
  - apply enabled_SetEnabled_eq. by rewrite Lookup_tag_SetEnabled, Hcr.
  - rewrite enabled_SetEnabled_ne by done. apply enabled_SetEnabled_eq. by rewrite Hc.
  - apply enabled_SetEnabled_eq. by rewrite Lookup_tag_SetEnabled, Hcr.
Qed.

End ToggleReplaced.

(** C4, the claim as stated, fails in its round trip: right after the
    registration of [FOO], which replaces [OLD], [OLD] is disabled; enabling
    and then disabling [FOO] leaves [OLD] enabled, not in the state it had
    before the two calls. *)
Lemma C4_round_trip_changes_replaced_state :
  let w := registerProtocolAnalyzer "FOO" TCP [] "foo::Parser" "" "OLD" 2
             (initial_world host_with_OLD) in
  ∃ w1 w2,
    ProtocolAnalyzerInfo.replaces <$> _protocol_analyzers_by_type (plugin w) !! 2 = Some 1 ∧
    toggleAnalyzer_protocol 2 true w = Done true w1 ∧
    toggleAnalyzer_protocol 2 false w1 = Done true w2 ∧
    enabled 1 (analyzer_mgr (host w)) = Some false ∧
    enabled 1 (analyzer_mgr (host w2)) = Some true.
Proof. vm_compute. eauto 10. Qed.

(** C4 (amended): for a protocol descriptor, and for a file descriptor on
    Zeek 4.1 or later, that is set and stores the tag [r] of another analyzer
    as its replacement, both known to the host, [toggleAnalyzer(tag, enable)]
    returns [true], leaves the analyzer of [tag] in the state [enable] and the
    replaced analyzer in the opposite state.  Consequently enabling and then
    disabling leaves the replaced analyzer enabled and the Spicy analyzer
    disabled, whatever their states were before. *)
Theorem C4_toggle_drives_replaced_analyzer
    (E : Env) (w : World) (tag r : Tag) (enable : bool) :
  r ≠ 0 → r ≠ tag →
  (∀ a, _protocol_analyzers_by_type (plugin w) !! tag = Some a →
        ProtocolAnalyzerInfo.type a ≠ 0 →
        ProtocolAnalyzerInfo.replaces a = r →
        is_Some (Lookup_tag tag (analyzer_mgr (host w))) →
        is_Some (Lookup_tag r (analyzer_mgr (host w))) →
        (∃ w', toggleAnalyzer_protocol tag enable w = Done true w' ∧
               enabled tag (analyzer_mgr (host w')) = Some enable ∧
               enabled r (analyzer_mgr (host w')) = Some (negb enable)) ∧
        (∃ w1 w2, toggleAnalyzer_protocol tag true w = Done true w1 ∧
                  toggleAnalyzer_protocol tag false w1 = Done true w2 ∧
                  enabled tag (analyzer_mgr (host w2)) = Some false ∧
                  enabled r (analyzer_mgr (host w2)) = Some true)) ∧
  (∀ a, (40100 ≤ ZEEK_VERSION_NUMBER E)%Z →
        _file_analyzers_by_type (plugin w) !! tag = Some a →
        FileAnalyzerInfo.type a ≠ 0 →
        FileAnalyzerInfo.replaces a = r →
        is_Some (Lookup_tag tag (file_mgr (host w))) →
        is_Some (Lookup_tag r (file_mgr (host w))) →
        (∃ w', toggleAnalyzer_file E tag enable w = Done true w' ∧
               enabled tag (file_mgr (host w')) = Some enable ∧
               enabled r (file_mgr (host w')) = Some (negb enable)) ∧
        (∃ w1 w2, toggleAnalyzer_file E tag true w = Done true w1 ∧
                  toggleAnalyzer_file E tag false w1 = Done true w2 ∧
                  enabled tag (file_mgr (host w2)) = Some false ∧
                  enabled r (file_mgr (host w2)) = Some true)).
Proof.
  intros Hr0 Hne. split.
  - intros a Ha Hty Hr Htag Hrep. split.
    + destruct (toggleAnalyzer_protocol_replaced tag r enable a w)
        as (w' & Hrun & _ & _ & _ & H1 & H2); eauto.
    + destruct (toggleAnalyzer_protocol_replaced tag r true a w)
        as (w1 & Hrun1 & Hpl & Htag1 & Hrep1 & _); auto.
      destruct (toggleAnalyzer_protocol_replaced tag r false a w1)
        as (w2 & Hrun2 & _ & _ & _ & H1 & H2); auto; [by rewrite Hpl|].
      eauto 10.
  - intros a Hver Ha Hty Hr Htag Hrep. split.
    + destruct (toggleAnalyzer_file_replaced E tag r enable a w)
        as (w' & Hrun & _ & _ & _ & H1 & H2); eauto.
    + destruct (toggleAnalyzer_file_replaced E tag r true a w)
        as (w1 & Hrun1 & Hpl & Htag1 & Hrep1 & _); auto.
      destruct (toggleAnalyzer_file_replaced E tag r false a w1)
        as (w2 & Hrun2 & _ & _ & _ & H1 & H2); auto; [by rewrite Hpl|].
      eauto 10.
Qed.

Lemma C4_toggle_drives_replaced_analyzer_witness :
  let w := registerProtocolAnalyzer "FOO" TCP [] "foo::Parser" "" "OLD" 2
             (initial_world host_with_OLD) in
  ∃ w', toggleAnalyzer_protocol 2 false w = Done true w' ∧
        enabled 2 (analyzer_mgr (host w')) = Some false ∧
        enabled 1 (analyzer_mgr (host w')) = Some true.
Proof.
  intros w.
  destruct (C4_toggle_drives_replaced_analyzer (plain_env 40100 []) w 2 1 false)
    as [Hprotocol _]; [lia|lia|].
  edestruct Hprotocol as [Hone _]; [reflexivity|simpl; lia|reflexivity| | |exact Hone];
    vm_compute; eauto.
Defined.

(** ** C5: the packet overload of [toggleAnalyzer] *)

(** C5: for a packet analyzer whose slot is set the claim says the request is
    always logged as unsupported.  The overload checks the bound of
    [_packet_analyzers_by_type] and then reads [_protocol_analyzers_by_type].
    With a packet analyzer of type 1 and the only protocol analyzer of type 2
    the protocol slot 1 is unset, and the request returns [false] without
    logging anything; with no protocol analyzer at all the read is out of
    range; and when the protocol slot is set, the name logged is that of the
    protocol analyzer. *)
Theorem C5_packet_toggle_reads_protocol_table :
  let E := plain_env 40100 [] in
  let w0 := phase1 E [RegisterPacket "PKT" "pkt::Parser" 1] (initial_world no_host) in
  let w1 := phase1 E [RegisterProtocol "FOO" TCP [] "foo::Parser" "" "" 2] w0 in
  let w2 := phase1 E [RegisterProtocol "ONE" TCP [] "one::Parser" "" "" 1] w0 in
  PacketAnalyzerInfo.type <$> _packet_analyzers_by_type (plugin w1) !! 1 = Some 1 ∧
  toggleAnalyzer_packet 1 true w1 = Done false w1 ∧
  toggleAnalyzer_packet 1 false w1 = Done false w1 ∧
  toggleAnalyzer_packet 1 true w0 = Undefined ∧
  toggleAnalyzer_packet 1 true w2
    = Done false (ZEEK_DEBUG
                    "supposed to toggle packet analyzer ONE, but that is not supported by Zeek"
                    w2).
Proof. vm_compute. done. Qed.

(** ** Registrations and the module registry *)

Section RegistrationsOfModules.

Variable E : Env.

Lemma register_registry r w :
  _libraries (plugin (register E r w)) = _libraries (plugin w) ∧
  opened (register E r w) = opened w.
Proof.
  destruct r as [name proto ports po pr replaces ty|name mts parser replaces ty|name parser ty];
    cbn [register].
  - unfold registerProtocolAnalyzer. destruct proto; by repeat case_bool_decide.
  - unfold registerFileAnalyzer. by repeat case_bool_decide; try destruct (Lookup_name _ _).
  - done.
Qed.

Lemma phase1_registry rs w :
  _libraries (plugin (phase1 E rs w)) = _libraries (plugin w) ∧
  opened (phase1 E rs w) = opened w.
Proof.
  unfold phase1. revert w. induction rs as [|r rs IH]; intros w; [done|].
  cbn [foldl]. destruct (IH (register E r w)) as [-> ->]. apply register_registry.
Qed.

Lemma phase1_app rs rs' w : phase1 E (rs ++ rs') w = phase1 E rs' (phase1 E rs w).
Proof. unfold phase1. apply foldl_app. Qed.

Global Instance same_analyzers_equivalence : Equivalence same_analyzers.
Proof.
  unfold same_analyzers. split.
  - by intros w.
  - intros w1 w2 (-> & -> & -> & -> & ->). done.
  - intros w1 w2 w3 (H1 & H2 & H3 & H4 & H5) (-> & -> & -> & -> & ->). done.
Qed.

(** A registration reads and writes the tables, the recorded locations and
    the host only. *)
Lemma register_same_analyzers r w1 w2 :
  same_analyzers w1 w2 → same_analyzers (register E r w1) (register E r w2).
Proof.
  destruct w1 as [[vp1 vf1 vk1 libs1 locs1] h1 log1 opened1].
  destruct w2 as [[vp2 vf2 vk2 libs2 locs2] h2 log2 opened2].
  unfold same_analyzers. cbn. intros (-> & -> & -> & -> & ->).
  destruct r as [name proto ports po pr replaces ty|name mts parser replaces ty|name parser ty];
    cbn [register].
  - unfold registerProtocolAnalyzer. cbn.
    destruct proto; by repeat case_bool_decide.
  - unfold registerFileAnalyzer. cbn.
    by repeat case_bool_decide; try destruct (Lookup_name _ _).
  - done.
Qed.

Lemma phase1_same_analyzers rs w1 w2 :
  same_analyzers w1 w2 → same_analyzers (phase1 E rs w1) (phase1 E rs w2).
Proof.
  unfold phase1. revert w1 w2. induction rs as [|r rs IH]; intros w1 w2 Hsame; [done|].
  cbn [foldl]. by apply IH, register_same_analyzers.
Qed.

End RegistrationsOfModules.

(** ** C2: loading a module *)

Section LoadModule.

Variable E : Env.

Lemma loadModule_duplicate path canonical_path w :
  canonical E path = Some canonical_path →
  is_Some (_libraries (plugin w) !! canonical_path) →
  loadModule E path w
  = Done () (ZEEK_DEBUG ("Ignoring duplicate loading request for " +:+ canonical_path) w).
Proof.
  intros Hcanon [l Hl]. unfold loadModule. rewrite Hcanon. run. by rewrite Hl.
Qed.

Lemma loadModule_first path canonical_path w :
  canonical E path = Some canonical_path →
  _libraries (plugin w) !! canonical_path = None →
  Library_open E canonical_path = None →
  ∃ w', loadModule E path w = Done () w' ∧
        _libraries (plugin w')
          = <[canonical_path := {| lib_path := canonical_path; lib_open := true |}]>
              (_libraries (plugin w)) ∧
        opened w' = opened w ++ [canonical_path] ∧
        same_analyzers (phase1 E (Library_init E canonical_path) w) w'.
Proof.
  intros Hcanon Hl Hopen. unfold loadModule. rewrite Hcanon. run.
  rewrite Hl, Hopen. eexists. split; [reflexivity|].
  cbn [plugin opened host with_opened with_plugin set_libraries _libraries].
  match goal with
  | |- context [phase1 E ?rs ?w0] =>
      destruct (phase1_registry E rs w0) as [Hlibs Hopened];
      pose proof (phase1_same_analyzers E rs w w0) as Hsame
  end.
  rewrite Hlibs, Hopened. cbn. rewrite insert_insert_eq.
  split; [done|]. split; [done|].
  etrans; [apply Hsame; by unfold same_analyzers|by unfold same_analyzers].
Qed.

(** C2: for a path that canonicalizes to [canonical_path].  If the registry
    has an entry for it, [loadModule] returns and only the message about the
    duplicate request is added to the log: registry, tables, host and the
    list of opened modules are unchanged, so no module is opened and no
    registration runs.  If it has none and the module opens, the registry
    gains the entry, the module is opened once, and the tables, the recorded
    locations and the host are what the module's registrations, run once
    from the world before, leave; a second request, under any spelling
    [path'] with the same canonical path, then changes nothing, opens
    nothing and registers nothing.  If the module does not open, the process
    is terminated. *)
Theorem C2_loadModule_idempotent (w : World) (path path' canonical_path : string) :
  canonical E path = Some canonical_path →
  (is_Some (_libraries (plugin w) !! canonical_path) →
   ∃ w', loadModule E path w = Done () w' ∧
         plugin w' = plugin w ∧ host w' = host w ∧ opened w' = opened w ∧
         log w' = log w ++ [Debug ("Ignoring duplicate loading request for "
                                     +:+ canonical_path)]) ∧
  (_libraries (plugin w) !! canonical_path = None →
   match Library_open E canonical_path with
   | None =>
       ∃ w', loadModule E path w = Done () w' ∧
             _libraries (plugin w')
               = <[canonical_path := {| lib_path := canonical_path; lib_open := true |}]>
                   (_libraries (plugin w)) ∧
             opened w' = opened w ++ [canonical_path] ∧
             same_analyzers (phase1 E (Library_init E canonical_path) w) w' ∧
             (canonical E path' = Some canonical_path →
              ∃ w'', loadModule E path' w' = Done () w'' ∧
                     plugin w'' = plugin w' ∧ host w'' = host w' ∧
                     opened w'' = opened w ++ [canonical_path])
   | Some err =>
       loadModule E path w
       = Fatal ("could not open library path " +:+ canonical_path +:+ ": " +:+ err)
   end).
Proof.
  intros Hcanon. split.
  - intros Hl. eexists. split; [by apply loadModule_duplicate|done].
  - intros Hl. destruct (Library_open E canonical_path) as [err|] eqn:Hopen.
    + unfold loadModule. rewrite Hcanon. run. by rewrite Hl, Hopen.
    + destruct (loadModule_first path canonical_path w Hcanon Hl Hopen)
        as (w' & Hrun & Hlibs & Hopened & Hsame).
      exists w'. split_and!; try done.
      intros Hcanon'. eexists. split.
      { apply loadModule_duplicate; [done|]. rewrite Hlibs, lookup_insert_eq. eauto. }
      done.
Qed.

End LoadModule.

Lemma C2_loadModule_idempotent_witness :
  ∃ w' w'',
    loadModule modules_env "./a.hlto" (initial_world host_with_OLD) = Done () w' ∧
    opened w' = ["/modules/a.hlto"] ∧
    host w' = host (phase1 modules_env (Library_init modules_env "/modules/a.hlto")
                           (initial_world host_with_OLD)) ∧
    loadModule modules_env "/modules/a.hlto" w' = Done () w'' ∧
    plugin w'' = plugin w' ∧ host w'' = host w' ∧
    opened w'' = ["/modules/a.hlto"].
Proof.
  destruct (C2_loadModule_idempotent modules_env (initial_world host_with_OLD)
              "./a.hlto" "/modules/a.hlto" "/modules/a.hlto" eq_refl) as [_ Hfirst].
  destruct (Hfirst eq_refl) as (w' & Hrun & _ & Hopened & (_ & _ & _ & _ & Hhost) & Hagain).
  destruct (Hagain eq_refl) as (w'' & Hrun' & Hplugin & Hhost' & Hopened').
  exists w', w''.
  split_and!; [exact Hrun|exact Hopened|exact Hhost|exact Hrun'|exact Hplugin|exact Hhost'
              |exact Hopened'].
Defined.

(** ** Phase 2 *)

Section Phase2.

Variable E : Env.

Lemma bind_Done {A B} (m : M A) (k : A → M B) w b w' :
  (m ≫= k) w = Done b w' → ∃ a w1, m w = Done a w1 ∧ k a w1 = Done b w'.
Proof. unfold mbind, M_bind. destruct (m w); naive_solver. Qed.

Lemma defined_bind {A B} (m : M A) (k : A → M B) :
  defined m → (∀ a, defined (k a)) → defined (m ≫= k).
Proof.
  intros Hm Hk w. unfold mbind, M_bind. specialize (Hm w).
  destruct (m w); [apply Hk|done|done].
Qed.

Lemma defined_for_each {A} (body : A → M unit) l :
  (∀ x, defined (body x)) → defined (for_each body l).
Proof.
  intros Hbody. induction l as [|x l IH]; simpl; [done|].
  apply defined_bind; auto.
Qed.

Lemma defined_for_each_ref {A} (body : A → M A) v :
  (∀ x, defined (body x)) → defined (for_each_ref body v).
Proof.
  intros Hbody. induction v as [|x v IH]; simpl; [done|].
  apply defined_bind; [auto|]. intros a. apply defined_bind; [auto|done].
Qed.

Lemma defined_find_parser analyzer parser : defined (find_parser E analyzer parser).
Proof.
  intros w. unfold find_parser. case_bool_decide; [done|]. by destruct (find _ _).
Qed.

Lemma defined_transport_protocol p : defined (transport_protocol p).
Proof. intros w. unfold transport_protocol. by destruct (protocol p). Qed.

Lemma find_parser_Done analyzer parser w r w' :
  find_parser E analyzer parser w = Done r w' → w' = w ∧ resolved E parser r.
Proof.
  unfold find_parser, resolved. case_bool_decide as Hp.
  - intros [= <- <-]. by rewrite decide_True.
  - destruct (find _ _) as [p|] eqn:Hfind; [|done].
    intros [= <- <-]. rewrite decide_False by done.
    apply find_some in Hfind as [Hin Hname].
    apply bool_decide_eq_true in Hname. apply list_elem_of_In in Hin. eauto.
Qed.

Lemma find_parser_unknown analyzer parser w :
  parser ≠ "" → (∀ p, p ∈ parsers E → parser_name p ≠ parser) →
  find_parser E analyzer parser w
  = Fatal ("Unknown Spicy parser '" +:+ parser +:+ "' requested by analyzer '"
             +:+ analyzer +:+ "'").
Proof.
  intros Hne Hnone. unfold find_parser. rewrite bool_decide_eq_false_2 by done.
  destruct (find _ _) as [p|] eqn:Hfind; [|done].
  apply find_some in Hfind as [Hin Hname].
  apply bool_decide_eq_true in Hname. apply list_elem_of_In in Hin.
  by destruct (Hnone p Hin).
Qed.

(** Loops whose bodies leave the plugin state alone. *)
Lemma for_each_plugin {A} (body : A → M unit) l :
  (∀ x w u w', body x w = Done u w' → plugin w' = plugin w) →
  ∀ w u w', for_each body l w = Done u w' → plugin w' = plugin w.
Proof.
  intros Hbody. induction l as [|x l IH]; simpl; intros w u w' H.
  - by injection H as _ <-.
  - apply bind_Done in H as (? & w1 & H1 & H2).
    rewrite (IH _ _ _ H2). eauto.
Qed.

Lemma for_each_ref_Done {A} (body : A → M A) (R : A → A → Prop) :
  (∀ x w y w', body x w = Done y w' → R x y ∧ plugin w' = plugin w) →
  ∀ v w v' w', for_each_ref body v w = Done v' w' → Forall2 R v v' ∧ plugin w' = plugin w.
Proof.
  intros Hbody. induction v as [|x v IH]; simpl; intros w v' w' H.
  - injection H as <- <-. by split.
  - apply bind_Done in H as (y & w1 & H1 & H).
    apply bind_Done in H as (v1 & w2 & H2 & H).
    injection H as <- <-.
    destruct (Hbody _ _ _ _ H1) as [HR Hp1]. destruct (IH _ _ _ H2) as [HF Hp2].
    split; [by constructor|congruence].
Qed.

Lemma register_port_plugin tag (p : Port) w u w' :
  (debug ("  Scheduling analyzer for port " +:+ fmt_port p);;
   tp ← transport_protocol p;
   lift (with_host (RegisterAnalyzerForPort tag tp (port p)))) w = Done u w' →
  plugin w' = plugin w.
Proof.
  intros H. apply bind_Done in H as (? & w1 & H1 & H).
  apply bind_Done in H as (tp & w2 & H2 & H).
  injection H1 as _ <-. injection H as _ <-.
  unfold transport_protocol in H2.
  destruct (protocol p); first [discriminate H2|by injection H2 as _ <-].
Qed.

Lemma register_parser_port_plugin tag (pp : ParserPort) w u w' :
  (if bool_decide (pp_direction pp ≠ Both ∧ pp_direction pp ≠ Responder) then mret () else
   debug ("  Scheduling analyzer for port " +:+ fmt_port (pp_port pp));;
   tp ← transport_protocol (pp_port pp);
   lift (with_host (RegisterAnalyzerForPort tag tp (port (pp_port pp))))) w = Done u w' →
  plugin w' = plugin w.
Proof. case_bool_decide; [run; congruence|apply register_port_plugin]. Qed.

Lemma register_analyzer_for_mime_type_plugin tag mt w u w' :
  register_analyzer_for_mime_type tag mt w = Done u w' → plugin w' = plugin w.
Proof. intros H. by injection H as _ <-. Qed.

Lemma init_protocol_analyzer_Done p w p' w' :
  init_protocol_analyzer E p w = Done p' w' →
  protocol_resolved E p p' ∧ plugin w' = plugin w.
Proof.
  unfold init_protocol_analyzer, protocol_resolved. case_bool_decide as Hty.
  - intros [= <- <-]. auto.
  - intros H.
    apply bind_Done in H as (? & w1 & H1 & H). injection H1 as _ <-.
    apply bind_Done in H as (po & w2 & H2 & H).
    apply find_parser_Done in H2 as [-> Hpo].
    apply bind_Done in H as (pr & w3 & H3 & H).
    apply find_parser_Done in H3 as [-> Hpr].
    apply bind_Done in H as (tag & w4 & H4 & H). injection H4 as <- <-.
    apply bind_Done in H as (? & w5 & H5 & H).
    assert (w5 = ZEEK_DEBUG
                   ("Registering " +:+ fmt_protocol (ProtocolAnalyzerInfo.protocol p)
                      +:+ " protocol analyzer " +:+ ProtocolAnalyzerInfo.name_analyzer p
                      +:+ " with Zeek") w) as ->.
    { revert H5. case_bool_decide; [done|]. run. congruence. }
    apply bind_Done in H as (? & w6 & H6 & H).
    apply for_each_plugin in H6; [|intros; by eapply register_port_plugin].
    apply bind_Done in H as (? & w7 & H7 & H). injection H as <- <-.
    assert (plugin w7 = plugin w6) as Hp7.
    { destruct pr as [r|]; [|revert H7; run; congruence].
      eapply for_each_plugin; [|exact H7].
      intros pp wa u wb. apply register_parser_port_plugin. }
    split; [right; eauto 10|]. by rewrite Hp7, H6.
Qed.

Lemma init_file_analyzer_Done p w p' w' :
  init_file_analyzer E p w = Done p' w' →
  file_resolved E p p' ∧ plugin w' = plugin w.
Proof.
  unfold init_file_analyzer, file_resolved. case_bool_decide as Hty.
  - intros [= <- <-]. auto.
  - intros H.
    apply bind_Done in H as (? & w1 & H1 & H). injection H1 as _ <-.
    apply bind_Done in H as (r & w2 & H2 & H).
    apply find_parser_Done in H2 as [-> Hr].
    apply bind_Done in H as (tag & w4 & H4 & H). injection H4 as <- <-.
    apply bind_Done in H as (? & w5 & H5 & H).
    assert (w5 = ZEEK_DEBUG
                   ("Registering file analyzer " +:+ FileAnalyzerInfo.name_analyzer p
                      +:+ " with Zeek") w) as ->.
    { revert H5. case_bool_decide; [done|]. run. congruence. }
    apply bind_Done in H as (? & w6 & H6 & H).
    apply for_each_plugin in H6; [|apply register_analyzer_for_mime_type_plugin].
    apply bind_Done in H as (? & w7 & H7 & H). injection H as <- <-.
    assert (plugin w7 = plugin w6) as Hp7.
    { destruct r as [r|]; [|revert H7; run; congruence].
      by apply for_each_plugin in H7; [|apply register_analyzer_for_mime_type_plugin]. }
    split; [right; eauto 10|]. by rewrite Hp7, H6.
Qed.

Lemma init_packet_analyzer_Done p w p' w' :
  init_packet_analyzer E p w = Done p' w' →
  packet_resolved E p p' ∧ plugin w' = plugin w.
Proof.
  unfold init_packet_analyzer, packet_resolved. case_bool_decide as Hty.
  - intros [= <- <-]. auto.
  - intros H.
    apply bind_Done in H as (? & w1 & H1 & H). injection H1 as _ <-.
    apply bind_Done in H as (r & w2 & H2 & H).
    apply find_parser_Done in H2 as [-> Hr].
    injection H as <- <-. split; [right; eauto|done].
Qed.

End Phase2.

(** ** C8: what [InitPostScript] leaves in the tables *)

Section InitPostScript.

Variable E : Env.

(** Definedness of a computation built from the monad's operations. *)
Ltac solve_defined :=
  repeat first
    [ apply defined_find_parser
    | apply defined_transport_protocol
    | apply defined_bind; [|intros ?]
    | apply defined_for_each; intros ?
    | apply defined_for_each_ref; intros ?
    | by intros ?; run
    | match goal with
      | |- defined (if ?b then _ else _) => destruct b
      | |- defined (match ?x with _ => _ end) => destruct x
      end ].

Lemma defined_init_protocol_analyzer p : defined (init_protocol_analyzer E p).
Proof. unfold init_protocol_analyzer. solve_defined. Qed.

Lemma defined_init_file_analyzer p : defined (init_file_analyzer E p).
Proof. unfold init_file_analyzer, register_analyzer_for_mime_type. solve_defined. Qed.

Lemma defined_init_packet_analyzer p : defined (init_packet_analyzer E p).
Proof. unfold init_packet_analyzer. solve_defined. Qed.

Lemma defined_InitPostScript : defined (InitPostScript E).
Proof.
  unfold InitPostScript.
  repeat first
    [ apply defined_init_protocol_analyzer
    | apply defined_init_file_analyzer
    | apply defined_init_packet_analyzer
    | apply defined_bind; [|intros ?]
    | apply defined_for_each_ref; intros ?
    | by intros ?; run
    | match goal with
      | |- defined (if ?b then _ else _) => destruct b
      | |- defined (match ?x with _ => _ end) => destruct x
      end ].
Qed.

(** The three tables after a phase 2 that completed. *)
Lemma InitPostScript_Done w u w' :
  InitPostScript E w = Done u w' →
  Forall2 (protocol_resolved E) (_protocol_analyzers_by_type (plugin w))
                                (_protocol_analyzers_by_type (plugin w')) ∧
  Forall2 (file_resolved E) (_file_analyzers_by_type (plugin w))
                            (_file_analyzers_by_type (plugin w')) ∧
  (if HAVE_PACKET_ANALYZERS E
   then Forall2 (packet_resolved E) (_packet_analyzers_by_type (plugin w))
                                    (_packet_analyzers_by_type (plugin w'))
   else _packet_analyzers_by_type (plugin w') = _packet_analyzers_by_type (plugin w)).
Proof.
  unfold InitPostScript. intros H.
  apply bind_Done in H as (? & w1 & H1 & H). injection H1 as _ <-.
  apply bind_Done in H as (? & w2 & H2 & H). injection H2 as _ <-.
  apply bind_Done in H as (? & w3 & H3 & H).
  assert (plugin w3 = plugin w) as Hp3.
  { destruct (runtime_init E); [done|]. revert H3. run. by intros [= _ <-]. }
  clear H3.
  apply bind_Done in H as (vp & w4 & H4 & H). injection H4 as <- <-.
  apply bind_Done in H as (vp' & w5 & H5 & H).
  apply (for_each_ref_Done _ (protocol_resolved E)
           (init_protocol_analyzer_Done E)) in H5 as [Hprotocol Hp5].
  apply bind_Done in H as (? & w6 & H6 & H). injection H6 as _ <-.
  apply bind_Done in H as (vf & w7 & H7 & H). injection H7 as <- <-.
  apply bind_Done in H as (vf' & w8 & H8 & H).
  apply (for_each_ref_Done _ (file_resolved E)
           (init_file_analyzer_Done E)) in H8 as [Hfile Hp8].
  apply bind_Done in H as (? & w9 & H9 & H). injection H9 as _ <-.
  apply bind_Done in H as (? & w10 & H10 & H). injection H as _ <-.
  simpl in Hfile. rewrite Hp5, Hp3 in Hfile. rewrite Hp3 in Hprotocol.
  destruct (HAVE_PACKET_ANALYZERS E).
  - apply bind_Done in H10 as (vk & w11 & H11 & H). injection H11 as <- <-.
    apply bind_Done in H as (vk' & w12 & H12 & H).
    apply (for_each_ref_Done _ (packet_resolved E)
             (init_packet_analyzer_Done E)) in H12 as [Hpacket Hp12].
    injection H as _ <-. simpl in *.
    rewrite Hp12, Hp8, Hp5, Hp3. rewrite Hp8, Hp5, Hp3 in Hpacket. done.
  - revert H10. run. intros [= _ <-]. simpl in *. by rewrite Hp8, Hp5, Hp3.
Qed.

End InitPostScript.

Section ResolvedParsers.

Variable E : Env.

Lemma resolved_unknown n r : unknown_parser E n → resolved E n r → False.
Proof.
  intros [Hne Hnone]. unfold resolved. rewrite decide_False by done.
  intros (p & _ & Hname & Hin). by destruct (Hnone p Hin).
Qed.

Lemma resolved_empty r : resolved E "" r → r = None.
Proof. unfold resolved. by rewrite decide_True. Qed.

Lemma protocol_resolved_set p p' :
  protocol_resolved E p p' →
  ProtocolAnalyzerInfo.type p' = ProtocolAnalyzerInfo.type p ∧
  ProtocolAnalyzerInfo.name_parser_orig p' = ProtocolAnalyzerInfo.name_parser_orig p ∧
  ProtocolAnalyzerInfo.name_parser_resp p' = ProtocolAnalyzerInfo.name_parser_resp p ∧
  (ProtocolAnalyzerInfo.type p ≠ 0 →
   resolved E (ProtocolAnalyzerInfo.name_parser_orig p) (ProtocolAnalyzerInfo.parser_orig p') ∧
   resolved E (ProtocolAnalyzerInfo.name_parser_resp p) (ProtocolAnalyzerInfo.parser_resp p')).
Proof. intros [[Hty ->]|(Hty & po & pr & -> & Hpo & Hpr)]; simpl; naive_solver. Qed.

Lemma file_resolved_set p p' :
  file_resolved E p p' →
  FileAnalyzerInfo.type p' = FileAnalyzerInfo.type p ∧
  FileAnalyzerInfo.name_parser p' = FileAnalyzerInfo.name_parser p ∧
  (FileAnalyzerInfo.type p ≠ 0 →
   resolved E (FileAnalyzerInfo.name_parser p) (FileAnalyzerInfo.parser p')).
Proof. intros [[Hty ->]|(Hty & r & -> & Hr)]; simpl; naive_solver. Qed.

Lemma packet_resolved_set p p' :
  packet_resolved E p p' →
  PacketAnalyzerInfo.type p' = PacketAnalyzerInfo.type p ∧
  PacketAnalyzerInfo.name_parser p' = PacketAnalyzerInfo.name_parser p ∧
  (PacketAnalyzerInfo.type p ≠ 0 →
   resolved E (PacketAnalyzerInfo.name_parser p) (PacketAnalyzerInfo.parser p')).
Proof. intros [[Hty ->]|(Hty & r & -> & Hr)]; simpl; naive_solver. Qed.

(** Every set descriptor of a completed phase 2 has its parsers resolved. *)
Lemma InitPostScript_resolved w u w' :
  InitPostScript E w = Done u w' →
  (∀ i p, _protocol_analyzers_by_type (plugin w') !! i = Some p →
          ProtocolAnalyzerInfo.type p ≠ 0 →
          resolved E (ProtocolAnalyzerInfo.name_parser_orig p)
                     (ProtocolAnalyzerInfo.parser_orig p) ∧
          resolved E (ProtocolAnalyzerInfo.name_parser_resp p)
                     (ProtocolAnalyzerInfo.parser_resp p)) ∧
  (∀ i p, _file_analyzers_by_type (plugin w') !! i = Some p →
          FileAnalyzerInfo.type p ≠ 0 →
          resolved E (FileAnalyzerInfo.name_parser p) (FileAnalyzerInfo.parser p)) ∧
  (HAVE_PACKET_ANALYZERS E = true →
   ∀ i p, _packet_analyzers_by_type (plugin w') !! i = Some p →
          PacketAnalyzerInfo.type p ≠ 0 →
          resolved E (PacketAnalyzerInfo.name_parser p) (PacketAnalyzerInfo.parser p)).
Proof.
  intros (Hprotocol & Hfile & Hpacket)%InitPostScript_Done. split_and!.
  - intros i p' Hi Hty.
    destruct (Forall2_lookup_r _ _ _ _ _ Hprotocol Hi) as (p & _ & HR).
    apply protocol_resolved_set in HR as (Hty' & -> & -> & HR). apply HR. congruence.
  - intros i p' Hi Hty.
    destruct (Forall2_lookup_r _ _ _ _ _ Hfile Hi) as (p & _ & HR).
    apply file_resolved_set in HR as (Hty' & -> & HR). apply HR. congruence.
  - intros Hhave i p' Hi Hty. rewrite Hhave in Hpacket.
    destruct (Forall2_lookup_r _ _ _ _ _ Hpacket Hi) as (p & _ & HR).
    apply packet_resolved_set in HR as (Hty' & -> & HR). apply HR. congruence.
Qed.

(** A set descriptor with a name that no parser has makes phase 2 fatal. *)
Lemma InitPostScript_unknown_parser w n :
  unknown_parser E n →
  (∃ i p, _protocol_analyzers_by_type (plugin w) !! i = Some p ∧
          ProtocolAnalyzerInfo.type p ≠ 0 ∧
          (ProtocolAnalyzerInfo.name_parser_orig p = n ∨
           ProtocolAnalyzerInfo.name_parser_resp p = n)) ∨
  (∃ i p, _file_analyzers_by_type (plugin w) !! i = Some p ∧
          FileAnalyzerInfo.type p ≠ 0 ∧ FileAnalyzerInfo.name_parser p = n) ∨
  (HAVE_PACKET_ANALYZERS E = true ∧
   ∃ i p, _packet_analyzers_by_type (plugin w) !! i = Some p ∧
          PacketAnalyzerInfo.type p ≠ 0 ∧ PacketAnalyzerInfo.name_parser p = n) →
  ∃ msg, InitPostScript E w = Fatal msg.
Proof.
  intros Hunknown Hdescriptor.
  destruct (InitPostScript E w) as [u w'|msg|] eqn:Hrun; [exfalso|by eexists|].
  - apply InitPostScript_Done in Hrun as (Hprotocol & Hfile & Hpacket).
    destruct Hdescriptor as [(i & p & Hi & Hty & Hn)|[(i & p & Hi & Hty & Hn)|
                             (Hhave & i & p & Hi & Hty & Hn)]].
    + destruct (Forall2_lookup_l _ _ _ _ _ Hprotocol Hi) as (p' & _ & HR).
      apply protocol_resolved_set in HR as (_ & _ & _ & HR).
      destruct (HR Hty) as [Hpo Hpr].
      destruct Hn as [<-|<-]; eauto using resolved_unknown.
    + destruct (Forall2_lookup_l _ _ _ _ _ Hfile Hi) as (p' & _ & HR).
      apply file_resolved_set in HR as (_ & _ & HR). subst n.
      eauto using resolved_unknown.
    + rewrite Hhave in Hpacket.
      destruct (Forall2_lookup_l _ _ _ _ _ Hpacket Hi) as (p' & _ & HR).
      apply packet_resolved_set in HR as (_ & _ & HR). subst n.
      eauto using resolved_unknown.
  - by destruct (defined_InitPostScript E w).
Qed.

(** C8: phase 2.  [find_parser] returns no parser for the empty name, a
    parser of the runtime with exactly the requested name when there is one,
    and is fatal for a non-empty name that no parser has.  When
    [InitPostScript] completes, every descriptor whose [type] is not 0 has,
    for each declared parser name, the resolved parser: none for the empty
    name, a parser with that name otherwise.  When a descriptor whose [type]
    is not 0 declares a non-empty name that no parser has, [InitPostScript]
    ends in a fatal error. *)
Theorem C8_phase2_resolves_parser_names (w : World) :
  (∀ analyzer parser w0,
     (parser = "" → find_parser E analyzer parser w0 = Done None w0) ∧
     (parser ≠ "" → (∃ q, q ∈ parsers E ∧ parser_name q = parser) →
      ∃ p, find_parser E analyzer parser w0 = Done (Some p) w0 ∧
           parser_name p = parser ∧ p ∈ parsers E) ∧
     (unknown_parser E parser →
      find_parser E analyzer parser w0
      = Fatal ("Unknown Spicy parser '" +:+ parser +:+ "' requested by analyzer '"
                 +:+ analyzer +:+ "'"))) ∧
  (∀ u w', InitPostScript E w = Done u w' →
     (∀ i p, _protocol_analyzers_by_type (plugin w') !! i = Some p →
             ProtocolAnalyzerInfo.type p ≠ 0 →
             resolved E (ProtocolAnalyzerInfo.name_parser_orig p)
                        (ProtocolAnalyzerInfo.parser_orig p) ∧
             resolved E (ProtocolAnalyzerInfo.name_parser_resp p)
                        (ProtocolAnalyzerInfo.parser_resp p)) ∧
     (∀ i p, _file_analyzers_by_type (plugin w') !! i = Some p →
             FileAnalyzerInfo.type p ≠ 0 →
             resolved E (FileAnalyzerInfo.name_parser p) (FileAnalyzerInfo.parser p)) ∧
     (HAVE_PACKET_ANALYZERS E = true →
      ∀ i p, _packet_analyzers_by_type (plugin w') !! i = Some p →
             PacketAnalyzerInfo.type p ≠ 0 →
             resolved E (PacketAnalyzerInfo.name_parser p) (PacketAnalyzerInfo.parser p))) ∧
  (∀ n, unknown_parser E n →
     (∃ i p, _protocol_analyzers_by_type (plugin w) !! i = Some p ∧
             ProtocolAnalyzerInfo.type p ≠ 0 ∧
             (ProtocolAnalyzerInfo.name_parser_orig p = n ∨
              ProtocolAnalyzerInfo.name_parser_resp p = n)) ∨
     (∃ i p, _file_analyzers_by_type (plugin w) !! i = Some p ∧
             FileAnalyzerInfo.type p ≠ 0 ∧ FileAnalyzerInfo.name_parser p = n) ∨
     (HAVE_PACKET_ANALYZERS E = true ∧
      ∃ i p, _packet_analyzers_by_type (plugin w) !! i = Some p ∧
             PacketAnalyzerInfo.type p ≠ 0 ∧ PacketAnalyzerInfo.name_parser p = n) →
     ∃ msg, InitPostScript E w = Fatal msg).
Proof.
  split_and!.
  - intros analyzer parser w0. split_and!.
    + intros ->. reflexivity.
    + intros Hne (q & Hq & Hname). unfold find_parser.
      rewrite bool_decide_eq_false_2 by done.
      destruct (find _ _) as [p|] eqn:Hfind.
      * exists p. apply find_some in Hfind as [Hin Hp].
        apply bool_decide_eq_true in Hp. apply list_elem_of_In in Hin. done.
      * apply list_elem_of_In in Hq. eapply find_none in Hfind; [|exact Hq].
        by rewrite bool_decide_eq_true_2 in Hfind.
    + intros [Hne Hnone]. by apply find_parser_unknown.
  - apply InitPostScript_resolved.
  - intros n. apply InitPostScript_unknown_parser.
Qed.

End ResolvedParsers.

Lemma C8_phase2_resolves_parser_names_witness :
  let E := plain_env 40100 [foo_parser; bar_parser] in
  let w := phase1 E [RegisterProtocol "FOO" TCP [{| port := 443; protocol := TCP |}]
                                      "foo::Parser" "foo::Parser" "" 2;
                     RegisterFile "BAR" ["text/plain"] "bar::Parser" "" 1]
                  (initial_world no_host) in
  let broken := phase1 E [RegisterFile "BAZ" [] "baz::Parser" "" 3] w in
  (∃ w', InitPostScript E w = Done () w' ∧
         FileAnalyzerInfo.parser <$> _file_analyzers_by_type (plugin w') !! 1
           = Some (Some bar_parser) ∧
         ∀ i p, _file_analyzers_by_type (plugin w') !! i = Some p →
                FileAnalyzerInfo.type p ≠ 0 →
                resolved E (FileAnalyzerInfo.name_parser p) (FileAnalyzerInfo.parser p)) ∧
  (∃ msg, InitPostScript E broken = Fatal msg).
Proof.
  intros E w broken. split.
  - destruct (InitPostScript E w) as [[] w'| |] eqn:Hrun; [|by vm_compute in Hrun..].
    exists w'. split; [reflexivity|]. split.
    + vm_compute in Hrun. by injection Hrun as <-.
    + apply (proj1 (proj2 (C8_phase2_resolves_parser_names E w)) () w' Hrun).
  - apply (proj2 (proj2 (C8_phase2_resolves_parser_names E broken)) "baz::Parser").
    + split; [discriminate|]. intros q Hq.
      repeat (apply elem_of_cons in Hq as [->|Hq]; [discriminate|]).
      by apply elem_of_nil in Hq.
    + right. left. exists 3. eexists. split; [reflexivity|]. split; [simpl; lia|reflexivity].
Defined.

(** ** C10: the parser lookups *)

Section ParserLookup.

Variable E : Env.

Lemma parserForProtocolAnalyzer_in_range tag is_orig w info :
  _protocol_analyzers_by_type (plugin w) !! tag = Some info →
  parserForProtocolAnalyzer tag is_orig w
  = Done (if is_orig then ProtocolAnalyzerInfo.parser_orig info
          else ProtocolAnalyzerInfo.parser_resp info) w.
Proof.
  intros Hinfo. unfold parserForProtocolAnalyzer. run.
  destruct is_orig; run; by rewrite Hinfo.
Qed.

Lemma parserForFileAnalyzer_in_range tag w info :
  _file_analyzers_by_type (plugin w) !! tag = Some info →
  parserForFileAnalyzer tag w = Done (FileAnalyzerInfo.parser info) w.
Proof. intros Hinfo. unfold parserForFileAnalyzer. run. by rewrite Hinfo. Qed.

Lemma parserForProtocolAnalyzer_out_of_range tag is_orig w :
  length (_protocol_analyzers_by_type (plugin w)) ≤ tag →
  parserForProtocolAnalyzer tag is_orig w = Undefined.
Proof.
  intros Hlen%lookup_ge_None. unfold parserForProtocolAnalyzer. run.
  destruct is_orig; run; by rewrite Hlen.
Qed.

Lemma parserForFileAnalyzer_out_of_range tag w :
  length (_file_analyzers_by_type (plugin w)) ≤ tag →
  parserForFileAnalyzer tag w = Undefined.
Proof.
  intros Hlen%lookup_ge_None. unfold parserForFileAnalyzer. run. by rewrite Hlen.
Qed.

(** Registrations store descriptors without parsers. *)
Lemma unresolved_empty_plugin : unresolved empty_plugin.
Proof. by repeat split. Qed.

Lemma register_unresolved r w : unresolved (plugin w) → unresolved (plugin (register E r w)).
Proof.
  unfold unresolved. intros (Hprotocol & Hfile & Hpacket).
  destruct r as [name proto ports po pr replaces ty|name mts parser replaces ty|name parser ty];
    simpl.
  - unfold registerProtocolAnalyzer.
    destruct proto; repeat case_bool_decide; simpl; split_and!; try done;
      (apply Forall_insert; [apply Forall_resize|]; done).
  - unfold registerFileAnalyzer.
    repeat case_bool_decide; try destruct (Lookup_name _ _); simpl; split_and!; try done;
      (apply Forall_insert; [apply Forall_resize|]; done).
  - split_and!; try done. apply Forall_insert; [apply Forall_resize|]; done.
Qed.

Lemma phase1_unresolved rs w : unresolved (plugin w) → unresolved (plugin (phase1 E rs w)).
Proof.
  unfold phase1. revert w. induction rs as [|r rs IH]; intros w Hw; simpl; [done|].
  by apply IH, register_unresolved.
Qed.

(** C10: [parserForProtocolAnalyzer] and [parserForFileAnalyzer] read the slot
    of the tag's type without any check.  When the type is within the table
    they return the resolved parser stored in that slot, whatever the slot's
    [type] field is: for a protocol analyzer the originator-side one when
    [is_orig], else the responder-side one.  When the type is at or beyond
    the size of the table the read has no defined result.  In a world made by
    registrations alone (before phase 2) the parser returned is null, and
    after a completed phase 2 it is null for a set descriptor whose declared
    name is empty. *)
Theorem C10_parser_lookup_is_unchecked (w : World) (tag : Tag) (is_orig : bool) :
  (tag < length (_protocol_analyzers_by_type (plugin w)) →
   ∃ info, _protocol_analyzers_by_type (plugin w) !! tag = Some info ∧
           parserForProtocolAnalyzer tag is_orig w
           = Done (if is_orig then ProtocolAnalyzerInfo.parser_orig info
                   else ProtocolAnalyzerInfo.parser_resp info) w) ∧
  (tag < length (_file_analyzers_by_type (plugin w)) →
   ∃ info, _file_analyzers_by_type (plugin w) !! tag = Some info ∧
           parserForFileAnalyzer tag w = Done (FileAnalyzerInfo.parser info) w) ∧
  (length (_protocol_analyzers_by_type (plugin w)) ≤ tag →
   parserForProtocolAnalyzer tag is_orig w = Undefined) ∧
  (length (_file_analyzers_by_type (plugin w)) ≤ tag →
   parserForFileAnalyzer tag w = Undefined) ∧
  (∀ rs h, w = phase1 E rs (initial_world h) →
     (tag < length (_protocol_analyzers_by_type (plugin w)) →
      parserForProtocolAnalyzer tag is_orig w = Done None w) ∧
     (tag < length (_file_analyzers_by_type (plugin w)) →
      parserForFileAnalyzer tag w = Done None w)) ∧
  (∀ u w', InitPostScript E w = Done u w' →
     (∀ info, _protocol_analyzers_by_type (plugin w') !! tag = Some info →
              ProtocolAnalyzerInfo.type info ≠ 0 →
              (if is_orig then ProtocolAnalyzerInfo.name_parser_orig info
               else ProtocolAnalyzerInfo.name_parser_resp info) = "" →
              parserForProtocolAnalyzer tag is_orig w' = Done None w') ∧
     (∀ info, _file_analyzers_by_type (plugin w') !! tag = Some info →
              FileAnalyzerInfo.type info ≠ 0 →
              FileAnalyzerInfo.name_parser info = "" →
              parserForFileAnalyzer tag w' = Done None w')).
Proof.
  split_and!.
  - intros [info Hinfo]%lookup_lt_is_Some.
    exists info. split; [done|]. by apply parserForProtocolAnalyzer_in_range.
  - intros [info Hinfo]%lookup_lt_is_Some.
    exists info. split; [done|]. by apply parserForFileAnalyzer_in_range.
  - apply parserForProtocolAnalyzer_out_of_range.
  - apply parserForFileAnalyzer_out_of_range.
  - intros rs h ->.
    destruct (phase1_unresolved rs (initial_world h) unresolved_empty_plugin)
      as (Hprotocol & Hfile & _).
    split.
    + intros [info Hinfo]%lookup_lt_is_Some.
      rewrite (parserForProtocolAnalyzer_in_range _ _ _ _ Hinfo).
      destruct (Forall_lookup_1 _ _ _ _ Hprotocol Hinfo) as [-> ->]. by destruct is_orig.
    + intros [info Hinfo]%lookup_lt_is_Some.
      rewrite (parserForFileAnalyzer_in_range _ _ _ Hinfo).
      by rewrite (Forall_lookup_1 _ _ _ _ Hfile Hinfo).
  - intros u w' (Hprotocol & Hfile & _)%InitPostScript_resolved. split.
    + intros info Hinfo Hty Hname.
      rewrite (parserForProtocolAnalyzer_in_range _ _ _ _ Hinfo).
      destruct (Hprotocol _ _ Hinfo Hty) as [Hpo Hpr].
      destruct is_orig; rewrite Hname in *; f_equal; by eapply resolved_empty.
    + intros info Hinfo Hty Hname.
      rewrite (parserForFileAnalyzer_in_range _ _ _ Hinfo).
      specialize (Hfile _ _ Hinfo Hty). rewrite Hname in Hfile.
      f_equal. by eapply resolved_empty.
Qed.

End ParserLookup.

Lemma C10_parser_lookup_is_unchecked_witness :
  let E := plain_env 40100 [foo_parser; bar_parser] in
  let w := phase1 E [RegisterProtocol "FOO" TCP [] "foo::Parser" "" "" 2] (initial_world no_host) in
  parserForProtocolAnalyzer 2 true w = Done None w ∧
  parserForProtocolAnalyzer 1 true w = Done None w ∧
  parserForProtocolAnalyzer 3 false w = Undefined ∧
  parserForFileAnalyzer 0 w = Undefined.
Proof.
  intros E w.
  destruct (C10_parser_lookup_is_unchecked E w 2 true) as (_ & _ & _ & _ & Hbefore & _).
  destruct (C10_parser_lookup_is_unchecked E w 1 true) as (_ & _ & _ & _ & Hunset & _).
  destruct (C10_parser_lookup_is_unchecked E w 3 false) as (_ & _ & Hout & _).
  destruct (C10_parser_lookup_is_unchecked E w 0 false) as (_ & _ & _ & Hfile & _).
  split_and!.
  - apply (Hbefore _ _ eq_refl). vm_compute. lia.
  - apply (Hunset _ _ eq_refl). vm_compute. lia.
  - apply Hout. vm_compute. lia.
  - apply Hfile. vm_compute. lia.
Defined.

(** ** C9: the module search path *)

Section Discovery.

Variable E : Env.

Lemma loadModule_loaded_from f w u w' :
  loadModule E f w = Done u w' → loaded_from E [f] w w'.
Proof.
  unfold loadModule, loaded_from.
  destruct (canonical E f) as [cp|] eqn:Hcanon; [|done]. run.
  destruct (_libraries (plugin w) !! cp).
  - intros [= _ <-] m Hm. by left.
  - destruct (Library_open E cp); [done|].
    intros [= _ <-] m Hm. cbn [opened with_opened with_plugin] in Hm.
    rewrite (proj2 (phase1_registry E _ _)) in Hm. cbn in Hm.
    apply elem_of_app in Hm as [Hm|Hm%list_elem_of_singleton]; [by left|].
    right. exists f. split; [apply list_elem_of_singleton|]; congruence.
Qed.

Lemma loaded_from_refl files w : loaded_from E files w w.
Proof. intros m Hm. by left. Qed.

Lemma loaded_from_log files msg w : loaded_from E files w (ZEEK_DEBUG msg w).
Proof. intros m Hm. by left. Qed.

Lemma loaded_from_trans files1 files2 w1 w2 w3 :
  loaded_from E files1 w1 w2 → loaded_from E files2 w2 w3 →
  loaded_from E (files1 ++ files2) w1 w3.
Proof.
  intros H12 H23 m Hm. destruct (H23 m Hm) as [Hm2|(f & Hf & Hc)].
  - destruct (H12 m Hm2) as [?|(f & Hf & Hc)]; [by left|].
    right. exists f. split; [apply elem_of_app|]; auto.
  - right. exists f. split; [apply elem_of_app|]; auto.
Qed.

(** A loop whose body at [x] loads from [files x] loads from their
    concatenation. *)
Lemma for_each_loaded_from {A} (body : A → M unit) (files : A → list string) l :
  (∀ x w u w', body x w = Done u w' → loaded_from E (files x) w w') →
  ∀ w u w', for_each body l w = Done u w' → loaded_from E (mjoin (files <$> l)) w w'.
Proof.
  intros Hbody. induction l as [|x l IH]; simpl; intros w u w' H.
  - injection H as _ <-. apply loaded_from_refl.
  - apply bind_Done in H as (? & w1 & H1 & H2).
    eapply loaded_from_trans; eauto.
Qed.

Lemma searchModules_loaded_from paths w u w' :
  searchModules E paths w = Done u w' → loaded_from E (module_files E paths) w w'.
Proof.
  unfold searchModules, module_files. apply for_each_loaded_from.
  clear. intros dir w u w'. unfold search_directory. cbv zeta.
  case_bool_decide; [intros [= _ <-]; apply loaded_from_refl|].
  destruct (is_directory E (trim dir)); simpl;
    [|intros [= _ <-]; apply loaded_from_log].
  intros Hrun. apply bind_Done in Hrun as (? & w1 & H1 & Hrun). injection H1 as _ <-.
  intros m Hm.
  assert (loaded_from E
            (mjoin ((λ e, if is_regular_file e
                                && bool_decide (extension E (entry_path e) = ".hlto")
                           then [entry_path e] else [])
                       <$> recursive_directory_iterator E (trim dir)))
            (ZEEK_DEBUG ("Searching " +:+ trim dir +:+ " for *.hlto") w) w') as Hloaded.
  { revert Hrun. apply for_each_loaded_from. intros e wa ua wb.
    destruct (is_regular_file e && _);
      [apply loadModule_loaded_from|intros [= _ <-]; apply loaded_from_refl]. }
  destruct (Hloaded m Hm) as [?|(f & Hf & Hc)]; [by left|].
  right. exists f. split; [|done].
  apply list_elem_of_join in Hf as (fs & Hf & Hfs).
  apply list_elem_of_fmap in Hfs as (e & -> & He).
  destruct (is_regular_file e) eqn:Hreg; simpl in Hf; [|by apply elem_of_nil in Hf].
  case_bool_decide as Hext; [|by apply elem_of_nil in Hf].
  apply list_elem_of_singleton in Hf as ->.
  apply list_elem_of_fmap. exists e. split; [done|].
  apply list_elem_of_filter. done.
Qed.

End Discovery.

(** C9: when [SPICY_MODULE_PATH] is set and not empty, [autoDiscoverModules]
    is the search of that list and nothing else, whatever the configured
    module directory and the host's plugin path are, and every module it
    opens is a module file found under a directory of that list; when the
    variable is unset or empty, it is the search of the configured module
    directory followed by the search of the host's plugin path, and every
    module it opens is found under a directory of one of these two. *)
Theorem C9_search_path_override_is_exclusive
    (E : Env) (module_directory plugin_path : string) (w : World) :
  (∀ search_paths,
     getenv E "SPICY_MODULE_PATH" = Some search_paths → search_paths ≠ "" →
     autoDiscoverModules (with_defaults E module_directory plugin_path)
     = searchModules E search_paths ∧
     ∀ u w', autoDiscoverModules (with_defaults E module_directory plugin_path) w = Done u w' →
             loaded_from E (module_files E search_paths) w w') ∧
  (getenv E "SPICY_MODULE_PATH" = None ∨ getenv E "SPICY_MODULE_PATH" = Some "" →
   autoDiscoverModules (with_defaults E module_directory plugin_path)
   = (searchModules E module_directory;; searchModules E plugin_path) ∧
   ∀ u w', autoDiscoverModules (with_defaults E module_directory plugin_path) w = Done u w' →
           loaded_from E (module_files E module_directory ++ module_files E plugin_path)
                       w w').
Proof.
  split.
  - intros search_paths Henv Hne.
    assert (autoDiscoverModules (with_defaults E module_directory plugin_path)
            = searchModules E search_paths) as ->.
    { unfold autoDiscoverModules. simpl. rewrite Henv. by rewrite bool_decide_eq_true_2. }
    split; [done|]. intros u w'. apply searchModules_loaded_from.
  - intros Henv.
    assert (autoDiscoverModules (with_defaults E module_directory plugin_path)
            = (searchModules E module_directory;; searchModules E plugin_path)) as ->.
    { destruct Henv as [Henv|Henv]; unfold autoDiscoverModules; simpl; rewrite Henv; [done|].
      by rewrite bool_decide_eq_false_2 by (intros H; by apply H). }
    split; [done|]. intros u w' H.
    apply bind_Done in H as (? & w1 & H1 & H2).
    eapply loaded_from_trans; eauto using searchModules_loaded_from.
Qed.

Lemma C9_search_path_override_is_exclusive_witness :
  autoDiscoverModules (with_defaults modules_env "/Y" "/Z") (initial_world no_host)
  = searchModules modules_env "/modules" (initial_world no_host) ∧
  ∃ w', searchModules modules_env "/modules" (initial_world no_host) = Done () w' ∧
        opened w' = ["/modules/a.hlto"].
Proof.
  split.
  - rewrite (proj1 (proj1 (C9_search_path_override_is_exclusive modules_env "/Y" "/Z"
                             (initial_world no_host))
                          "/modules" eq_refl ltac:(discriminate))).
    reflexivity.
  - eexists. split; [vm_compute; reflexivity|reflexivity].
Defined.

(** * Further properties *)

(** ** Registrations: what they leave alone and the invariant they keep *)

Section RegistrationFrame.

Variable E : Env.

Lemma registerProtocolAnalyzer_unsupported name proto ports po pr replaces ty w :
  proto ≠ TCP → proto ≠ UDP →
  plugin (registerProtocolAnalyzer name proto ports po pr replaces ty w) = plugin w.
Proof.
  intros Htcp Hudp. unfold registerProtocolAnalyzer.
  destruct proto; try done; by repeat case_bool_decide.
Qed.

Lemma registerProtocolAnalyzer_frame name proto ports po pr replaces ty w :
  let w' := registerProtocolAnalyzer name proto ports po pr replaces ty w in
  _file_analyzers_by_type (plugin w') = _file_analyzers_by_type (plugin w) ∧
  _packet_analyzers_by_type (plugin w') = _packet_analyzers_by_type (plugin w) ∧
  _libraries (plugin w') = _libraries (plugin w) ∧
  opened w' = opened w ∧
  file_mgr (host w') = file_mgr (host w) ∧
  packet_mgr (host w') = packet_mgr (host w) ∧
  registered_ports (host w') = registered_ports (host w) ∧
  event_queue (host w') = event_queue (host w).
Proof.
  cbv zeta. unfold registerProtocolAnalyzer.
  destruct proto; by repeat case_bool_decide.
Qed.

Lemma registerFileAnalyzer_frame name mts parser replaces ty w :
  let w' := registerFileAnalyzer E name mts parser replaces ty w in
  _protocol_analyzers_by_type (plugin w') = _protocol_analyzers_by_type (plugin w) ∧
  _packet_analyzers_by_type (plugin w') = _packet_analyzers_by_type (plugin w) ∧
  _libraries (plugin w') = _libraries (plugin w) ∧
  opened w' = opened w ∧
  analyzer_mgr (host w') = analyzer_mgr (host w) ∧
  packet_mgr (host w') = packet_mgr (host w) ∧
  registered_ports (host w') = registered_ports (host w) ∧
  event_queue (host w') = event_queue (host w).
Proof.
  cbv zeta. unfold registerFileAnalyzer.
  by repeat case_bool_decide; try destruct (Lookup_name _ _).
Qed.

Lemma registerPacketAnalyzer_frame name parser ty w :
  let w' := registerPacketAnalyzer name parser ty w in
  _protocol_analyzers_by_type (plugin w') = _protocol_analyzers_by_type (plugin w) ∧
  _file_analyzers_by_type (plugin w') = _file_analyzers_by_type (plugin w) ∧
  _libraries (plugin w') = _libraries (plugin w) ∧
  opened w' = opened w ∧
  analyzer_mgr (host w') = analyzer_mgr (host w) ∧
  file_mgr (host w') = file_mgr (host w) ∧
  registered_ports (host w') = registered_ports (host w) ∧
  event_queue (host w') = event_queue (host w).
Proof. done. Qed.

(** What a slot of [v.resize(t + 1); v[t] = x] holds. *)
Lemma resize_store_lookup {A} (d x : A) t v i y :
  <[t := x]> (resize (t + 1) d v) !! i = Some y →
  (i = t ∧ y = x) ∨ (i < t ∧ v !! i = Some y) ∨ (i < t ∧ length v ≤ i ∧ y = d).
Proof.
  intros Hi. assert (i < t + 1) as Hlt.
  { apply lookup_lt_Some in Hi. by rewrite resize_store_length in Hi. }
  destruct (decide (i = t)) as [->|Hne].
  - rewrite resize_store_eq in Hi. left. split; congruence.
  - right. destruct (decide (i < length v)) as [Hv|Hv].
    + left. rewrite resize_store_below in Hi by lia. split; [lia|done].
    + right. rewrite resize_store_fresh in Hi by lia. split_and!; [lia|lia|congruence].
Qed.

Lemma register_indexed_by_type r w :
  indexed_by_type (plugin w) → indexed_by_type (plugin (register E r w)).
Proof.
  intros (Hprotocol & Hfile & Hpacket).
  destruct r as [name proto ports po pr replaces ty|name mts parser replaces ty|name parser ty];
    cbn [register].
  - destruct (registerProtocolAnalyzer_frame name proto ports po pr replaces ty w)
      as (Hf & Hk & _).
    split_and!; [|by rewrite Hf|by rewrite Hk].
    destruct (decide (proto = TCP ∨ proto = UDP)) as [Hproto|Hproto].
    + destruct (registerProtocolAnalyzer_table name proto ports po pr replaces ty w Hproto)
        as [r ->].
      intros i a [[-> ->]|[[_ Hi]|(_ & _ & ->)]]%resize_store_lookup; eauto.
    + rewrite registerProtocolAnalyzer_unsupported; [done|..]; intros ->; apply Hproto; auto.
  - destruct (registerFileAnalyzer_frame name mts parser replaces ty w) as (Hp & Hk & _).
    split_and!; [by rewrite Hp| |by rewrite Hk].
    destruct (registerFileAnalyzer_table E name mts parser replaces ty w) as [r ->].
    intros i a [[-> ->]|[[_ Hi]|(_ & _ & ->)]]%resize_store_lookup; eauto.
  - split_and!; [done|done|].
    rewrite registerPacketAnalyzer_table.
    intros i a [[-> ->]|[[_ Hi]|(_ & _ & ->)]]%resize_store_lookup; eauto.
Qed.

Lemma phase1_indexed_by_type rs w :
  indexed_by_type (plugin w) → indexed_by_type (plugin (phase1 E rs w)).
Proof.
  unfold phase1. revert w. induction rs as [|r rs IH]; intros w Hw; simpl; [done|].
  by apply IH, register_indexed_by_type.
Qed.

End RegistrationFrame.

Section TableInvariant.

Variable E : Env.

Lemma indexed_by_type_empty : indexed_by_type empty_plugin.
Proof. by split_and!; intros i a Hi. Qed.

Lemma InitPostScript_indexed_by_type w u w' :
  InitPostScript E w = Done u w' →
  indexed_by_type (plugin w) → indexed_by_type (plugin w').
Proof.
  intros (Hprotocol & Hfile & Hpacket)%InitPostScript_Done (Hp & Hf & Hk). split_and!.
  - intros i a' Hi.
    destruct (Forall2_lookup_r _ _ _ _ _ Hprotocol Hi) as (a & Ha & HR).
    apply protocol_resolved_set in HR as (-> & _). eauto.
  - intros i a' Hi.
    destruct (Forall2_lookup_r _ _ _ _ _ Hfile Hi) as (a & Ha & HR).
    apply file_resolved_set in HR as (-> & _). eauto.
  - destruct (HAVE_PACKET_ANALYZERS E); [|by rewrite Hpacket].
    intros i a' Hi.
    destruct (Forall2_lookup_r _ _ _ _ _ Hpacket Hi) as (a & Ha & HR).
    apply packet_resolved_set in HR as (-> & _). eauto.
Qed.

End TableInvariant.

(** X1: the type id is the index.  If every slot of the three tables is
    unset or holds a descriptor whose [type] is the slot's index, this is
    still so after any sequence of registrations, whatever types the host
    hands out and in whatever order, and after a phase 2 that completes. *)
Theorem X1_tables_stay_indexed_by_type (E : Env) (rs : list Registration) (w : World) :
  indexed_by_type (plugin w) →
  indexed_by_type (plugin (phase1 E rs w)) ∧
  ∀ u w', InitPostScript E (phase1 E rs w) = Done u w' → indexed_by_type (plugin w').
Proof.
  intros Hw. split; [by apply phase1_indexed_by_type|].
  intros u w' Hrun. eapply InitPostScript_indexed_by_type; [done|].
  by apply phase1_indexed_by_type.
Qed.

Lemma X1_tables_stay_indexed_by_type_witness :
  indexed_by_type
    (plugin (phase1 (plain_env 40100 [])
                    [RegisterFile "A" [] "a::Parser" "" 5; RegisterFile "B" [] "b::Parser" "" 3;
                     RegisterPacket "C" "c::Parser" 2]
                    (initial_world no_host))).
Proof.
  apply (X1_tables_stay_indexed_by_type (plain_env 40100 []) _ (initial_world no_host)).
  apply indexed_by_type_empty.
Defined.

(** ** Registrations: the descriptor stored and the host's components *)

Section RegistrationEffects.

Variable E : Env.

(** The tag a protocol registration records for [replaces]. *)
Lemma registerProtocolAnalyzer_stored name proto ports po pr replaces ty w :
  proto = TCP ∨ proto = UDP →
  let r := if bool_decide (String.length replaces ≠ 0)
           then GetComponentTag replaces (analyzer_mgr (host w)) else 0 in
  let w' := registerProtocolAnalyzer name proto ports po pr replaces ty w in
  _protocol_analyzers_by_type (plugin w') !! ty
    = Some (ProtocolAnalyzerInfo.Build name po pr replaces ("<Spicy-" +:+ name +:+ ">")
                                       proto ports ty r None None) ∧
  analyzer_mgr (host w')
    = new_component name ty (if bool_decide (r ≠ 0)
                             then SetEnabled r false (analyzer_mgr (host w))
                             else analyzer_mgr (host w)).
Proof.
  intros Hproto. cbv zeta. unfold registerProtocolAnalyzer.
  change (host (ZEEK_DEBUG ("Have Spicy protocol analyzer " +:+ name) w)) with (host w).
  destruct (bool_decide (String.length replaces ≠ 0)).
  - destruct (bool_decide (GetComponentTag replaces (analyzer_mgr (host w)) ≠ 0)) eqn:Hr.
    + destruct Hproto as [-> | ->]; simpl; (split; [apply resize_store_eq|done]).
    + apply bool_decide_eq_false in Hr.
      assert (GetComponentTag replaces (analyzer_mgr (host w)) = 0) as -> by lia.
      destruct Hproto as [-> | ->]; simpl; (split; [apply resize_store_eq|done]).
  - destruct Hproto as [-> | ->]; simpl; (split; [apply resize_store_eq|done]).
Qed.

(** The tag a file registration records for [replaces]. *)
Lemma registerFileAnalyzer_stored name mts parser replaces ty w :
  let r := if bool_decide (40100 ≤ ZEEK_VERSION_NUMBER E)%Z
              && bool_decide (String.length replaces ≠ 0)
           then match Lookup_name replaces (file_mgr (host w)) with
                | Some component => Some (c_tag component)
                | None => None
                end
           else None in
  let w' := registerFileAnalyzer E name mts parser replaces ty w in
  _file_analyzers_by_type (plugin w') !! ty
    = Some (FileAnalyzerInfo.Build name parser replaces ("<Spicy-" +:+ name +:+ ">")
                                   mts ty (default 0 r) None) ∧
  file_mgr (host w')
    = new_component name ty (match r with
                             | Some t => SetEnabled t false (file_mgr (host w))
                             | None => file_mgr (host w)
                             end).
Proof.
  cbv zeta. unfold registerFileAnalyzer.
  change (host (ZEEK_DEBUG ("Have Spicy file analyzer " +:+ name) w)) with (host w).
  destruct (bool_decide (40100 ≤ ZEEK_VERSION_NUMBER E)%Z); simpl;
    [|split; [apply resize_store_eq|done]].
  destruct (bool_decide (String.length replaces ≠ 0)); simpl;
    [|split; [apply resize_store_eq|done]].
  destruct (Lookup_name replaces (file_mgr (host w))); simpl;
    (split; [apply resize_store_eq|done]).
Qed.

Lemma new_component_components n ty cs :
  (λ c, (c_name c, c_tag c)) <$> new_component n ty cs
  = ((λ c, (c_name c, c_tag c)) <$> cs) ++ [(n, ty)].
Proof. unfold new_component. by rewrite fmap_app. Qed.

(** A new component and the disabling of the analyzer [r] leave the state of
    every other known analyzer as it was. *)
Lemma enabled_after_registration n ty (r : option nat) cs t :
  is_Some (Lookup_tag t cs) → r ≠ Some t →
  enabled t (new_component n ty (match r with
                                 | Some r => SetEnabled r false cs
                                 | None => cs
                                 end)) = enabled t cs.
Proof.
  intros Hknown Hne. destruct r as [r|].
  - rewrite enabled_new_component by (by apply Lookup_tag_SetEnabled).
    apply enabled_SetEnabled_ne. congruence.
  - by apply enabled_new_component.
Qed.

End RegistrationEffects.

(** X2: what a registration does to the host.  A protocol registration over
    TCP or UDP, a file registration and a packet registration each add
    exactly one component, with the analyzer's name and the new tag, after the
    components the manager had; the state of every analyzer the manager knew,
    other than the one recorded as replaced in the stored descriptor, is as
    before; and when no component had the new tag, the new analyzer is
    enabled. *)
Theorem X2_registration_adds_one_component
    (E : Env) (w : World) (ty : Tag) (name : string)
    (proto : Protocol) (ports : list Port) (parser_orig parser_resp replaces : string)
    (mts : list string) (parser : string) :
  proto = TCP ∨ proto = UDP →
  (let w' := registerProtocolAnalyzer name proto ports parser_orig parser_resp replaces ty w in
   (λ c, (c_name c, c_tag c)) <$> analyzer_mgr (host w')
     = ((λ c, (c_name c, c_tag c)) <$> analyzer_mgr (host w)) ++ [(name, ty)] ∧
   (∀ info t, _protocol_analyzers_by_type (plugin w') !! ty = Some info →
              is_Some (Lookup_tag t (analyzer_mgr (host w))) →
              t ≠ ProtocolAnalyzerInfo.replaces info →
              enabled t (analyzer_mgr (host w')) = enabled t (analyzer_mgr (host w))) ∧
   (Lookup_tag ty (analyzer_mgr (host w)) = None →
    enabled ty (analyzer_mgr (host w')) = Some true)) ∧
  (let w' := registerFileAnalyzer E name mts parser replaces ty w in
   (λ c, (c_name c, c_tag c)) <$> file_mgr (host w')
     = ((λ c, (c_name c, c_tag c)) <$> file_mgr (host w)) ++ [(name, ty)] ∧
   (∀ info t, _file_analyzers_by_type (plugin w') !! ty = Some info →
              is_Some (Lookup_tag t (file_mgr (host w))) →
              t ≠ FileAnalyzerInfo.replaces info →
              enabled t (file_mgr (host w')) = enabled t (file_mgr (host w))) ∧
   (Lookup_tag ty (file_mgr (host w)) = None →
    enabled ty (file_mgr (host w')) = Some true)) ∧
  (let w' := registerPacketAnalyzer name parser ty w in
   packet_mgr (host w')
     = packet_mgr (host w) ++ [{| c_name := name; c_tag := ty; c_enabled := true |}]).
Proof.
  intros Hproto. split_and!; cbv zeta; [| |done].
  - destruct (registerProtocolAnalyzer_stored name proto ports parser_orig parser_resp
                replaces ty w Hproto) as [Hinfo Hhost].
    cbv zeta in Hinfo, Hhost. rewrite Hhost, Hinfo. clear Hinfo Hhost.
    set (r := if bool_decide (String.length replaces ≠ 0)
              then GetComponentTag replaces (analyzer_mgr (host w)) else 0).
    clearbody r. destruct (bool_decide (r ≠ 0)) eqn:Hr.
    + split_and!.
      * rewrite new_component_components. by rewrite SetEnabled_components.
      * intros info t [= <-] Hknown Hne. simpl in Hne.
        by apply (enabled_after_registration name ty (Some r)); [|congruence].
      * intros Hfresh. apply enabled_new_component_fresh.
        destruct (Lookup_tag ty (SetEnabled r false (analyzer_mgr (host w)))) eqn:Hl; [|done].
        assert (is_Some (Lookup_tag ty (analyzer_mgr (host w)))) as [? ?]; [|congruence].
        apply (Lookup_tag_SetEnabled r ty false). eauto.
    + split_and!.
      * by rewrite new_component_components.
      * intros info t [= <-] Hknown Hne.
        by apply (enabled_after_registration name ty None).
      * intros Hfresh. by apply enabled_new_component_fresh.
  - destruct (registerFileAnalyzer_stored E name mts parser replaces ty w) as [Hinfo Hhost].
    cbv zeta in Hinfo, Hhost. rewrite Hhost, Hinfo. clear Hinfo Hhost.
    set (r := if bool_decide (40100 ≤ ZEEK_VERSION_NUMBER E)%Z
                 && bool_decide (String.length replaces ≠ 0)
              then match Lookup_name replaces (file_mgr (host w)) with
                   | Some component => Some (c_tag component)
                   | None => None
                   end
              else None).
    clearbody r. split_and!.
    + rewrite new_component_components. by destruct r; rewrite ?SetEnabled_components.
    + intros info t [= <-] Hknown Hne. simpl in Hne.
      apply enabled_after_registration; [done|]. destruct r; simpl in Hne; congruence.
    + intros Hfresh. apply enabled_new_component_fresh.
      destruct r as [r|]; [|done].
      destruct (Lookup_tag ty (SetEnabled r false (file_mgr (host w)))) eqn:Hl; [|done].
      assert (is_Some (Lookup_tag ty (file_mgr (host w)))) as [? ?]; [|congruence].
      apply (Lookup_tag_SetEnabled r ty false). eauto.
Qed.

Lemma X2_registration_adds_one_component_witness :
  let w := initial_world host_with_OLD in
  let w' := registerProtocolAnalyzer "FOO" UDP [] "foo::Parser" "" "OLD" 2 w in
  (λ c, (c_name c, c_tag c)) <$> analyzer_mgr (host w') = [("OLD", 1); ("FOO", 2)] ∧
  enabled 2 (analyzer_mgr (host w')) = Some true.
Proof.
  intros w w'.
  destruct (X2_registration_adds_one_component (plain_env 40100 []) w 2 "FOO" UDP []
              "foo::Parser" "" "OLD" [] "" (or_intror eq_refl))
    as ((Hcomponents & _ & Hnew) & _).
  split; [exact Hcomponents|]. apply Hnew. reflexivity.
Defined.

(** ** The tag and parser lookups *)

Section Lookups.

Variable E : Env.

Lemma tagForProtocolAnalyzer_in_range tag w info :
  _protocol_analyzers_by_type (plugin w) !! tag = Some info →
  tagForProtocolAnalyzer tag w
  = Done (if bool_decide (ProtocolAnalyzerInfo.replaces info ≠ 0)
          then ProtocolAnalyzerInfo.replaces info else tag) w.
Proof.
  intros Hinfo. unfold tagForProtocolAnalyzer. run. rewrite Hinfo.
  by destruct (bool_decide _).
Qed.

Lemma tagForFileAnalyzer_in_range tag w info :
  _file_analyzers_by_type (plugin w) !! tag = Some info →
  tagForFileAnalyzer tag w
  = Done (if bool_decide (FileAnalyzerInfo.replaces info ≠ 0)
          then FileAnalyzerInfo.replaces info else tag) w.
Proof.
  intros Hinfo. unfold tagForFileAnalyzer. run. rewrite Hinfo.
  by destruct (bool_decide _).
Qed.

Lemma parserForPacketAnalyzer_in_range tag w info :
  _packet_analyzers_by_type (plugin w) !! tag = Some info →
  parserForPacketAnalyzer tag w = Done (PacketAnalyzerInfo.parser info) w.
Proof. intros Hinfo. unfold parserForPacketAnalyzer. run. by rewrite Hinfo. Qed.

End Lookups.

(** X3: the tag an analyzer stands for.  Right after its registration, the
    tag of a protocol analyzer (over TCP or UDP) maps to the tag of the
    analyzer it replaces when [replaces] is not empty and the host knows that
    name with a non-empty tag, and to itself otherwise; the same holds for a
    file analyzer in a build for Zeek 4.1 or later, while in an older build
    its tag always maps to itself; the tag of a packet analyzer always maps
    to itself.  For a type at or beyond the size of the table the protocol
    and file lookups have no defined result. *)
Theorem X3_tag_of_replaced_analyzer
    (E : Env) (w : World) (ty : Tag) (name : string)
    (proto : Protocol) (ports : list Port) (parser_orig parser_resp replaces : string)
    (mts : list string) (parser : string) :
  proto = TCP ∨ proto = UDP →
  (let w' := registerProtocolAnalyzer name proto ports parser_orig parser_resp replaces ty w in
   let r := GetComponentTag replaces (analyzer_mgr (host w)) in
   tagForProtocolAnalyzer ty w'
   = Done (if bool_decide (replaces ≠ "" ∧ r ≠ 0) then r else ty) w') ∧
  (let w' := registerFileAnalyzer E name mts parser replaces ty w in
   tagForFileAnalyzer ty w'
   = Done (match Lookup_name replaces (file_mgr (host w)) with
           | Some component =>
               if bool_decide ((40100 ≤ ZEEK_VERSION_NUMBER E)%Z ∧ replaces ≠ "" ∧
                               c_tag component ≠ 0)
               then c_tag component else ty
           | None => ty
           end) w') ∧
  (let w' := registerPacketAnalyzer name parser ty w in
   tagForPacketAnalyzer ty w' = Done ty w') ∧
  (∀ tag, length (_protocol_analyzers_by_type (plugin w)) ≤ tag →
          tagForProtocolAnalyzer tag w = Undefined) ∧
  (∀ tag, length (_file_analyzers_by_type (plugin w)) ≤ tag →
          tagForFileAnalyzer tag w = Undefined).
Proof.
  intros Hproto.
  assert (∀ s : string, String.length s ≠ 0 ↔ s ≠ "") as Hlen.
  { intros s. by destruct s. }
  split_and!; cbv zeta.
  - destruct (registerProtocolAnalyzer_stored name proto ports parser_orig parser_resp
                replaces ty w Hproto) as [Hinfo _].
    cbv zeta in Hinfo. rewrite (tagForProtocolAnalyzer_in_range _ _ _ Hinfo).
    cbn [ProtocolAnalyzerInfo.replaces]. clear Hinfo. f_equal.
    specialize (Hlen replaces).
    generalize dependent (GetComponentTag replaces (analyzer_mgr (host w))). intros r.
    repeat case_bool_decide; try done; exfalso; tauto.
  - destruct (registerFileAnalyzer_stored E name mts parser replaces ty w) as [Hinfo _].
    cbv zeta in Hinfo. rewrite (tagForFileAnalyzer_in_range _ _ _ Hinfo).
    cbn [FileAnalyzerInfo.replaces]. clear Hinfo. f_equal.
    specialize (Hlen replaces).
    destruct (Lookup_name replaces (file_mgr (host w))) as [c|];
      repeat case_bool_decide; simpl in *; try done;
      repeat case_bool_decide; try done; exfalso; tauto.
  - done.
  - intros tag Hlen'%lookup_ge_None. unfold tagForProtocolAnalyzer. run. by rewrite Hlen'.
  - intros tag Hlen'%lookup_ge_None. unfold tagForFileAnalyzer. run. by rewrite Hlen'.
Qed.

Lemma X3_tag_of_replaced_analyzer_witness :
  let w := initial_world host_with_OLD in
  let w' := registerProtocolAnalyzer "FOO" TCP [] "foo::Parser" "" "OLD" 2 w in
  let w'' := registerProtocolAnalyzer "BAR" TCP [] "bar::Parser" "" "NONE" 3 w in
  tagForProtocolAnalyzer 2 w' = Done 1 w' ∧
  tagForProtocolAnalyzer 3 w'' = Done 3 w''.
Proof.
  intros w w' w''. split.
  - apply (proj1 (X3_tag_of_replaced_analyzer (plain_env 40100 []) w 2 "FOO" TCP []
                    "foo::Parser" "" "OLD" [] "" (or_introl eq_refl))).
  - apply (proj1 (X3_tag_of_replaced_analyzer (plain_env 40100 []) w 3 "BAR" TCP []
                    "bar::Parser" "" "NONE" [] "" (or_introl eq_refl))).
Defined.

(** X4: the parser an analyzer gets.  After a phase 2 that completed, for a
    descriptor whose [type] is not 0 and whose declared parser name is not
    empty, the parser lookup of its kind returns a parser of the runtime
    with exactly the declared name: the originator-side or the
    responder-side one for a protocol analyzer, and for a packet analyzer in
    a build with packet analyzers. *)
Theorem X4_lookup_returns_declared_parser
    (E : Env) (w : World) (u : ()) (w' : World) (tag : Tag) (is_orig : bool) :
  InitPostScript E w = Done u w' →
  (∀ info, _protocol_analyzers_by_type (plugin w') !! tag = Some info →
           ProtocolAnalyzerInfo.type info ≠ 0 →
           let n := if is_orig then ProtocolAnalyzerInfo.name_parser_orig info
                    else ProtocolAnalyzerInfo.name_parser_resp info in
           n ≠ "" →
           ∃ p, parserForProtocolAnalyzer tag is_orig w' = Done (Some p) w' ∧
                parser_name p = n ∧ p ∈ parsers E) ∧
  (∀ info, _file_analyzers_by_type (plugin w') !! tag = Some info →
           FileAnalyzerInfo.type info ≠ 0 →
           FileAnalyzerInfo.name_parser info ≠ "" →
           ∃ p, parserForFileAnalyzer tag w' = Done (Some p) w' ∧
                parser_name p = FileAnalyzerInfo.name_parser info ∧ p ∈ parsers E) ∧
  (HAVE_PACKET_ANALYZERS E = true →
   ∀ info, _packet_analyzers_by_type (plugin w') !! tag = Some info →
           PacketAnalyzerInfo.type info ≠ 0 →
           PacketAnalyzerInfo.name_parser info ≠ "" →
           ∃ p, parserForPacketAnalyzer tag w' = Done (Some p) w' ∧
                parser_name p = PacketAnalyzerInfo.name_parser info ∧ p ∈ parsers E).
Proof.
  intros (Hprotocol & Hfile & Hpacket)%InitPostScript_resolved.
  assert (∀ n r, n ≠ "" → resolved E n r →
                 ∃ p, r = Some p ∧ parser_name p = n ∧ p ∈ parsers E) as Hres.
  { intros n r Hn. unfold resolved. by rewrite decide_False. }
  split_and!.
  - intros info Hinfo Hty n Hn. subst n.
    rewrite (parserForProtocolAnalyzer_in_range _ _ _ _ Hinfo).
    destruct (Hprotocol _ _ Hinfo Hty) as [Hpo Hpr].
    destruct is_orig.
    + destruct (Hres _ _ Hn Hpo) as (p & -> & ? & ?). eauto.
    + destruct (Hres _ _ Hn Hpr) as (p & -> & ? & ?). eauto.
  - intros info Hinfo Hty Hn.
    rewrite (parserForFileAnalyzer_in_range _ _ _ Hinfo).
    destruct (Hres _ _ Hn (Hfile _ _ Hinfo Hty)) as (p & -> & ? & ?). eauto.
  - intros Hhave info Hinfo Hty Hn.
    rewrite (parserForPacketAnalyzer_in_range _ _ _ Hinfo).
    destruct (Hres _ _ Hn (Hpacket Hhave _ _ Hinfo Hty)) as (p & -> & ? & ?). eauto.
Qed.

Lemma X4_lookup_returns_declared_parser_witness :
  let E := plain_env 40100 [foo_parser; bar_parser] in
  let w := phase1 E [RegisterPacket "PKT" "bar::Parser" 1;
                     RegisterProtocol "FOO" TCP [] "" "foo::Parser" "" 1]
                  (initial_world no_host) in
  ∃ w', InitPostScript E w = Done () w' ∧
        (∃ p, parserForProtocolAnalyzer 1 false w' = Done (Some p) w' ∧
              parser_name p = "foo::Parser") ∧
        (∃ p, parserForPacketAnalyzer 1 w' = Done (Some p) w' ∧
              parser_name p = "bar::Parser").
Proof.
  intros E w.
  destruct (InitPostScript E w) as [[] w'| |] eqn:Hrun; [|by vm_compute in Hrun..].
  exists w'. split; [reflexivity|].
  destruct (X4_lookup_returns_declared_parser E w () w' 1 false Hrun)
    as (Hprotocol & _ & Hpacket).
  vm_compute in Hrun. injection Hrun as <-.
  split.
  - edestruct Hprotocol as (p & Hp & Hname & _); [reflexivity|discriminate|discriminate|].
    exists p. split; [exact Hp|exact Hname].
  - edestruct (Hpacket eq_refl) as (p & Hp & Hname & _);
      [reflexivity|discriminate|discriminate|].
    exists p. split; [exact Hp|exact Hname].
Defined.

(** ** Toggling: results, frame and order *)

Section ToggleAlgebra.

Implicit Types (cs : list Component) (b : bool).

Lemma SetEnabled_SetEnabled t b b' cs :
  SetEnabled t b' (SetEnabled t b cs) = SetEnabled t b' cs.
Proof.
  induction cs as [|c cs IH]; simpl; [done|].
  case_bool_decide as Hc; simpl.
  - by rewrite bool_decide_eq_true_2.
  - rewrite bool_decide_eq_false_2 by done. by rewrite IH.
Qed.

Lemma SetEnabled_comm t r b b' cs :
  t ≠ r → SetEnabled t b (SetEnabled r b' cs) = SetEnabled r b' (SetEnabled t b cs).
Proof.
  intros Hne. induction cs as [|c cs IH]; simpl; [done|].
  destruct (decide (c_tag c = r)) as [Hr|Hr], (decide (c_tag c = t)) as [Ht|Ht];
    rewrite ?(bool_decide_eq_true_2 _ Hr), ?(bool_decide_eq_false_2 _ Hr),
            ?(bool_decide_eq_true_2 _ Ht), ?(bool_decide_eq_false_2 _ Ht); simpl;
    rewrite ?(bool_decide_eq_true_2 _ Hr), ?(bool_decide_eq_false_2 _ Hr),
            ?(bool_decide_eq_true_2 _ Ht), ?(bool_decide_eq_false_2 _ Ht);
    [congruence|done|done|by rewrite IH].
Qed.

End ToggleAlgebra.

Lemma toggled_toggled tag r enable enable' cs :
  toggled tag r enable' (toggled tag r enable cs) = toggled tag r enable' cs.
Proof.
  unfold toggled. case_bool_decide; [|apply SetEnabled_SetEnabled].
  destruct (decide (tag = r)) as [->|Hne].
  - by rewrite !SetEnabled_SetEnabled.
  - rewrite (SetEnabled_comm tag r enable') by done.
    by rewrite !SetEnabled_SetEnabled.
Qed.

Lemma toggled_components tag r enable cs :
  (λ c, (c_name c, c_tag c)) <$> toggled tag r enable cs = (λ c, (c_name c, c_tag c)) <$> cs.
Proof. unfold toggled. by case_bool_decide; rewrite !SetEnabled_components. Qed.

Lemma toggled_other tag r enable cs t :
  t ≠ tag → t ≠ r → enabled t (toggled tag r enable cs) = enabled t cs.
Proof.
  intros Htag Hr. unfold toggled.
  case_bool_decide; rewrite !enabled_SetEnabled_ne by done; done.
Qed.

(** The protocol overload on a set descriptor. *)
Lemma toggleAnalyzer_protocol_set tag enable a w :
  _protocol_analyzers_by_type (plugin w) !! tag = Some a →
  ProtocolAnalyzerInfo.type a ≠ 0 →
  ∃ w', toggleAnalyzer_protocol tag enable w = Done true w' ∧
        plugin w' = plugin w ∧ opened w' = opened w ∧
        host w' = set_analyzer_mgr (toggled tag (ProtocolAnalyzerInfo.replaces a) enable)
                                   (host w).
Proof.
  intros Ha Hty. unfold toggleAnalyzer_protocol, toggled. run.
  rewrite bool_decide_eq_false_2 by (apply lookup_lt_Some in Ha; lia).
  rewrite Ha. rewrite bool_decide_eq_false_2 by done.
  destruct enable, (bool_decide (ProtocolAnalyzerInfo.replaces a ≠ 0));
    eexists; (split; [reflexivity|done]).
Qed.

(** X5: what the protocol toggle returns and what it leaves alone.  The call
    always returns: [true] exactly when the tag's type is within the table
    and the slot is set, [false] otherwise.  It never changes the plugin's
    state, never adds or removes a host component, never touches the file and
    packet managers, the registered ports or the event queue, and leaves the
    state of every analyzer other than the one toggled and the one its
    descriptor records as replaced as it was. *)
Theorem X5_protocol_toggle_result_and_frame (w : World) (tag : Tag) (enable : bool) :
  ∃ w', toggleAnalyzer_protocol tag enable w
        = Done (match _protocol_analyzers_by_type (plugin w) !! tag with
                | Some a => bool_decide (ProtocolAnalyzerInfo.type a ≠ 0)
                | None => false
                end) w' ∧
        plugin w' = plugin w ∧ opened w' = opened w ∧
        (λ c, (c_name c, c_tag c)) <$> analyzer_mgr (host w')
          = (λ c, (c_name c, c_tag c)) <$> analyzer_mgr (host w) ∧
        file_mgr (host w') = file_mgr (host w) ∧
        packet_mgr (host w') = packet_mgr (host w) ∧
        registered_ports (host w') = registered_ports (host w) ∧
        event_queue (host w') = event_queue (host w) ∧
        ∀ t, t ≠ tag →
             (∀ a, _protocol_analyzers_by_type (plugin w) !! tag = Some a →
                   t ≠ ProtocolAnalyzerInfo.replaces a) →
             enabled t (analyzer_mgr (host w')) = enabled t (analyzer_mgr (host w)).
Proof.
  destruct (_protocol_analyzers_by_type (plugin w) !! tag) as [a|] eqn:Ha.
  - destruct (decide (ProtocolAnalyzerInfo.type a = 0)) as [Hty|Hty].
    + exists w. rewrite bool_decide_eq_false_2 by (by intros ?).
      split; [|done]. apply toggleAnalyzer_protocol_unset. by rewrite Ha, <- Hty.
    + destruct (toggleAnalyzer_protocol_set tag enable a w Ha Hty)
        as (w' & Hrun & Hplugin & Hopened & Hhost).
      exists w'. rewrite bool_decide_eq_true_2 by done.
      rewrite Hhost. simpl. split_and!; try done.
      * apply toggled_components.
      * intros t Htag Hr. apply toggled_other; [done|]. by apply Hr.
  - exists w. split; [|done].
    apply toggleAnalyzer_protocol_out_of_range. by apply lookup_ge_None.
Qed.

Lemma X5_protocol_toggle_result_and_frame_witness :
  ∃ w', toggleAnalyzer_protocol 7 true (initial_world host_with_OLD) = Done false w' ∧
        plugin w' = empty_plugin ∧
        enabled 1 (analyzer_mgr (host w')) = Some true.
Proof.
  destruct (X5_protocol_toggle_result_and_frame (initial_world host_with_OLD) 7 true)
    as (w' & Hrun & Hplugin & _ & _ & _ & _ & _ & _ & Hothers).
  exists w'. split; [exact Hrun|]. split; [exact Hplugin|].
  rewrite (Hothers 1); [reflexivity|lia|]. intros a Ha. discriminate Ha.
Defined.

(** X6: the last toggle wins.  For a set protocol descriptor, toggling to
    [enable] and then to [enable'] leaves the host exactly as toggling to
    [enable'] alone does; in particular repeating a toggle changes nothing
    more, and neither call changes the plugin's state. *)
Theorem X6_last_protocol_toggle_wins
    (w : World) (tag : Tag) (enable enable' : bool) (a : ProtocolAnalyzerInfo.t) :
  _protocol_analyzers_by_type (plugin w) !! tag = Some a →
  ProtocolAnalyzerInfo.type a ≠ 0 →
  ∃ w1 w2 w3,
    toggleAnalyzer_protocol tag enable w = Done true w1 ∧
    toggleAnalyzer_protocol tag enable' w1 = Done true w2 ∧
    toggleAnalyzer_protocol tag enable' w = Done true w3 ∧
    host w2 = host w3 ∧ plugin w2 = plugin w ∧ plugin w3 = plugin w.
Proof.
  intros Ha Hty.
  destruct (toggleAnalyzer_protocol_set tag enable a w Ha Hty)
    as (w1 & Hrun1 & Hplugin1 & _ & Hhost1).
  destruct (toggleAnalyzer_protocol_set tag enable' a w1) as (w2 & Hrun2 & Hplugin2 & _ & Hhost2);
    [by rewrite Hplugin1|done|].
  destruct (toggleAnalyzer_protocol_set tag enable' a w Ha Hty)
    as (w3 & Hrun3 & Hplugin3 & _ & Hhost3).
  exists w1, w2, w3. split_and!; try done; [|congruence].
  rewrite Hhost2, Hhost3, Hhost1. unfold set_analyzer_mgr. simpl.
  by rewrite toggled_toggled.
Qed.

Lemma X6_last_protocol_toggle_wins_witness :
  let w := registerProtocolAnalyzer "FOO" TCP [] "foo::Parser" "" "OLD" 2
             (initial_world host_with_OLD) in
  ∃ w1 w2 w3,
    toggleAnalyzer_protocol 2 false w = Done true w1 ∧
    toggleAnalyzer_protocol 2 true w1 = Done true w2 ∧
    toggleAnalyzer_protocol 2 true w = Done true w3 ∧
    host w2 = host w3.
Proof.
  intros w.
  edestruct (X6_last_protocol_toggle_wins w 2 false true)
    as (w1 & w2 & w3 & H1 & H2 & H3 & Hhost & _);
    [reflexivity|simpl; lia|].
  exists w1, w2, w3. split_and!; [exact H1|exact H2|exact H3|exact Hhost].
Defined.

(** X7: the file toggle depends on the host.  For a set file descriptor: in a
    build for a Zeek older than 4.1 the call only logs that toggling is not
    supported and returns [false]; in a build for 4.1 or later it is fatal
    when the host has no component for the tag, and otherwise returns [true],
    leaves the plugin's state and the protocol analyzers alone, puts the
    analyzer in the state [enable] (when it is not recorded as its own
    replacement) and leaves every analyzer other than it and the recorded
    replacement as it was. *)
Theorem X7_file_toggle_by_host_version
    (E : Env) (w : World) (tag : Tag) (enable : bool) (a : FileAnalyzerInfo.t) :
  _file_analyzers_by_type (plugin w) !! tag = Some a →
  FileAnalyzerInfo.type a ≠ 0 →
  ((ZEEK_VERSION_NUMBER E < 40100)%Z →
   toggleAnalyzer_file E tag enable w
   = Done false (ZEEK_DEBUG ("supposed to toggle file analyzer "
                               +:+ FileAnalyzerInfo.name_analyzer a
                               +:+ ", but that is not supported by Zeek version") w)) ∧
  ((40100 ≤ ZEEK_VERSION_NUMBER E)%Z →
   Lookup_tag tag (file_mgr (host w)) = None →
   toggleAnalyzer_file E tag enable w = Fatal "failed to lookup file analyzer component") ∧
  ((40100 ≤ ZEEK_VERSION_NUMBER E)%Z →
   is_Some (Lookup_tag tag (file_mgr (host w))) →
   ∃ w', toggleAnalyzer_file E tag enable w = Done true w' ∧
         plugin w' = plugin w ∧
         analyzer_mgr (host w') = analyzer_mgr (host w) ∧
         (FileAnalyzerInfo.replaces a ≠ tag →
          enabled tag (file_mgr (host w')) = Some enable) ∧
         (∀ t, t ≠ tag → t ≠ FileAnalyzerInfo.replaces a →
               enabled t (file_mgr (host w')) = enabled t (file_mgr (host w)))).
Proof.
  intros Ha Hty.
  assert (¬ length (_file_analyzers_by_type (plugin w)) ≤ tag) as Hlen.
  { apply lookup_lt_Some in Ha. lia. }
  split_and!.
  - intros Hver. unfold toggleAnalyzer_file. run.
    rewrite (bool_decide_eq_false_2 _ Hlen), Ha, (bool_decide_eq_false_2 _ Hty).
    by rewrite bool_decide_eq_false_2 by lia.
  - intros Hver Hnone. unfold toggleAnalyzer_file. run.
    rewrite (bool_decide_eq_false_2 _ Hlen), Ha, (bool_decide_eq_false_2 _ Hty).
    by rewrite (bool_decide_eq_true_2 _ Hver), Hnone.
  - intros Hver [c Hc]. unfold toggleAnalyzer_file. run.
    rewrite (bool_decide_eq_false_2 _ Hlen), Ha, (bool_decide_eq_false_2 _ Hty).
    rewrite (bool_decide_eq_true_2 _ Hver), Hc, (Lookup_tag_Some _ _ _ Hc).
    assert (is_Some (Lookup_tag tag (file_mgr (host w)))) as Hknown by eauto.
    destruct (bool_decide (FileAnalyzerInfo.replaces a ≠ 0));
      [destruct (Lookup_tag (FileAnalyzerInfo.replaces a) (file_mgr (host w)))
         as [cr|] eqn:Hcr; [rewrite (Lookup_tag_Some _ _ _ Hcr)|]|];
      destruct enable; (eexists; split; [reflexivity|]); simpl;
      (split_and!; [done|done|intros Hne|intros t Ht Hr]);
      rewrite ?enabled_SetEnabled_ne by done;
      try done; by apply enabled_SetEnabled_eq.
Qed.

Lemma X7_file_toggle_by_host_version_witness :
  let old := plain_env 40000 [] in
  let new := plain_env 40100 [] in
  let w := registerFileAnalyzer new "FOO" [] "foo::Parser" "OLD" 2
             (initial_world host_with_OLD) in
  (∃ w', toggleAnalyzer_file old 2 true w = Done false w' ∧ host w' = host w) ∧
  (∃ w', toggleAnalyzer_file new 2 false w = Done true w' ∧
         enabled 2 (file_mgr (host w')) = Some false).
Proof.
  intros old new w.
  edestruct (X7_file_toggle_by_host_version old w 2 true) as (Hold & _);
    [reflexivity|simpl; lia|].
  edestruct (X7_file_toggle_by_host_version new w 2 false) as (_ & _ & Hnew);
    [reflexivity|simpl; lia|].
  split.
  - eexists. split; [apply Hold; reflexivity|reflexivity].
  - destruct Hnew as (w' & Hrun & _ & _ & Htag & _);
      [vm_compute; discriminate|vm_compute; eauto|].
    exists w'. split; [exact Hrun|]. apply Htag. simpl. lia.
Defined.

Lemma toggleAnalyzer_protocol_returns tag enable w :
  ∃ r w', toggleAnalyzer_protocol tag enable w = Done r w' ∧
          plugin w' = plugin w ∧ opened w' = opened w ∧
          packet_mgr (host w') = packet_mgr (host w) ∧
          (r = false → host w' = host w) ∧
          (r = true ↔ ∃ a, _protocol_analyzers_by_type (plugin w) !! tag = Some a ∧
                           ProtocolAnalyzerInfo.type a ≠ 0).
Proof.
  destruct (_protocol_analyzers_by_type (plugin w) !! tag) as [a|] eqn:Ha.
  - destruct (decide (ProtocolAnalyzerInfo.type a = 0)) as [Hty|Hty].
    + exists false, w. rewrite toggleAnalyzer_protocol_unset by (by rewrite Ha, <- Hty).
      split_and!; try done. split; [done|]. intros (a' & [= <-] & ?). done.
    + destruct (toggleAnalyzer_protocol_set tag enable a w Ha Hty)
        as (w' & Hrun & Hplugin & Hopened & Hhost).
      exists true, w'. split_and!; try done; [by rewrite Hhost|]. split; eauto.
  - exists false, w.
    rewrite toggleAnalyzer_protocol_out_of_range by (by apply lookup_ge_None).
    split_and!; try done. split; [done|]. by intros (a & ? & _).
Qed.

(** The file overload, for a tag the file manager knows. *)
Lemma toggleAnalyzer_file_returns E tag enable w :
  is_Some (Lookup_tag tag (file_mgr (host w))) →
  ∃ r w', toggleAnalyzer_file E tag enable w = Done r w' ∧
          plugin w' = plugin w ∧ opened w' = opened w ∧
          packet_mgr (host w') = packet_mgr (host w) ∧
          (r = false → host w' = host w) ∧
          (r = true ↔ (40100 ≤ ZEEK_VERSION_NUMBER E)%Z ∧
                      ∃ a, _file_analyzers_by_type (plugin w) !! tag = Some a ∧
                           FileAnalyzerInfo.type a ≠ 0).
Proof.
  intros [c Hc].
  destruct (_file_analyzers_by_type (plugin w) !! tag) as [a|] eqn:Ha.
  - destruct (decide (FileAnalyzerInfo.type a = 0)) as [Hty|Hty].
    + exists false, w. rewrite toggleAnalyzer_file_unset by (by rewrite Ha, <- Hty).
      split_and!; try done. split; [done|]. intros (_ & a' & [= <-] & ?). done.
    + unfold toggleAnalyzer_file. run.
      rewrite bool_decide_eq_false_2 by (apply lookup_lt_Some in Ha; lia).
      rewrite Ha, (bool_decide_eq_false_2 _ Hty).
      destruct (bool_decide (40100 ≤ ZEEK_VERSION_NUMBER E)%Z) eqn:Hver.
      * apply bool_decide_eq_true in Hver. rewrite Hc.
        destruct (bool_decide (FileAnalyzerInfo.replaces a ≠ 0));
          [destruct (Lookup_tag (FileAnalyzerInfo.replaces a) (file_mgr (host w)))|];
          destruct enable; (eexists true, _; split; [reflexivity|]);
          (split_and!; try done); split; eauto.
      * apply bool_decide_eq_false in Hver. eexists false, _. split; [reflexivity|].
        split_and!; try done. split; [done|]. by intros [? _].
  - exists false, w.
    rewrite toggleAnalyzer_file_out_of_range by (by apply lookup_ge_None).
    split_and!; try done. split; [done|]. by intros (_ & a & ? & _).
Qed.

(** X8: toggling by enum value always returns.  The entry point for enum
    values is never fatal and never reads a table out of range: it consults
    the analyzer manager for a value of the analyzer tag type and the file
    manager for a value of the file tag type or, when packet analyzers are
    compiled in, of the packet tag type, and only calls an overload for a tag
    its manager knows, so the internal error of the file overload cannot be
    reached through it.  It returns [true] exactly when that manager knows
    the value and the protocol table (for the analyzer tag type) or the file
    table in a build for Zeek 4.1 or later (for the other two) has a set
    slot for it.  It never changes the plugin's state or the packet
    manager, and when it returns [false] the host is as before. *)
Theorem X8_toggle_by_enum_value_always_returns
    (E : Env) (w : World) (tag : EnumVal) (enable : bool) :
  ∃ r w', toggleAnalyzer E tag enable w = Done r w' ∧
          plugin w' = plugin w ∧ opened w' = opened w ∧
          packet_mgr (host w') = packet_mgr (host w) ∧
          (r = false → host w' = host w) ∧
          (r = true ↔
           (GetType tag = AnalyzerTagType ∧
            is_Some (Lookup_tag (enum_value tag) (analyzer_mgr (host w))) ∧
            ∃ a, _protocol_analyzers_by_type (plugin w) !! enum_value tag = Some a ∧
                 ProtocolAnalyzerInfo.type a ≠ 0) ∨
           ((GetType tag = FileTagType ∨
             GetType tag = PacketTagType ∧ HAVE_PACKET_ANALYZERS E = true) ∧
            (40100 ≤ ZEEK_VERSION_NUMBER E)%Z ∧
            is_Some (Lookup_tag (enum_value tag) (file_mgr (host w))) ∧
            ∃ a, _file_analyzers_by_type (plugin w) !! enum_value tag = Some a ∧
                 FileAnalyzerInfo.type a ≠ 0)).
Proof.
  destruct tag as [ty v]. cbn [GetType enum_value].
  assert (∀ P : Prop, (false = true ↔ P) ↔ ¬ P) as Hfalse.
  { intros P. split; [intros [_ H] HP; by specialize (H HP)|by intros HnP; split]. }
  destruct ty; unfold toggleAnalyzer; cbn [GetType enum_value].
  - rewrite bool_decide_eq_true_2 by done. run.
    destruct (Lookup_tag v (analyzer_mgr (host w))) as [c|] eqn:Hc.
    + rewrite (Lookup_tag_Some _ _ _ Hc).
      destruct (toggleAnalyzer_protocol_returns v enable w)
        as (r & w' & Hrun & Hplugin & Hopened & Hpacket & Hhost & Hr).
      exists r, w'. split_and!; try done. rewrite Hr. split.
      * intros Ha. left. eauto.
      * intros [(_ & _ & Ha)|([[=]|[[=] _]] & _)]. done.
    + exists false, w. split_and!; try done. apply Hfalse.
      intros [(_ & [? [=]] & _)|([[=]|[[=] _]] & _)].
  - rewrite bool_decide_eq_false_2, bool_decide_eq_true_2 by done. run.
    destruct (Lookup_tag v (file_mgr (host w))) as [c|] eqn:Hc.
    + rewrite (Lookup_tag_Some _ _ _ Hc).
      destruct (toggleAnalyzer_file_returns E v enable w)
        as (r & w' & Hrun & Hplugin & Hopened & Hpacket & Hhost & Hr); [eauto|].
      exists r, w'. split_and!; try done. rewrite Hr. split.
      * intros [Hver Ha]. right. eauto 10.
      * intros [([=] & _)|(_ & Hver & _ & Ha)]. done.
    + exists false, w. split_and!; try done. apply Hfalse.
      intros [([=] & _)|(_ & _ & [? [=]] & _)].
  - rewrite !bool_decide_eq_false_2 by done.
    destruct (HAVE_PACKET_ANALYZERS E) eqn:Hhave; cbn [andb].
    + rewrite bool_decide_eq_true_2 by done. run.
      destruct (Lookup_tag v (file_mgr (host w))) as [c|] eqn:Hc.
      * rewrite (Lookup_tag_Some _ _ _ Hc).
        destruct (toggleAnalyzer_file_returns E v enable w)
          as (r & w' & Hrun & Hplugin & Hopened & Hpacket & Hhost & Hr); [eauto|].
        exists r, w'. split_and!; try done. rewrite Hr. split.
        -- intros [Hver Ha]. right. eauto 10.
        -- intros [([=] & _)|(_ & Hver & _ & Ha)]. done.
      * exists false, w. split_and!; try done. apply Hfalse.
        intros [([=] & _)|(_ & _ & [? [=]] & _)].
    + exists false, w. split_and!; try done. apply Hfalse.
      intros [([=] & _)|([[=]|[_ [=]]] & _)].
  - rewrite !bool_decide_eq_false_2 by done.
    rewrite andb_false_r.
    exists false, w. split_and!; try done. apply Hfalse.
    intros [([=] & _)|([[=]|[[=] _]] & _)].
Qed.

Lemma X8_toggle_by_enum_value_always_returns_witness :
  let E := plain_env 40100 [] in
  let w := phase1 E [RegisterFile "BAR" [] "bar::Parser" "" 2] (initial_world no_host) in
  ∃ w', toggleAnalyzer E {| GetType := PacketTagType; enum_value := 2 |} false w
        = Done true w' ∧
        packet_mgr (host w') = [].
Proof.
  intros E w.
  destruct (X8_toggle_by_enum_value_always_returns E w
              {| GetType := PacketTagType; enum_value := 2 |} false)
    as (r & w' & Hrun & _ & _ & Hpacket & _ & Hr).
  assert (r = true) as ->.
  { apply Hr. right. split; [by right|]. split; [done|]. split; [by eexists|].
    eexists. split; [reflexivity|]. discriminate. }
  exists w'. split; [exact Hrun|exact Hpacket].
Defined.

(** ** Module loading: the registry invariant and what loading changes *)

Section Modules.

Variable E : Env.

(** Loops keep what their bodies keep. *)
Lemma for_each_rel {A} (R : relation World) (body : A → M unit) l :
  Reflexive R → Transitive R →
  (∀ x w u w', body x w = Done u w' → R w w') →
  ∀ w u w', for_each body l w = Done u w' → R w w'.
Proof.
  intros Hrefl Htrans Hbody. induction l as [|x l IH]; simpl; intros w u w' H.
  - by injection H as _ <-.
  - apply bind_Done in H as (? & w1 & H1 & H2). etrans; eauto.
Qed.

Lemma for_each_inv {A} (P : World → Prop) (body : A → M unit) l :
  (∀ x w u w', body x w = Done u w' → P w → P w') →
  ∀ w u w', for_each body l w = Done u w' → P w → P w'.
Proof.
  intros Hbody. induction l as [|x l IH]; simpl; intros w u w' H.
  - by injection H as _ <-.
  - apply bind_Done in H as (? & w1 & H1 & H2). eauto.
Qed.

Global Instance only_modules_refl : Reflexive (only_modules E).
Proof.
  intros w. unfold only_modules. split; [done|].
  exists []. by rewrite app_nil_r.
Qed.

Global Instance only_modules_trans : Transitive (only_modules E).
Proof.
  intros w1 w2 w3 (Hkeys & ms & Hms & Hsame) (Hkeys' & ms' & Hms' & Hsame').
  unfold only_modules. split; [by auto|].
  exists (ms ++ ms'). split; [by rewrite Hms', Hms, <- app_assoc|].
  rewrite fmap_app, join_app, phase1_app.
  etrans; [apply phase1_same_analyzers, Hsame|exact Hsame'].
Qed.

Lemma only_modules_log msg w : only_modules E w (ZEEK_DEBUG msg w).
Proof.
  unfold only_modules. split; [done|]. exists []. simpl. by rewrite app_nil_r.
Qed.

Lemma loadModule_only_modules f w u w' :
  loadModule E f w = Done u w' → only_modules E w w'.
Proof.
  destruct (canonical E f) as [cp|] eqn:Hcanon; [|by unfold loadModule; rewrite Hcanon].
  destruct (_libraries (plugin w) !! cp) eqn:Hcp.
  - rewrite (loadModule_duplicate E f cp) by eauto.
    intros [= _ <-]. apply only_modules_log.
  - destruct (Library_open E cp) as [err|] eqn:Hopen.
    { unfold loadModule. rewrite Hcanon. run. by rewrite Hcp, Hopen. }
    destruct (loadModule_first E f cp w Hcanon Hcp Hopen)
      as (w1 & Hrun & Hlibs & Hopened & Hsame).
    rewrite Hrun. intros [= _ <-]. unfold only_modules. split.
    + intros m Hm. rewrite Hlibs. apply lookup_insert_is_Some'. by right.
    + exists [cp]. split; [done|].
      rewrite fmap_cons, fmap_nil. cbn [mjoin list_join]. by rewrite app_nil_r.
Qed.

Lemma loadModule_registry_ok f w u w' :
  loadModule E f w = Done u w' → registry_ok w → registry_ok w'.
Proof.
  destruct (canonical E f) as [cp|] eqn:Hcanon; [|by unfold loadModule; rewrite Hcanon].
  destruct (_libraries (plugin w) !! cp) eqn:Hcp.
  - rewrite (loadModule_duplicate E f cp) by eauto. by intros [= _ <-].
  - destruct (Library_open E cp) as [err|] eqn:Hopen.
    { unfold loadModule. rewrite Hcanon. run. by rewrite Hcp, Hopen. }
    destruct (loadModule_first E f cp w Hcanon Hcp Hopen)
      as (w1 & Hrun & Hlibs & Hopened & _).
    rewrite Hrun. intros [= _ <-] [Hnodup Hopen'].
    assert (cp ∉ opened w) as Hfresh.
    { intros Hin. apply Hopen' in Hin. congruence. }
    unfold registry_ok. rewrite Hlibs, Hopened. split.
    + apply NoDup_app. split_and!; [done| |apply NoDup_singleton].
      intros m Hm ->%list_elem_of_singleton. done.
    + intros m [Hm| ->%list_elem_of_singleton]%elem_of_app.
      * rewrite !lookup_insert_ne by (intros ->; done). by apply Hopen'.
      * by rewrite lookup_insert_eq.
Qed.

Lemma search_directory_only_modules dir w u w' :
  search_directory E dir w = Done u w' → only_modules E w w'.
Proof.
  unfold search_directory. cbv zeta. case_bool_decide; [by intros [= _ <-]|].
  destruct (is_directory E (trim dir)); simpl;
    [|intros [= _ <-]; apply only_modules_log].
  intros Hrun. apply bind_Done in Hrun as (? & w1 & H1 & Hrun). injection H1 as _ <-.
  etrans; [apply (only_modules_log ("Searching " +:+ trim dir +:+ " for *.hlto"))|].
  revert Hrun. apply (for_each_rel (only_modules E)); [apply _..|]. intros e wa ua wb.
  destruct (is_regular_file e && _);
    [apply loadModule_only_modules|by intros [= _ <-]].
Qed.

Lemma search_directory_registry_ok dir w u w' :
  search_directory E dir w = Done u w' → registry_ok w → registry_ok w'.
Proof.
  unfold search_directory. cbv zeta. case_bool_decide; [by intros [= _ <-]|].
  destruct (is_directory E (trim dir)); simpl; [|by intros [= _ <-]].
  intros Hrun. apply bind_Done in Hrun as (? & w1 & H1 & Hrun). injection H1 as _ <-.
  intros Hok. revert Hrun.
  intros Hrun. eapply (for_each_inv registry_ok); [|exact Hrun|exact Hok].
  intros e wa ua wb. cbv beta.
  destruct (is_regular_file e && _);
    [apply loadModule_registry_ok|by intros [= _ <-]].
Qed.

Lemma searchModules_only_modules paths w u w' :
  searchModules E paths w = Done u w' → only_modules E w w'.
Proof.
  unfold searchModules. apply (for_each_rel (only_modules E)); [apply _..|].
  apply search_directory_only_modules.
Qed.

Lemma searchModules_registry_ok paths w u w' :
  searchModules E paths w = Done u w' → registry_ok w → registry_ok w'.
Proof.
  unfold searchModules. apply (for_each_inv registry_ok).
  apply search_directory_registry_ok.
Qed.

Lemma autoDiscoverModules_cases w u w' :
  autoDiscoverModules E w = Done u w' →
  (∃ paths, searchModules E paths w = Done u w') ∨
  (∃ u1 w1, searchModules E (PluginModuleDirectory E) w = Done u1 w1 ∧
            searchModules E (zeek_plugin_path E) w1 = Done u w').
Proof.
  unfold autoDiscoverModules.
  destruct (getenv E "SPICY_MODULE_PATH") as [sp|]; [case_bool_decide|].
  - intros Hrun. left. eauto.
  - intros Hrun. apply bind_Done in Hrun as (u1 & w1 & H1 & H2). right. eauto.
  - intros Hrun. apply bind_Done in Hrun as (u1 & w1 & H1 & H2). right. eauto.
Qed.




End Modules.

Lemma HookLoadFile_None E file w :
  HookLoadFile E None file w
  = if bool_decide (extension E file = ".hlto") then
      match loadModule E file w with
      | Done _ w' => Done 1%Z w'
      | Fatal msg => Fatal msg
      | Undefined => Undefined
      end
    else if bool_decide (extension E file = ".spicy" ∨ extension E file = ".evt" ∨
                         extension E file = ".hlt")
    then Fatal ("cannot load '" +:+ file
                  +:+ "', Spicy plugin was not compiled with JIT support")
    else Done (-1)%Z w.
Proof.
  unfold HookLoadFile. run. destruct (bool_decide (extension E file = ".hlto")).
  - by destruct (loadModule E file w).
  - by destruct (bool_decide _).
Qed.

Lemma registry_ok_initial h : registry_ok (initial_world h).
Proof. split; [apply NoDup_nil_2|]. intros m Hm. by apply elem_of_nil in Hm. Qed.

(** X9: every module is opened at most once.  If no module was opened twice
    and every opened module has an open entry in the registry, this is still
    so after [loadModule], after a search of any path list, after
    [autoDiscoverModules] and after [HookLoadFile] in a build without the
    toolchain, whenever these return. *)
Theorem X9_modules_are_opened_once (E : Env) (w : World) :
  registry_ok w →
  (∀ f u w', loadModule E f w = Done u w' → registry_ok w') ∧
  (∀ paths u w', searchModules E paths w = Done u w' → registry_ok w') ∧
  (∀ u w', autoDiscoverModules E w = Done u w' → registry_ok w') ∧
  (∀ file r w', HookLoadFile E None file w = Done r w' → registry_ok w').
Proof.
  intros Hok. split_and!.
  - intros f u w' Hrun. by eapply loadModule_registry_ok.
  - intros paths u w' Hrun. by eapply searchModules_registry_ok.
  - intros u w' [(paths & Hrun)|(u1 & w1 & H1 & H2)]%autoDiscoverModules_cases.
    + by eapply searchModules_registry_ok.
    + eapply searchModules_registry_ok; [exact H2|].
      by eapply searchModules_registry_ok.
  - intros file r w'. rewrite HookLoadFile_None.
    case_bool_decide; [|case_bool_decide; [done|by intros [= _ <-]]].
    destruct (loadModule E file w) as [u w1| |] eqn:Hrun; [|done..].
    intros [= _ <-]. by eapply loadModule_registry_ok.
Qed.

Lemma X9_modules_are_opened_once_witness :
  ∃ w', autoDiscoverModules modules_env (initial_world no_host) = Done () w' ∧ registry_ok w'.
Proof.
  destruct (autoDiscoverModules modules_env (initial_world no_host))
    as [[] w'| |] eqn:Hrun; [|by vm_compute in Hrun..].
  exists w'. split; [reflexivity|].
  destruct (X9_modules_are_opened_once modules_env (initial_world no_host)
              (registry_ok_initial no_host)) as (_ & _ & Hauto & _).
  exact (Hauto () w' Hrun).
Defined.

(** X10: loading changes the analyzers only through the modules it opens.
    Whenever [loadModule], a search of a path list, [autoDiscoverModules] or
    [HookLoadFile] in a build without the toolchain returns, every path that
    had a registry entry still has one, the list of opened modules is the
    old one followed by the newly opened modules, and the descriptor tables,
    the recorded locations and the host are exactly what the registrations of
    the newly opened modules, run once each in the order of opening, leave;
    when no module is newly opened they are unchanged. *)
Theorem X10_loading_runs_the_registrations_of_new_modules (E : Env) (w : World) :
  (∀ f u w', loadModule E f w = Done u w' → only_modules E w w') ∧
  (∀ paths u w', searchModules E paths w = Done u w' → only_modules E w w') ∧
  (∀ u w', autoDiscoverModules E w = Done u w' → only_modules E w w') ∧
  (∀ file r w', HookLoadFile E None file w = Done r w' → only_modules E w w') ∧
  (∀ w', only_modules E w w' → opened w' = opened w → same_analyzers w w').
Proof.
  split_and!.
  - intros f u w'. apply loadModule_only_modules.
  - intros paths u w'. apply searchModules_only_modules.
  - intros u w' [(paths & Hrun)|(u1 & w1 & H1 & H2)]%autoDiscoverModules_cases.
    + by eapply searchModules_only_modules.
    + etrans; by eapply searchModules_only_modules.
  - intros file r w'. rewrite HookLoadFile_None.
    case_bool_decide; [|case_bool_decide; [done|by intros [= _ <-]]].
    destruct (loadModule E file w) as [u w1| |] eqn:Hrun; [|done..].
    intros [= _ <-]. by eapply loadModule_only_modules.
  - intros w' (_ & ms & Hms & Hsame) Hopened.
    assert (ms = []) as ->.
    { apply (app_inv_head (opened w)). by rewrite app_nil_r, <- Hms. }
    exact Hsame.
Qed.

Lemma X10_loading_runs_the_registrations_of_new_modules_witness :
  ∃ w', searchModules modules_env "/modules" (initial_world host_with_OLD) = Done () w' ∧
        opened w' = ["/modules/a.hlto"] ∧
        (λ c, (c_name c, c_enabled c)) <$> analyzer_mgr (host w')
          = [("OLD", false); ("FOO", true)].
Proof.
  destruct (searchModules modules_env "/modules" (initial_world host_with_OLD))
    as [[] w'| |] eqn:Hrun; [|by vm_compute in Hrun..].
  exists w'. split; [reflexivity|].
  destruct (proj1 (proj2 (X10_loading_runs_the_registrations_of_new_modules modules_env
                             (initial_world host_with_OLD))) _ _ _ Hrun)
    as (_ & ms & Hms & (_ & _ & _ & _ & Hhost)).
  assert (opened w' = ["/modules/a.hlto"]) as Hopened.
  { vm_compute in Hrun. by injection Hrun as <-. }
  split; [exact Hopened|].
  rewrite Hopened in Hms. cbn in Hms. subst ms. rewrite Hhost. reflexivity.
Defined.



(** X12: the load-file hook.  Whenever the hook returns, it returns 1 or -1.
    When the toolchain driver's hook returns a value that is not negative,
    the hook returns 1 (not that value) and does nothing more.  In a build
    without the toolchain: a file with extension [.hlto] is loaded as a
    module and the hook returns 1 if that returns; the extensions [.spicy],
    [.evt] and [.hlt] are fatal; for any other extension the hook returns -1
    and changes nothing. *)
Theorem X12_load_file_hook (E : Env) (driver : option (M Z)) (file : string) (w : World) :
  (∀ r w', HookLoadFile E driver file w = Done r w' → r = 1%Z ∨ r = (-1)%Z) ∧
  (∀ hook rc w1, driver = Some hook → hook w = Done rc w1 → (0 ≤ rc)%Z →
                 HookLoadFile E driver file w = Done 1%Z w1) ∧
  (extension E file = ".hlto" →
   HookLoadFile E None file w
   = match loadModule E file w with
     | Done _ w' => Done 1%Z w'
     | Fatal msg => Fatal msg
     | Undefined => Undefined
     end) ∧
  (extension E file = ".spicy" ∨ extension E file = ".evt" ∨ extension E file = ".hlt" →
   HookLoadFile E None file w
   = Fatal ("cannot load '" +:+ file +:+ "', Spicy plugin was not compiled with JIT support")) ∧
  (extension E file ≠ ".hlto" → extension E file ≠ ".spicy" →
   extension E file ≠ ".evt" → extension E file ≠ ".hlt" →
   HookLoadFile E None file w = Done (-1)%Z w).
Proof.
  split_and!.
  - intros r w'. unfold HookLoadFile. intros H.
    apply bind_Done in H as (handled & w1 & H1 & H).
    destruct handled; [left; revert H; run; congruence|].
    revert H. cbv zeta. case_bool_decide as Hext.
    + intros H. apply bind_Done in H as (? & w2 & _ & H). left. revert H. run. congruence.
    + case_bool_decide as Hsrc; [done|]. right. revert H. run. congruence.
  - intros hook rc w1 -> Hhook Hrc. unfold HookLoadFile. run. rewrite Hhook.
    by rewrite bool_decide_eq_true_2.
  - intros Hext. rewrite HookLoadFile_None. by rewrite bool_decide_eq_true_2.
  - intros Hext. rewrite HookLoadFile_None.
    rewrite bool_decide_eq_false_2
      by (intros Heq; rewrite Heq in Hext; destruct Hext as [?|[?|?]]; discriminate).
    by rewrite bool_decide_eq_true_2.
  - intros H1 H2 H3 H4. rewrite HookLoadFile_None.
    rewrite !bool_decide_eq_false_2; [done|tauto|done].
Qed.

Lemma X12_load_file_hook_witness :
  (∃ w', HookLoadFile modules_env None "/modules/a.hlto" (initial_world no_host) = Done 1%Z w' ∧
         opened w' = ["/modules/a.hlto"]) ∧
  HookLoadFile modules_env (Some (mret 0%Z)) "x.zeek" (initial_world no_host)
    = Done 1%Z (initial_world no_host).
Proof.
  destruct (X12_load_file_hook modules_env None "/modules/a.hlto" (initial_world no_host))
    as (_ & _ & Hmodule & _).
  destruct (X12_load_file_hook modules_env (Some (mret 0%Z)) "x.zeek" (initial_world no_host))
    as (_ & Hdriver & _).
  split.
  - eexists. split; [rewrite Hmodule by reflexivity; reflexivity|reflexivity].
  - apply (Hdriver (mret 0%Z) 0%Z); [reflexivity|reflexivity|lia].
Defined.

(** ** Phase 2: what it hands to the host and when it completes *)

Section Phase2Effects.

Variable E : Env.

Lemma add_bindings_nil h : add_bindings [] [] h = h.
Proof. destruct h. unfold add_bindings. cbn. by rewrite !app_nil_r. Qed.

Lemma add_bindings_add ps es ps' es' h :
  add_bindings ps' es' (add_bindings ps es h) = add_bindings (ps ++ ps') (es ++ es') h.
Proof. unfold add_bindings. cbn. by rewrite <- !app_assoc. Qed.

Lemma bound_refl w : bound [] [] w w.
Proof. unfold bound. by rewrite add_bindings_nil. Qed.

Lemma bound_log msg w : bound [] [] w (ZEEK_DEBUG msg w).
Proof. unfold bound. cbn. by rewrite add_bindings_nil. Qed.

Lemma bound_trans ps es ps' es' w1 w2 w3 :
  bound ps es w1 w2 → bound ps' es' w2 w3 → bound (ps ++ ps') (es ++ es') w1 w3.
Proof.
  intros (Hp1 & Ho1 & Hh1) (Hp2 & Ho2 & Hh2). unfold bound.
  rewrite Hp2, Ho2, Hh2, Hh1, add_bindings_add. done.
Qed.

Lemma bound_nil_l ps es w1 w2 w3 : bound [] [] w1 w2 → bound ps es w2 w3 → bound ps es w1 w3.
Proof. intros H1 H2. apply (bound_trans _ _ _ _ _ _ _ H1 H2). Qed.

Lemma bound_nil_r ps es w1 w2 w3 : bound ps es w1 w2 → bound [] [] w2 w3 → bound ps es w1 w3.
Proof.
  intros H1 H2. pose proof (bound_trans _ _ _ _ _ _ _ H1 H2) as H.
  by rewrite !app_nil_r in H.
Qed.

Lemma bound_analyzer_mgr ps es w w' :
  bound ps es w w' → analyzer_mgr (host w') = analyzer_mgr (host w).
Proof. intros (_ & _ & ->). done. Qed.

Lemma bound_file_mgr ps es w w' : bound ps es w w' → file_mgr (host w') = file_mgr (host w).
Proof. intros (_ & _ & ->). done. Qed.

(** Loops whose bodies only bind. *)
Lemma for_each_bound {A} (body : A → M unit) f g (P : A → Prop) l :
  (∀ x w u w', body x w = Done u w' → P x ∧ bound (f x) (g x) w w') →
  ∀ w u w', for_each body l w = Done u w' →
            Forall P l ∧ bound (mjoin (f <$> l)) (mjoin (g <$> l)) w w'.
Proof.
  intros Hbody. induction l as [|x l IH]; simpl; intros w u w' H.
  - injection H as _ <-. split; [constructor|apply bound_refl].
  - apply bind_Done in H as (? & w1 & H1 & H2).
    destruct (Hbody _ _ _ _ H1) as [HP Hb1]. destruct (IH _ _ _ H2) as [HF Hb2].
    split; [by constructor|]. by eapply bound_trans.
Qed.

Lemma for_each_ready {A} (body : A → M unit) (P : A → Prop) l :
  (∀ x w, P x → ∃ w', body x w = Done () w') →
  ∀ w, Forall P l → ∃ w', for_each body l w = Done () w'.
Proof.
  intros Hbody. induction l as [|x l IH]; simpl; intros w HF.
  - by exists w.
  - apply Forall_cons in HF as [HP HF].
    destruct (Hbody x w HP) as (w1 & H1). destruct (IH w1 HF) as (w2 & H2).
    exists w2. unfold mbind, M_bind. by rewrite H1.
Qed.

Lemma for_each_ref_bound {A} (I : World → Prop) (body : A → M A) f g (P : A → Prop)
    (F : A → A) :
  (∀ ps es w w', bound ps es w w' → I w → I w') →
  (∀ x w y w', I w → body x w = Done y w' → P x ∧ y = F x ∧ bound (f x) (g x) w w') →
  ∀ v w v' w', I w → for_each_ref body v w = Done v' w' →
               Forall P v ∧ v' = F <$> v ∧ bound (mjoin (f <$> v)) (mjoin (g <$> v)) w w'.
Proof.
  intros HI Hbody. induction v as [|x v IH]; simpl; intros w v' w' Hw H.
  - injection H as <- <-. split; [constructor|]. split; [done|apply bound_refl].
  - apply bind_Done in H as (y & w1 & H1 & H).
    apply bind_Done in H as (v1 & w2 & H2 & H).
    injection H as <- <-.
    destruct (Hbody _ _ _ _ Hw H1) as (HP & -> & Hb1).
    destruct (IH _ _ _ (HI _ _ _ _ Hb1 Hw) H2) as (HF & -> & Hb2).
    split; [by constructor|]. split; [done|]. by eapply bound_trans.
Qed.

Lemma for_each_ref_ready {A} (I : World → Prop) (body : A → M A) (P : A → Prop) :
  (∀ x w y w', I w → body x w = Done y w' → I w') →
  (∀ x w, I w → P x → ∃ y w', body x w = Done y w') →
  ∀ v w, I w → Forall P v → ∃ v' w', for_each_ref body v w = Done v' w'.
Proof.
  intros HI Hbody. induction v as [|x v IH]; simpl; intros w Hw HF.
  - by exists [], w.
  - apply Forall_cons in HF as [HP HF].
    destruct (Hbody x w Hw HP) as (y & w1 & H1).
    destruct (IH w1 (HI _ _ _ _ Hw H1) HF) as (v' & w2 & H2).
    exists (y :: v'), w2. unfold mbind, M_bind. by rewrite H1, H2.
Qed.

Lemma mjoin_singletons {A B} (h : A → B) (l : list A) : mjoin ((λ x, [h x]) <$> l) = h <$> l.
Proof. induction l as [|x l IH]; simpl; [done|]. f_equal. exact IH. Qed.

Lemma mjoin_nils {A B} (l : list A) : mjoin ((λ _, @nil B) <$> l) = [].
Proof. induction l as [|x l IH]; simpl; done. Qed.

(** The parser of a name. *)
Lemma find_parser_inv analyzer parser w r w' :
  find_parser E analyzer parser w = Done r w' →
  w' = w ∧ r = lookup_parser E parser ∧ known_parser E parser.
Proof.
  unfold find_parser, known_parser, lookup_parser. case_bool_decide as Hp.
  - intros [= <- <-]. rewrite decide_True by done. auto.
  - rewrite decide_False by done.
    destruct (find _ _) as [p|] eqn:Hfind; [|done].
    intros [= <- <-]. eauto.
Qed.

Lemma find_parser_ready analyzer parser w :
  known_parser E parser → find_parser E analyzer parser w = Done (lookup_parser E parser) w.
Proof.
  unfold find_parser, known_parser, lookup_parser. intros Hknown. case_bool_decide as Hp.
  - by rewrite decide_True.
  - rewrite decide_False in * by done.
    destruct Hknown as [?|[p Hfind]]; [done|]. by rewrite Hfind.
Qed.

Lemma transport_protocol_inv p w tp w' :
  transport_protocol p w = Done tp w' →
  w' = w ∧ tp = TransportProto_of (protocol p) ∧ supported p.
Proof.
  unfold transport_protocol, supported.
  destruct (protocol p); first [discriminate|intros [= <- <-]; done].
Qed.

Lemma transport_protocol_ready p w :
  supported p → transport_protocol p w = Done (TransportProto_of (protocol p)) w.
Proof. unfold transport_protocol, supported. by destruct (protocol p). Qed.

(** One port of a protocol analyzer. *)
Lemma register_port_inv tag (p : Port) w u w' :
  (debug ("  Scheduling analyzer for port " +:+ fmt_port p);;
   tp ← transport_protocol p;
   lift (with_host (RegisterAnalyzerForPort tag tp (port p)))) w = Done u w' →
  supported p ∧ bound [port_binding tag p] [] w w'.
Proof.
  intros H. apply bind_Done in H as (? & w1 & H1 & H).
  apply bind_Done in H as (tp & w2 & H2 & H).
  injection H1 as _ <-. injection H as _ <-.
  apply transport_protocol_inv in H2 as (-> & -> & Hs).
  split; [done|]. unfold bound, add_bindings, port_binding. cbn. by rewrite app_nil_r.
Qed.

Lemma register_port_ready tag (p : Port) w :
  supported p →
  ∃ w', (debug ("  Scheduling analyzer for port " +:+ fmt_port p);;
         tp ← transport_protocol p;
         lift (with_host (RegisterAnalyzerForPort tag tp (port p)))) w = Done () w'.
Proof.
  intros Hs. eexists. unfold mbind, M_bind, debug, lift.
  by rewrite transport_protocol_ready.
Qed.

Lemma responder_ports_bindings tag (l : list ParserPort) :
  mjoin ((λ pp, if bool_decide (pp_direction pp ≠ Both ∧ pp_direction pp ≠ Responder)
                then [] else [port_binding tag (pp_port pp)]) <$> l)
  = port_binding tag <$>
      (pp_port <$> filter (λ pp, pp_direction pp = Both ∨ pp_direction pp = Responder) l).
Proof.
  induction l as [|pp l IH]; [done|].
  rewrite filter_cons, fmap_cons.
  match goal with |- mjoin (?a :: ?b) = _ => change (mjoin (a :: b)) with (a ++ mjoin b) end.
  rewrite IH. cbv beta.
  case_bool_decide as Hd; case_decide as Hd'; [|done|done|].
  - destruct Hd, Hd'; done.
  - destruct (pp_direction pp); tauto.
Qed.

Lemma responder_ports_supported (l : list ParserPort) :
  Forall (λ pp, pp_direction pp = Both ∨ pp_direction pp = Responder → supported (pp_port pp)) l
  ↔ Forall supported
      (pp_port <$> filter (λ pp, pp_direction pp = Both ∨ pp_direction pp = Responder) l).
Proof.
  induction l as [|pp l IH]; [by split; constructor|].
  rewrite filter_cons, Forall_cons, IH. case_decide as Hd.
  - rewrite fmap_cons, Forall_cons. tauto.
  - tauto.
Qed.

(** One pass of the loop over the protocol analyzers. *)
Lemma init_protocol_analyzer_inv p w p' w' :
  init_protocol_analyzer E p w = Done p' w' →
  protocol_ready E (analyzer_mgr (host w)) p ∧ p' = protocol_initialized E p ∧
  bound (protocol_bindings E (analyzer_mgr (host w)) p) [] w w'.
Proof.
  unfold init_protocol_analyzer, protocol_ready, protocol_initialized, protocol_bindings,
    protocol_ports.
  case_bool_decide as Hty.
  - intros [= <- <-]. rewrite !decide_True by done.
    split; [by left|]. split; [done|apply bound_refl].
  - rewrite !decide_False by done. intros H.
    apply bind_Done in H as (? & w1 & H1 & H). injection H1 as _ <-.
    apply bind_Done in H as (po & w2 & H2 & H).
    apply find_parser_inv in H2 as (-> & -> & Hko).
    apply bind_Done in H as (pr & w3 & H3 & H).
    apply find_parser_inv in H3 as (-> & -> & Hkr).
    apply bind_Done in H as (tag & w4 & H4 & H). injection H4 as <- <-.
    change (host (ZEEK_DEBUG _ w)) with (host w) in *.
    apply bind_Done in H as (? & w5 & H5 & H).
    assert (GetComponentTag (ProtocolAnalyzerInfo.name_analyzer p) (analyzer_mgr (host w)) ≠ 0
            ∧ bound [] [] w w5) as [Htag Hb5].
    { revert H5. case_bool_decide; [done|]. run. intros [= _ <-].
      split; [done|apply bound_log]. }
    clear H5.
    apply bind_Done in H as (? & w6 & H6 & H).
    apply (for_each_bound _
             (λ q, [port_binding (GetComponentTag (ProtocolAnalyzerInfo.name_analyzer p)
                                    (analyzer_mgr (host w))) q])
             (λ _, []) supported) in H6 as [Hs6 Hb6]; [|intros; by eapply register_port_inv].
    rewrite mjoin_singletons, mjoin_nils in Hb6.
    apply bind_Done in H as (? & w7 & H7 & H). injection H as <- <-.
    assert (Forall supported
              (responder_ports (lookup_parser E (ProtocolAnalyzerInfo.name_parser_resp p)))
            ∧ bound (port_binding
                       (GetComponentTag (ProtocolAnalyzerInfo.name_analyzer p)
                          (analyzer_mgr (host w)))
                     <$> responder_ports
                           (lookup_parser E (ProtocolAnalyzerInfo.name_parser_resp p)))
                    [] w6 w7) as [Hs7 Hb7].
    { destruct (lookup_parser E (ProtocolAnalyzerInfo.name_parser_resp p)) as [r|].
      - apply (for_each_bound _
                 (λ pp, if bool_decide (pp_direction pp ≠ Both ∧ pp_direction pp ≠ Responder)
                        then []
                        else [port_binding
                                (GetComponentTag (ProtocolAnalyzerInfo.name_analyzer p)
                                   (analyzer_mgr (host w))) (pp_port pp)])
                 (λ _, [])
                 (λ pp, pp_direction pp = Both ∨ pp_direction pp = Responder →
                        supported (pp_port pp))) in H7 as [Hs Hb].
        + rewrite responder_ports_bindings, mjoin_nils in Hb.
          split; [by apply responder_ports_supported|done].
        + intros pp wa u wb. case_bool_decide as Hd.
          * run. intros [= _ <-]. split; [tauto|apply bound_refl].
          * intros Hr. apply register_port_inv in Hr as [? ?]. done.
      - revert H7. run. intros [= _ <-]. split; [constructor|apply bound_refl]. }
    split; [right; split_and!; [done|done|done|by apply Forall_app]|]. split; [done|].
    rewrite fmap_app. eapply bound_nil_l; [exact Hb5|].
    apply (bound_trans _ _ _ _ _ _ _ Hb6 Hb7).
Qed.

Lemma init_protocol_analyzer_ready p w :
  protocol_ready E (analyzer_mgr (host w)) p → ∃ p' w', init_protocol_analyzer E p w = Done p' w'.
Proof.
  unfold init_protocol_analyzer, protocol_ready, protocol_ports.
  case_bool_decide as Hty; [by eexists _, _|].
  intros [?|(Hko & Hkr & Htag & Hs)]; [done|].
  rewrite decide_False in Hs by done. apply Forall_app in Hs as [Hs1 Hs2].
  unfold mbind at 1, M_bind at 1, debug at 1, lift at 1.
  unfold mbind at 1, M_bind at 1. rewrite (find_parser_ready _ _ _ Hko).
  unfold mbind at 1, M_bind at 1. rewrite (find_parser_ready _ _ _ Hkr).
  unfold mbind at 1, M_bind at 1, gets at 1.
  change (host (ZEEK_DEBUG _ w)) with (host w).
  unfold mbind at 1, M_bind at 1. rewrite bool_decide_eq_false_2 by done.
  unfold mret at 1, M_ret at 1.
  unfold mbind at 1, M_bind at 1.
  edestruct (for_each_ready
               (λ port_,
                  debug ("  Scheduling analyzer for port " +:+ fmt_port port_);;
                  tp ← transport_protocol port_;
                  lift (with_host (RegisterAnalyzerForPort
                                     (GetComponentTag (ProtocolAnalyzerInfo.name_analyzer p)
                                        (analyzer_mgr (host w))) tp (port port_))))
               supported (ProtocolAnalyzerInfo.ports p)) as (w6 & H6);
    [intros x w0; apply register_port_ready|exact Hs1|].
  rewrite H6. unfold mbind at 1, M_bind at 1.
  destruct (lookup_parser E (ProtocolAnalyzerInfo.name_parser_resp p)) as [r|];
    [|by eexists _, _].
  edestruct (for_each_ready
               (λ pp,
                  if bool_decide (pp_direction pp ≠ Both ∧ pp_direction pp ≠ Responder)
                  then mret () else
                  debug ("  Scheduling analyzer for port " +:+ fmt_port (pp_port pp));;
                  tp ← transport_protocol (pp_port pp);
                  lift (with_host (RegisterAnalyzerForPort
                                     (GetComponentTag (ProtocolAnalyzerInfo.name_analyzer p)
                                        (analyzer_mgr (host w))) tp (port (pp_port pp)))))
               (λ pp, pp_direction pp = Both ∨ pp_direction pp = Responder →
                      supported (pp_port pp))
               (parser_ports r)) as (w7 & H7);
    [|apply responder_ports_supported; exact Hs2|].
  - intros pp w0 Hpp. case_bool_decide as Hd; [by eexists|].
    apply register_port_ready, Hpp.
    destruct (pp_direction pp); first [by left|by right|by destruct Hd].
  - rewrite H7. by eexists _, _.
Qed.

(** One pass of the loop over the file analyzers. *)
Lemma register_analyzer_for_mime_type_inv tag mt w u w' :
  register_analyzer_for_mime_type tag mt w = Done u w' → True ∧ bound [] [mime_binding tag mt] w w'.
Proof.
  intros H. injection H as _ <-. split; [done|].
  unfold bound, add_bindings, mime_binding. cbn. by rewrite app_nil_r.
Qed.

Lemma for_each_mime_types tag mts w u w' :
  for_each (register_analyzer_for_mime_type tag) mts w = Done u w' →
  bound [] (mime_binding tag <$> mts) w w'.
Proof.
  intros H.
  apply (for_each_bound _ (λ _, []) (λ mt, [mime_binding tag mt]) (λ _, True)) in H
    as [_ Hb]; [|apply register_analyzer_for_mime_type_inv].
  by rewrite mjoin_singletons, mjoin_nils in Hb.
Qed.

Lemma for_each_mime_types_ready tag mts w :
  ∃ w', for_each (register_analyzer_for_mime_type tag) mts w = Done () w'.
Proof.
  apply (for_each_ready _ (λ _, True)); [by eexists|].
  apply Forall_forall. done.
Qed.

Lemma init_file_analyzer_inv p w p' w' :
  init_file_analyzer E p w = Done p' w' →
  file_ready E (file_mgr (host w)) p ∧ p' = file_initialized E p ∧
  bound [] (file_bindings E (file_mgr (host w)) p) w w'.
Proof.
  unfold init_file_analyzer, file_ready, file_initialized, file_bindings, file_mimes.
  case_bool_decide as Hty.
  - intros [= <- <-]. rewrite !decide_True by done.
    split; [by left|]. split; [done|apply bound_refl].
  - rewrite !decide_False by done. intros H.
    apply bind_Done in H as (? & w1 & H1 & H). injection H1 as _ <-.
    apply bind_Done in H as (r & w2 & H2 & H).
    apply find_parser_inv in H2 as (-> & -> & Hk).
    apply bind_Done in H as (tag & w4 & H4 & H). injection H4 as <- <-.
    change (host (ZEEK_DEBUG _ w)) with (host w) in *.
    apply bind_Done in H as (? & w5 & H5 & H).
    assert (GetComponentTag (FileAnalyzerInfo.name_analyzer p) (file_mgr (host w)) ≠ 0
            ∧ bound [] [] w w5) as [Htag Hb5].
    { revert H5. case_bool_decide; [done|]. run. intros [= _ <-].
      split; [done|apply bound_log]. }
    clear H5.
    apply bind_Done in H as (? & w6 & H6 & H). apply for_each_mime_types in H6.
    apply bind_Done in H as (? & w7 & H7 & H). injection H as <- <-.
    assert (bound [] (mime_binding
                        (GetComponentTag (FileAnalyzerInfo.name_analyzer p)
                           (file_mgr (host w)))
                      <$> parser_mimes (lookup_parser E (FileAnalyzerInfo.name_parser p)))
                  w6 w7) as Hb7.
    { destruct (lookup_parser E (FileAnalyzerInfo.name_parser p)) as [r|].
      - by apply for_each_mime_types in H7.
      - revert H7. run. intros [= _ <-]. apply bound_refl. }
    split; [by right|]. split; [done|].
    rewrite fmap_app. eapply bound_nil_l; [exact Hb5|].
    apply (bound_trans _ _ _ _ _ _ _ H6 Hb7).
Qed.

Lemma init_file_analyzer_ready p w :
  file_ready E (file_mgr (host w)) p → ∃ p' w', init_file_analyzer E p w = Done p' w'.
Proof.
  unfold init_file_analyzer, file_ready.
  case_bool_decide as Hty; [by eexists _, _|].
  intros [?|(Hk & Htag)]; [done|].
  unfold mbind at 1, M_bind at 1, debug at 1, lift at 1.
  unfold mbind at 1, M_bind at 1. rewrite (find_parser_ready _ _ _ Hk).
  unfold mbind at 1, M_bind at 1, gets at 1.
  change (host (ZEEK_DEBUG _ w)) with (host w).
  unfold mbind at 1, M_bind at 1. rewrite bool_decide_eq_false_2 by done.
  unfold mret at 1, M_ret at 1.
  unfold mbind at 1, M_bind at 1.
  edestruct (for_each_mime_types_ready
               (GetComponentTag (FileAnalyzerInfo.name_analyzer p) (file_mgr (host w)))
               (FileAnalyzerInfo.mime_types p)) as (w6 & H6).
  rewrite H6. unfold mbind at 1, M_bind at 1.
  destruct (lookup_parser E (FileAnalyzerInfo.name_parser p)) as [r|]; [|by eexists _, _].
  edestruct (for_each_mime_types_ready
               (GetComponentTag (FileAnalyzerInfo.name_analyzer p) (file_mgr (host w)))
               (parser_mime_types r)) as (w7 & H7).
  rewrite H7. by eexists _, _.
Qed.

(** One pass of the loop over the packet analyzers. *)
Lemma init_packet_analyzer_inv p w p' w' :
  init_packet_analyzer E p w = Done p' w' →
  packet_ready E p ∧ p' = packet_initialized E p ∧ bound [] [] w w'.
Proof.
  unfold init_packet_analyzer, packet_ready, packet_initialized.
  case_bool_decide as Hty.
  - intros [= <- <-]. rewrite !decide_True by done.
    split; [by left|]. split; [done|apply bound_refl].
  - rewrite !decide_False by done. intros H.
    apply bind_Done in H as (? & w1 & H1 & H). injection H1 as _ <-.
    apply bind_Done in H as (r & w2 & H2 & H).
    apply find_parser_inv in H2 as (-> & -> & Hk).
    injection H as <- <-. split; [by right|]. split; [done|apply bound_log].
Qed.

Lemma init_packet_analyzer_ready p w :
  packet_ready E p → ∃ p' w', init_packet_analyzer E p w = Done p' w'.
Proof.
  unfold init_packet_analyzer, packet_ready.
  case_bool_decide as Hty; [by eexists _, _|].
  intros [?|Hk]; [done|].
  unfold mbind at 1, M_bind at 1, debug at 1, lift at 1.
  unfold mbind at 1, M_bind at 1. rewrite (find_parser_ready _ _ _ Hk).
  by eexists _, _.
Qed.

(** The whole of phase 2. *)
Lemma InitPostScript_inv w u w' :
  InitPostScript E w = Done u w' →
  phase2_ready E w ∧
  _protocol_analyzers_by_type (plugin w')
    = protocol_initialized E <$> _protocol_analyzers_by_type (plugin w) ∧
  _file_analyzers_by_type (plugin w')
    = file_initialized E <$> _file_analyzers_by_type (plugin w) ∧
  _packet_analyzers_by_type (plugin w')
    = (if HAVE_PACKET_ANALYZERS E
       then packet_initialized E <$> _packet_analyzers_by_type (plugin w)
       else _packet_analyzers_by_type (plugin w)) ∧
  _libraries (plugin w') = _libraries (plugin w) ∧
  _locations (plugin w') = _locations (plugin w) ∧
  opened w' = opened w ∧
  host w' = add_bindings
              (mjoin (protocol_bindings E (analyzer_mgr (host w))
                        <$> _protocol_analyzers_by_type (plugin w)))
              (mjoin (file_bindings E (file_mgr (host w))
                        <$> _file_analyzers_by_type (plugin w)))
              (host w).
Proof.
  unfold InitPostScript, phase2_ready. intros H.
  apply bind_Done in H as (? & w1 & H1 & H). injection H1 as _ <-.
  apply bind_Done in H as (? & w2 & H2 & H). injection H2 as _ <-.
  apply bind_Done in H as (? & w3 & H3 & H).
  assert (runtime_init E = None ∧ bound [] [] w w3) as [Hinit Hb3].
  { destruct (runtime_init E); [done|]. revert H3. run. intros [= _ <-].
    split; [done|]. eapply bound_nil_l; apply bound_log. }
  clear H3.
  apply bind_Done in H as (vp & w4 & H4 & H). injection H4 as <- <-.
  apply bind_Done in H as (vp' & w5 & H5 & H).
  apply (for_each_ref_bound (λ w0, analyzer_mgr (host w0) = analyzer_mgr (host w)) _
           (protocol_bindings E (analyzer_mgr (host w))) (λ _, [])
           (protocol_ready E (analyzer_mgr (host w))) (protocol_initialized E))
    in H5 as (Hrp & -> & Hb5).
  2: { intros ps es wa wb Hb <-. by eapply bound_analyzer_mgr. }
  2: { intros a wa y wb <-. apply init_protocol_analyzer_inv. }
  2: { by eapply bound_analyzer_mgr. }
  rewrite mjoin_nils in Hb5.
  apply bind_Done in H as (? & w6 & H6 & H). injection H6 as _ <-.
  apply bind_Done in H as (vf & w7 & H7 & H). injection H7 as <- <-.
  apply bind_Done in H as (vf' & w8 & H8 & H).
  destruct Hb3 as (Hp3 & Ho3 & Hh3). destruct Hb5 as (Hp5 & Ho5 & Hh5).
  apply (for_each_ref_bound (λ w0, file_mgr (host w0) = file_mgr (host w)) _
           (λ _, []) (file_bindings E (file_mgr (host w)))
           (file_ready E (file_mgr (host w))) (file_initialized E))
    in H8 as (Hrf & -> & Hb8).
  2: { intros ps es wa wb Hb <-. by eapply bound_file_mgr. }
  2: { intros a wa y wb <-. apply init_file_analyzer_inv. }
  2: { cbn. by rewrite Hh5, Hh3. }
  rewrite mjoin_nils in Hb8. destruct Hb8 as (Hp8 & Ho8 & Hh8).
  apply bind_Done in H as (? & w9 & H9 & H). injection H9 as _ <-.
  apply bind_Done in H as (? & w10 & H10 & H). injection H as _ <-.
  cbn in Hrf, Hp8, Ho8, Hh8. rewrite Hp5, Hp3 in Hrf, Hp8. rewrite Hp3 in Hrp.
  rewrite Ho5, Ho3 in Ho8. rewrite Hh5, Hh3, !add_bindings_add in Hh8. cbn in Hh8.
  rewrite app_nil_r in Hh8.
  destruct (HAVE_PACKET_ANALYZERS E).
  - apply bind_Done in H10 as (vk & w11 & H11 & H). injection H11 as <- <-.
    apply bind_Done in H as (vk' & w12 & H12 & H).
    apply (for_each_ref_bound (λ _, True) _ (λ _, []) (λ _, [])
             (packet_ready E) (packet_initialized E))
      in H12 as (Hrk & -> & Hb12);
      [|done|intros a wa y wb _; apply init_packet_analyzer_inv|done].
    rewrite !mjoin_nils in Hb12. destruct Hb12 as (Hp12 & Ho12 & Hh12).
    injection H as _ <-. cbn in *.
    rewrite Hp8 in Hrk, Hp12. cbn in Hrk.
    rewrite Hp12, Ho12, Hh12, add_bindings_nil, Ho8, Hh8. cbn.
    rewrite Hp8. cbn. rewrite !Hp5, !Hp3. done.
  - revert H10. run. intros [= _ <-]. cbn.
    rewrite Hp8, Ho8, Hh8. cbn. rewrite !Hp5, !Hp3. done.
Qed.

(** The loops of a phase 2 that can complete. *)
Lemma protocol_loop_ready v w :
  Forall (protocol_ready E (analyzer_mgr (host w))) v →
  ∃ v' w', for_each_ref (init_protocol_analyzer E) v w = Done v' w' ∧
           bound (mjoin (protocol_bindings E (analyzer_mgr (host w)) <$> v)) [] w w'.
Proof.
  intros Hready.
  destruct (for_each_ref_ready (λ w0, analyzer_mgr (host w0) = analyzer_mgr (host w))
              (init_protocol_analyzer E) (protocol_ready E (analyzer_mgr (host w))))
    with (v := v) (w := w) as (v' & w' & Hrun); [| |done|done|].
  - intros a wa y wb <- Hrun.
    apply init_protocol_analyzer_inv in Hrun as (_ & _ & Hb). by eapply bound_analyzer_mgr.
  - intros a wa <-. apply init_protocol_analyzer_ready.
  - exists v', w'. split; [done|].
    apply (for_each_ref_bound (λ w0, analyzer_mgr (host w0) = analyzer_mgr (host w)) _
             (protocol_bindings E (analyzer_mgr (host w))) (λ _, [])
             (protocol_ready E (analyzer_mgr (host w))) (protocol_initialized E))
      in Hrun as (_ & _ & Hb); [by rewrite mjoin_nils in Hb| | |done].
    + intros ps es wa wb Hb <-. by eapply bound_analyzer_mgr.
    + intros a wa y wb <-. apply init_protocol_analyzer_inv.
Qed.

Lemma file_loop_ready v w :
  Forall (file_ready E (file_mgr (host w))) v →
  ∃ v' w', for_each_ref (init_file_analyzer E) v w = Done v' w' ∧
           bound [] (mjoin (file_bindings E (file_mgr (host w)) <$> v)) w w'.
Proof.
  intros Hready.
  destruct (for_each_ref_ready (λ w0, file_mgr (host w0) = file_mgr (host w))
              (init_file_analyzer E) (file_ready E (file_mgr (host w))))
    with (v := v) (w := w) as (v' & w' & Hrun); [| |done|done|].
  - intros a wa y wb <- Hrun.
    apply init_file_analyzer_inv in Hrun as (_ & _ & Hb). by eapply bound_file_mgr.
  - intros a wa <-. apply init_file_analyzer_ready.
  - exists v', w'. split; [done|].
    apply (for_each_ref_bound (λ w0, file_mgr (host w0) = file_mgr (host w)) _
             (λ _, []) (file_bindings E (file_mgr (host w)))
             (file_ready E (file_mgr (host w))) (file_initialized E))
      in Hrun as (_ & _ & Hb); [by rewrite mjoin_nils in Hb| | |done].
    + intros ps es wa wb Hb <-. by eapply bound_file_mgr.
    + intros a wa y wb <-. apply init_file_analyzer_inv.
Qed.

Lemma packet_loop_ready v w :
  Forall (packet_ready E) v → ∃ v' w', for_each_ref (init_packet_analyzer E) v w = Done v' w'.
Proof.
  intros Hready.
  apply (for_each_ref_ready (λ _, True) (init_packet_analyzer E) (packet_ready E));
    [done|intros a wa _; apply init_packet_analyzer_ready|done|done].
Qed.

Lemma InitPostScript_ready w : phase2_ready E w → ∃ w', InitPostScript E w = Done () w'.
Proof.
  intros (Hinit & Hrp & Hrf & Hrk). unfold InitPostScript.
  unfold mbind at 1, M_bind at 1, debug at 1, lift at 1.
  unfold mbind at 1, M_bind at 1, debug at 1, lift at 1.
  unfold mbind at 1, M_bind at 1. rewrite Hinit. unfold mret at 1, M_ret at 1.
  unfold mbind at 1, M_bind at 1, gets at 1.
  unfold mbind at 1, M_bind at 1.
  change (plugin (ZEEK_DEBUG _ (ZEEK_DEBUG _ w))) with (plugin w).
  destruct (protocol_loop_ready (_protocol_analyzers_by_type (plugin w))
              (ZEEK_DEBUG "Initializing Spicy runtime"
                 (ZEEK_DEBUG "Beginning post-script initialization" w)) Hrp)
    as (vp' & w5 & H5 & Hp5 & _ & Hh5).
  rewrite H5.
  unfold mbind at 1, M_bind at 1, lift at 1.
  unfold mbind at 1, M_bind at 1, gets at 1.
  unfold mbind at 1, M_bind at 1.
  change (plugin (with_plugin ?f w5)) with (f (plugin w5)).
  change (_file_analyzers_by_type (set_protocol_analyzers vp' (plugin w5)))
    with (_file_analyzers_by_type (plugin w5)).
  rewrite Hp5. change (plugin (ZEEK_DEBUG _ (ZEEK_DEBUG _ w))) with (plugin w).
  destruct (file_loop_ready (_file_analyzers_by_type (plugin w))
              (with_plugin (set_protocol_analyzers vp') w5))
    as (vf' & w8 & H8 & Hp8 & _ & _).
  { change (host (with_plugin _ w5)) with (host w5). by rewrite Hh5. }
  rewrite H8.
  unfold mbind at 1, M_bind at 1, lift at 1.
  unfold mbind at 1, M_bind at 1.
  destruct (HAVE_PACKET_ANALYZERS E).
  - unfold mbind at 1, M_bind at 1, gets at 1.
    unfold mbind at 1, M_bind at 1.
    change (plugin (with_plugin ?f w8)) with (f (plugin w8)).
    change (_packet_analyzers_by_type (set_file_analyzers vf' (plugin w8)))
      with (_packet_analyzers_by_type (plugin w8)).
    rewrite Hp8.
    destruct (packet_loop_ready (_packet_analyzers_by_type (plugin w))
                (with_plugin (set_file_analyzers vf') w8) (Hrk eq_refl))
      as (vk' & w12 & H12).
    change (plugin (with_plugin ?f w5)) with (f (plugin w5)).
    change (_packet_analyzers_by_type (set_protocol_analyzers vp' (plugin w5)))
      with (_packet_analyzers_by_type (plugin w5)).
    rewrite Hp5. change (plugin (ZEEK_DEBUG _ (ZEEK_DEBUG _ w))) with (plugin w).
    rewrite H12. by eexists.
  - by eexists.
Qed.

End Phase2Effects.

(** X13: what a completed phase 2 hands to the host.  The ports registered
    with the host are extended by exactly, table slot after table slot, the
    declared ports of each set protocol descriptor followed by those ports of
    its responder-side parser whose direction is [Both] or [Responder], each
    under the tag the host has for the analyzer's name (the originator-side
    parser contributes no port, and a port named twice is registered twice).
    The event queue is extended by exactly one [spicy_analyzer_for_mime_type]
    event for each declared MIME type of each set file descriptor followed by
    those of its parser.  The host's components with their enabled states,
    its Zeekygen scripts and its location, the module registry, the recorded
    locations and the opened modules are unchanged. *)
Theorem X13_phase2_bindings (E : Env) (w : World) (u : unit) (w' : World) :
  InitPostScript E w = Done u w' →
  registered_ports (host w')
    = registered_ports (host w)
        ++ mjoin (protocol_bindings E (analyzer_mgr (host w))
                    <$> _protocol_analyzers_by_type (plugin w)) ∧
  event_queue (host w')
    = event_queue (host w)
        ++ mjoin (file_bindings E (file_mgr (host w)) <$> _file_analyzers_by_type (plugin w)) ∧
  analyzer_mgr (host w') = analyzer_mgr (host w) ∧
  file_mgr (host w') = file_mgr (host w) ∧
  packet_mgr (host w') = packet_mgr (host w) ∧
  zeekygen_scripts (host w') = zeekygen_scripts (host w) ∧
  location (host w') = location (host w) ∧
  _libraries (plugin w') = _libraries (plugin w) ∧
  _locations (plugin w') = _locations (plugin w) ∧
  opened w' = opened w.
Proof.
  intros Hrun.
  apply InitPostScript_inv in Hrun as (_ & _ & _ & _ & Hlibraries & Hlocations & Hopened & ->).
  by split_and!.
Qed.

Lemma X13_phase2_bindings_witness :
  let E := plain_env 40100 [foo_parser; bar_parser] in
  let w := phase1 E [RegisterProtocol "FOO" TCP [{| port := 443; protocol := TCP |}]
                                      "foo::Parser" "foo::Parser" "" 2;
                     RegisterFile "BAR" ["text/plain"] "bar::Parser" "" 1]
                  (initial_world no_host) in
  ∃ w', InitPostScript E w = Done () w' ∧
        registered_ports (host w') = [(2, TRANSPORT_TCP, 443); (2, TRANSPORT_TCP, 80)] ∧
        event_queue (host w') = [("spicy_analyzer_for_mime_type", 1, "text/plain");
                                 ("spicy_analyzer_for_mime_type", 1, "text/x-bar")].
Proof.
  intros E w.
  destruct (InitPostScript E w) as [[] w'| |] eqn:Hrun; [|by vm_compute in Hrun..].
  exists w'. split; [reflexivity|].
  destruct (X13_phase2_bindings E w () w' Hrun) as (Hports & Hevents & _).
  rewrite Hports, Hevents. split; reflexivity.
Defined.

(** X14: the tables after a completed phase 2.  Each table has the slots it
    had; an unset slot is as before, and a set slot differs from before in
    its parser fields only, which hold the first parser of the runtime with
    the declared name (none for the empty name).  In a build without packet
    analyzers the packet table is as before. *)
Theorem X14_phase2_tables (E : Env) (w : World) (u : unit) (w' : World) :
  InitPostScript E w = Done u w' →
  _protocol_analyzers_by_type (plugin w')
    = protocol_initialized E <$> _protocol_analyzers_by_type (plugin w) ∧
  _file_analyzers_by_type (plugin w')
    = file_initialized E <$> _file_analyzers_by_type (plugin w) ∧
  _packet_analyzers_by_type (plugin w')
    = (if HAVE_PACKET_ANALYZERS E
       then packet_initialized E <$> _packet_analyzers_by_type (plugin w)
       else _packet_analyzers_by_type (plugin w)).
Proof.
  intros Hrun. apply InitPostScript_inv in Hrun as (_ & Hprotocol & Hfile & Hpacket & _).
  done.
Qed.

Lemma X14_phase2_tables_witness :
  let E := plain_env 40100 [foo_parser; {| parser_name := "foo::Parser"; parser_ports := [];
                                           parser_mime_types := [] |}] in
  let w := phase1 E [RegisterProtocol "FOO" UDP [] "" "foo::Parser" "" 1]
                  (initial_world no_host) in
  ∃ w', InitPostScript E w = Done () w' ∧
        ProtocolAnalyzerInfo.parser_resp <$> _protocol_analyzers_by_type (plugin w')
          = [None; Some foo_parser].
Proof.
  intros E w.
  destruct (InitPostScript E w) as [[] w'| |] eqn:Hrun; [|by vm_compute in Hrun..].
  exists w'. split; [reflexivity|].
  destruct (X14_phase2_tables E w () w' Hrun) as (Hprotocol & _).
  rewrite Hprotocol. reflexivity.
Defined.

(** X15: when phase 2 completes.  [InitPostScript] returns exactly when the
    runtime initialises without an exception, every set descriptor names only
    known parsers (or none), the host has a tag for the name of every set
    protocol and file descriptor, and every port to bind for a set protocol
    descriptor has a protocol the host supports (packet descriptors count
    only in a build with packet analyzers); in every other case it ends the
    process. *)
Theorem X15_phase2_completes_iff_ready (E : Env) (w : World) :
  ((∃ w', InitPostScript E w = Done () w') ↔ phase2_ready E w) ∧
  (¬ phase2_ready E w → ∃ msg, InitPostScript E w = Fatal msg).
Proof.
  split; [split|].
  - intros (w' & Hrun). by apply InitPostScript_inv in Hrun as (Hready & _).
  - apply InitPostScript_ready.
  - intros Hnot. destruct (InitPostScript E w) as [u w'|msg|] eqn:Hrun.
    + by apply InitPostScript_inv in Hrun as (Hready & _).
    + by exists msg.
    + by destruct (defined_InitPostScript E w).
Qed.

Lemma X15_phase2_completes_iff_ready_witness :
  let E := plain_env 40100 [foo_parser] in
  let w := phase1 E [RegisterProtocol "FOO" TCP [{| port := 443; protocol := Undef |}]
                                      "" "foo::Parser" "" 1]
                  (initial_world no_host) in
  ∃ msg, InitPostScript E w = Fatal msg.
Proof.
  intros E w. apply (proj2 (X15_phase2_completes_iff_ready E w)).
  intros (_ & Hready & _). vm_compute in Hready.
  apply Forall_cons in Hready as [_ Hready]. apply Forall_cons in Hready as [Hfoo _].
  destruct Hfoo as [?|(_ & _ & _ & Hports)]; [done|].
  apply Forall_cons in Hports as [Hport _]. by destruct Hport.
Defined.

(** ** Module search: every module file found is opened *)

Section SearchComplete.

Variable E : Env.

(** Loops that only add to the opened modules. *)
Lemma for_each_all {A} (I : World → Prop) (Q : A → World → Prop) (body : A → M unit) l :
  (∀ x w w', Q x w → (∀ m, m ∈ opened w → m ∈ opened w') → Q x w') →
  (∀ x w u w', I w → body x w = Done u w' →
               I w' ∧ Q x w' ∧ ∀ m, m ∈ opened w → m ∈ opened w') →
  ∀ w u w', I w → for_each body l w = Done u w' →
            I w' ∧ (∀ x, x ∈ l → Q x w') ∧ ∀ m, m ∈ opened w → m ∈ opened w'.
Proof.
  intros Hmono Hbody. induction l as [|x l IH]; simpl; intros w u w' Hw H.
  - injection H as _ <-. split; [done|]. split; [|done].
    intros x Hx. by apply elem_of_nil in Hx.
  - apply bind_Done in H as (? & w1 & H1 & H2).
    destruct (Hbody _ _ _ _ Hw H1) as (Hw1 & HQ & Hsub1).
    destruct (IH _ _ _ Hw1 H2) as (Hw' & Hall & Hsub2).
    split; [done|]. split; [|by auto].
    intros y [->|Hy]%elem_of_cons; [by eapply Hmono|by apply Hall].
Qed.

Lemma loadModule_opens f w u w' :
  (∀ m, is_Some (_libraries (plugin w) !! m) → m ∈ opened w) →
  loadModule E f w = Done u w' →
  (∀ m, is_Some (_libraries (plugin w') !! m) → m ∈ opened w') ∧
  (∃ m, canonical E f = Some m ∧ m ∈ opened w') ∧
  ∀ m, m ∈ opened w → m ∈ opened w'.
Proof.
  intros Hw.
  destruct (canonical E f) as [c|] eqn:Hc; [|by unfold loadModule; rewrite Hc].
  destruct (_libraries (plugin w) !! c) as [lib|] eqn:Hlib.
  - rewrite (loadModule_duplicate E f c) by eauto.
    intros [= _ <-]. split; [done|]. split; [|done].
    exists c. split; [done|]. apply Hw. by rewrite Hlib.
  - destruct (Library_open E c) as [err|] eqn:Hopen.
    { unfold loadModule. rewrite Hc. run. by rewrite Hlib, Hopen. }
    destruct (loadModule_first E f c w Hc Hlib Hopen) as (w1 & Hrun & Hlibs & Hopened & _).
    rewrite Hrun. intros [= _ <-]. rewrite Hopened. split; [|split].
    + intros m. rewrite Hlibs, lookup_insert_is_Some.
      intros [<-|[_ Hm]]; [set_solver|]. apply elem_of_app. left. by apply Hw.
    + exists c. split; [done|set_solver].
    + set_solver.
Qed.

Lemma search_directory_opens dir w u w' :
  (∀ m, is_Some (_libraries (plugin w) !! m) → m ∈ opened w) →
  search_directory E dir w = Done u w' →
  (∀ m, is_Some (_libraries (plugin w') !! m) → m ∈ opened w') ∧
  (∀ f, f ∈ (if bool_decide (trim dir = "") then []
             else if negb (is_directory E (trim dir)) then []
             else entry_path <$>
                    filter (λ e, is_regular_file e = true ∧ extension E (entry_path e) = ".hlto")
                           (recursive_directory_iterator E (trim dir))) →
        ∃ m, canonical E f = Some m ∧ m ∈ opened w') ∧
  ∀ m, m ∈ opened w → m ∈ opened w'.
Proof.
  intros Hw. unfold search_directory. cbv zeta.
  destruct (bool_decide (trim dir = "")).
  { intros [= _ <-]. split; [done|]. split; [|done]. intros f Hf. by apply elem_of_nil in Hf. }
  destruct (is_directory E (trim dir)); cbn [negb].
  2: { intros [= _ <-]. split; [done|]. split; [|done].
       intros f Hf. by apply elem_of_nil in Hf. }
  intros H. apply bind_Done in H as (? & w1 & H1 & H). injection H1 as _ <-.
  apply (for_each_all
           (λ w0, ∀ m, is_Some (_libraries (plugin w0) !! m) → m ∈ opened w0)
           (λ e w0, is_regular_file e = true ∧ extension E (entry_path e) = ".hlto" →
                    ∃ m, canonical E (entry_path e) = Some m ∧ m ∈ opened w0)) in H
    as (Hw' & Hall & Hsub); [| | |exact Hw].
  - split; [done|]. split; [|exact Hsub].
    intros f (e & -> & [He Hin]%list_elem_of_filter)%list_elem_of_fmap. by apply Hall.
  - intros e wa wb HQ Hsub He. destruct (HQ He) as (m & Hc & Hm). eauto.
  - intros e wa ub wb Hwa. cbv beta.
    destruct (is_regular_file e) eqn:Hreg; cbn [andb].
    + case_bool_decide as Hext.
      * intros Hrun. apply (loadModule_opens _ _ _ _ Hwa) in Hrun as (Hwb & Hopen & Hsub).
        split; [done|]. split; [by intros _|done].
      * intros [= _ <-]. split; [done|]. split; [|done]. by intros [_ ?].
    + intros [= _ <-]. split; [done|]. split; [|done]. by intros [? _].
Qed.

Lemma searchModules_opens paths w u w' :
  (∀ m, is_Some (_libraries (plugin w) !! m) → m ∈ opened w) →
  searchModules E paths w = Done u w' →
  (∀ m, is_Some (_libraries (plugin w') !! m) → m ∈ opened w') ∧
  (∀ f, f ∈ module_files E paths → ∃ m, canonical E f = Some m ∧ m ∈ opened w') ∧
  ∀ m, m ∈ opened w → m ∈ opened w'.
Proof.
  intros Hw. unfold searchModules, module_files. intros H.
  apply (for_each_all
           (λ w0, ∀ m, is_Some (_libraries (plugin w0) !! m) → m ∈ opened w0)
           (λ dir w0,
              ∀ f, f ∈ (if bool_decide (trim dir = "") then []
                        else if negb (is_directory E (trim dir)) then []
                        else entry_path <$>
                               filter (λ e, is_regular_file e = true
                                            ∧ extension E (entry_path e) = ".hlto")
                                      (recursive_directory_iterator E (trim dir))) →
                   ∃ m, canonical E f = Some m ∧ m ∈ opened w0)) in H
    as (Hw' & Hall & Hsub); [| | |exact Hw].
  - split; [done|]. split; [|exact Hsub].
    intros f (fs & Hf & (dir & -> & Hdir)%list_elem_of_fmap)%list_elem_of_join.
    by apply (Hall dir).
  - intros dir wa wb HQ Hsub f Hf. destruct (HQ f Hf) as (m & Hc & Hm). eauto.
  - intros dir wa ub wb. apply search_directory_opens.
Qed.

End SearchComplete.

(** X16: a search opens every module file it finds.  When every path of the
    registry is an opened module, then after a search that returns this is
    still so, every module opened before is still opened, and every regular
    file with extension [.hlto] under a directory of the list has a canonical
    path that is an opened module. *)
Theorem X16_search_opens_every_module_file
    (E : Env) (paths : string) (w : World) (u : unit) (w' : World) :
  (∀ m, is_Some (_libraries (plugin w) !! m) → m ∈ opened w) →
  searchModules E paths w = Done u w' →
  (∀ m, is_Some (_libraries (plugin w') !! m) → m ∈ opened w') ∧
  (∀ f, f ∈ module_files E paths → ∃ m, canonical E f = Some m ∧ m ∈ opened w') ∧
  (∀ m, m ∈ opened w → m ∈ opened w').
Proof. apply searchModules_opens. Qed.

Lemma X16_search_opens_every_module_file_witness :
  ∃ w', searchModules modules_env " /modules :/nowhere" (initial_world no_host) = Done () w' ∧
        "/modules/a.hlto" ∈ opened w'.
Proof.
  destruct (searchModules modules_env " /modules :/nowhere" (initial_world no_host))
    as [[] w'| |] eqn:Hrun; [|by vm_compute in Hrun..].
  exists w'. split; [reflexivity|].
  destruct (X16_search_opens_every_module_file modules_env " /modules :/nowhere"
              (initial_world no_host) () w') as (_ & Hall & _).
  - intros m [lib Hlib]. cbn in Hlib. by rewrite lookup_empty in Hlib.
  - exact Hrun.
  - destruct (Hall "/modules/a.hlto") as (m & Hc & Hm).
    + vm_compute. left.
    + injection Hc as <-. exact Hm.
Defined.

(** ** Module search: when it completes *)

Section SearchCompletes.

Variable E : Env.









End SearchCompletes.


